(** * Chrome AI translator: translation core and page-translation session

    A shallow embedding of the translation core
    ([src/background/service-worker.js], class [TranslationCore]) and of the
    content-script page session ([src/content/content-script.js], class
    [ContentTranslator]), with the properties of the specification stated
    over them. *)

From Stdlib Require Import List NArith ZArith QArith Bool String Ascii Lia Lqa.
Import ListNotations.
Close Scope Q_scope.
Open Scope nat_scope.

(** ** JavaScript strings

    A JavaScript string is a sequence of UTF-16 code units. *)

Module JS.

Definition jsstring := list N.

(** A literal: every character of an ASCII literal is one code unit. *)
Definition lit (s : string) : jsstring :=
  map N_of_ascii (list_ascii_of_string s).

Definition eqb (a b : jsstring) : bool :=
  if list_eq_dec N.eq_dec a b then true else false.

(** [s.length] *)
Definition length (s : jsstring) : nat := List.length s.

(** A string used as a condition: the empty string is falsy. *)
Definition truthy (s : jsstring) : bool :=
  match s with [] => false | _ => true end.

(** [String.prototype.toLowerCase], one code unit at a time.  The mapping is
    that of the Basic Latin and Latin-1 ranges (A-Z, and U+00C0..U+00DE but
    U+00D7); code units above U+00FF are left as they are. *)
Definition lowerUnit (c : N) : N :=
  if ((65 <=? c) && (c <=? 90))%N then (c + 32)%N
  else if ((192 <=? c) && (c <=? 222) && negb (c =? 215))%N then (c + 32)%N
  else c.

Definition toLowerCase (s : jsstring) : jsstring := map lowerUnit s.

(** [s.replace(a, b)] with a one-unit string pattern [a]: only the FIRST
    occurrence is replaced. *)
Fixpoint replace (a b : N) (s : jsstring) : jsstring :=
  match s with
  | [] => []
  | c :: s' => if (c =? a)%N then b :: s' else c :: replace a b s'
  end.


(** [s.split(sep)] with a one-unit separator: the segments between the
    occurrences of [sep], at least one segment. *)
Fixpoint split (sep : N) (s : jsstring) : list jsstring :=
  match s with
  | [] => [[]]
  | c :: s' =>
      if (c =? sep)%N then [] :: split sep s'
      else match split sep s' with
           | [] => [[c]]
           | seg :: segs => (c :: seg) :: segs
           end
  end.

(** [arr[0]] on an array of strings; [undefined] is rendered as [None]. *)
Definition first (segs : list jsstring) : option jsstring :=
  match segs with [] => None | seg :: _ => Some seg end.

(** White space and line terminators removed by [String.prototype.trim]. *)
Definition isWhiteSpace (c : N) : bool :=
  ((9 <=? c) && (c <=? 13) || (c =? 32) || (c =? 160) || (c =? 5760)
   || (8192 <=? c) && (c <=? 8202) || (c =? 8232) || (c =? 8233)
   || (c =? 8239) || (c =? 8287) || (c =? 12288) || (c =? 65279))%N.

Fixpoint trimStart (s : jsstring) : jsstring :=
  match s with
  | [] => []
  | c :: s' => if isWhiteSpace c then trimStart s' else s
  end.

Definition trimEnd (s : jsstring) : jsstring := rev (trimStart (rev s)).

Definition trim (s : jsstring) : jsstring := trimEnd (trimStart s).

(** The separators of a language tag. *)
Definition underscore : N := 95.
Definition hyphen : N := 45.

End JS.

Abbreviation jsstring := JS.jsstring.

(** ** Language normalizer ([TranslationCore.normalizeLanguage]) *)

Module Normalizer.

(** A language tag as the callers pass it: [None] is [null] or [undefined]. *)
Definition tag := option jsstring.

(** [if (!language) return ''] then
    [language.toLowerCase().replace('_', '-').split('-')[0]]. *)
Definition normalizeLanguage (language : tag) : jsstring :=
  match language with
  | None => []
  | Some l =>
      if negb (JS.truthy l) then []
      else match JS.first (JS.split JS.hyphen
                             (JS.replace JS.underscore JS.hyphen
                                (JS.toLowerCase l))) with
           | Some seg => seg
           | None => []
           end
  end.


(** The prefix of a string before the first occurrence of [sep]. *)
Fixpoint prefixBefore (sep : N) (s : jsstring) : jsstring :=
  match s with
  | [] => []
  | c :: s' => if (c =? sep)%N then [] else c :: prefixBefore sep s'
  end.

Definition tag_eqb (a b : tag) : bool :=
  match a, b with
  | Some x, Some y => JS.eqb x y
  | None, None => true
  | _, _ => false
  end.

Definition auto : jsstring := JS.lit "auto".
Definition en : jsstring := JS.lit "en".

End Normalizer.

(** ** Translation core ([TranslationCore] in the service worker) *)

Module TranslationCore.
Import Normalizer.

(** The errors the core throws or passes on. *)
Inductive error : Type :=
| EmptyText                        (* new Error('翻译文本不能为空') *)
| TranslatorMissing                (* new Error('Translator API 不可用') *)
| HostFailure (message : jsstring) (* thrown by the host or by a callback *)
| TranslateFailed (cause : error). (* new Error(`翻译失败: ${error.message}`) *)

(** The outcome of an awaited call: a value, or a thrown error. *)
Inductive outcome (A : Type) : Type :=
| Ok (a : A)
| Throw (e : error).
Arguments Ok {A} a.
Arguments Throw {A} e.

(** [{result, sourceLanguage, targetLanguage}] *)
Record TranslationResult : Type := mkResult {
  result : jsstring;
  sourceLanguage : tag;
  targetLanguage : tag
}.

(** [{original, translated, sourceLanguage}], an entry of [batchTranslate]. *)
Record BatchEntry : Type := mkEntry {
  original : jsstring;
  translated : jsstring;
  entryLanguage : tag
}.

(** Calls that leave the core, in the order they are made. *)
Inductive call : Type :=
| DetectorCreate
| Detect (text : jsstring)
| TranslatorCreate (src tgt : tag)
| Translate (text : jsstring)
| Progress (done total : nat)
| Sleep (ms : nat).

Definition isTranslatorCall (c : call) : bool :=
  match c with
  | TranslatorCreate _ _ | Translate _ => true
  | _ => false
  end.

(** The calls of a trace that reach the translation engine. *)
Definition engineCalls (t : list call) : list call := filter isTranslatorCall t.

(** The host: its state [W], the two capabilities and their handles.  Every
    host call may throw and may change the host's state. *)
Class Host : Type := {
  W : Type;
  Detector : Type;
  Translator : Type;
  hasLanguageDetector : bool;          (* 'LanguageDetector' in self *)
  hasTranslator : bool;                (* 'Translator' in self *)
  LanguageDetector_create : W -> outcome Detector * W;
  (* the ranked list, each entry by its [detectedLanguage] *)
  detector_detect : Detector -> jsstring -> W -> outcome (list tag) * W;
  Translator_create : tag -> tag -> W -> outcome Translator * W;
  translator_translate :
    Translator -> jsstring -> W -> outcome (option jsstring) * W
}.

Section Core.
Context {host : Host}.

(** The core object ([this.translator], [this.detector]), the host and the
    trace of calls made so far. *)
Record state : Type := mkState {
  translator : option Translator;
  detector : option Detector;
  world : W;
  trace : list call
}.

(** Computations of the core: state passing with exceptions. *)
Definition M (A : Type) : Type := state -> outcome A * state.

Definition ret {A} (a : A) : M A := fun s => (Ok a, s).
Definition throw {A} (e : error) : M A := fun s => (Throw e, s).
Definition bind {A B} (c : M A) (k : A -> M B) : M B :=
  fun s => match c s with
           | (Ok a, s') => k a s'
           | (Throw e, s') => (Throw e, s')
           end.
(** [try { c } catch (error) { h error }] *)
Definition try_catch {A} (c : M A) (h : error -> M A) : M A :=
  fun s => match c s with
           | (Ok a, s') => (Ok a, s')
           | (Throw e, s') => h e s'
           end.

Notation "x <- c ;; k" := (bind c (fun x => k))
  (at level 100, c at next level, right associativity).
Notation "c ;;; k" := (bind c (fun _ => k))
  (at level 100, right associativity).

(** A call to the host, recorded in the trace. *)
Definition hostCall {A} (c : call) (f : W -> outcome A * W) : M A :=
  fun s => let (r, w) := f (world s) in
           (r, mkState (translator s) (detector s) w (trace s ++ [c])).

Definition getDetector : M (option Detector) := fun s => (Ok (detector s), s).
Definition setDetector (d : Detector) : M unit :=
  fun s => (Ok tt, mkState (translator s) (Some d) (world s) (trace s)).
Definition setTranslator (t : Translator) : M unit :=
  fun s => (Ok tt, mkState (Some t) (detector s) (world s) (trace s)).
(** [await new Promise(resolve => setTimeout(resolve, ms))] *)
Definition sleep (ms : nat) : M unit :=
  fun s => (Ok tt, mkState (translator s) (detector s) (world s)
                     (trace s ++ [Sleep ms])).

(** [detectLanguage(text)]: every failure is absorbed into 'en'. *)
Definition detectLanguage (text : jsstring) : M jsstring :=
  try_catch
    (if negb hasLanguageDetector then ret en
     else
       cached <- getDetector ;;
       d <- match cached with
            | Some d => ret d
            | None => d <- hostCall DetectorCreate LanguageDetector_create ;;
                      setDetector d ;;; ret d
            end ;;
       results <- hostCall (Detect text) (detector_detect d text) ;;
       match results with
       | Some detectedLanguage :: _ =>
           if JS.truthy detectedLanguage then ret detectedLanguage else ret en
       | _ => ret en
       end)
    (fun _ => ret en).

(** [translate(text, sourceLanguage, targetLanguage)] *)
Definition translate (text : jsstring) (src tgt : tag) : M jsstring :=
  try_catch
    (if negb hasTranslator then throw TranslatorMissing
     else
       t <- hostCall (TranslatorCreate src tgt) (Translator_create src tgt) ;;
       setTranslator t ;;;
       r <- hostCall (Translate text) (translator_translate t text) ;;
       ret (match r with
            | Some translatedText =>
                if JS.truthy translatedText then translatedText else text
            | None => text
            end))
    (fun e => throw (TranslateFailed e)).

(** [let actualSourceLanguage = sourceLanguage;
     if (sourceLanguage === 'auto') actualSourceLanguage = await detectLanguage(text)] *)
Definition resolveSource (text : jsstring) (src : tag) : M tag :=
  if tag_eqb src (Some auto)
  then (d <- detectLanguage text ;; ret (Some d))
  else ret src.

(** [smartTranslate(text, sourceLanguage, targetLanguage)] *)
Definition smartTranslate (text : jsstring) (src tgt : tag)
  : M TranslationResult :=
  if negb (JS.truthy text) || negb (JS.truthy (JS.trim text))
  then throw EmptyText
  else
    actualSourceLanguage <- resolveSource text src ;;
    if JS.eqb (normalizeLanguage actualSourceLanguage) (normalizeLanguage tgt)
    then ret (mkResult text actualSourceLanguage tgt)
    else
      translatedText <- translate text actualSourceLanguage tgt ;;
      ret (mkResult translatedText actualSourceLanguage tgt).

(** The optional progress callback [onProgress(i + 1, texts.length, result)];
    it is the caller's code: it may change the host state and may throw. *)
Definition callback : Type :=
  nat -> nat -> TranslationResult -> W -> outcome unit * W.

Definition notify (onProgress : option callback) (done total : nat)
  (r : TranslationResult) : M unit :=
  match onProgress with
  | Some cb => hostCall (Progress done total) (cb done total r)
  | None => ret tt
  end.

(** What follows a successful item inside the [try] block: the progress
    callback, then the pacing delay unless the item is the last one. *)
Definition afterItem (onProgress : option callback) (i total : nat)
  (r : TranslationResult) : M unit :=
  notify onProgress (i + 1) total r ;;;
  if i <? total - 1 then sleep 50 else ret tt.

(** The entry pushed by the [catch] block. *)
Definition fallback (text : jsstring) (src : tag) : BatchEntry :=
  mkEntry text text (if tag_eqb src (Some auto) then Some en else src).

(** The [for] loop of [batchTranslate], from index [i], with the [results]
    pushed so far.  The [try] block pushes its entry before the callback
    runs, so a throw after the push leaves that entry in place and the
    [catch] block pushes the fallback entry after it. *)
Fixpoint batchLoop (src tgt : tag) (onProgress : option callback)
  (total i : nat) (texts : list jsstring) (results : list BatchEntry)
  : M (list BatchEntry) :=
  match texts with
  | [] => ret results
  | text :: rest =>
      fun s =>
        match smartTranslate text src tgt s with
        | (Ok r, s1) =>
            let pushed := results ++ [mkEntry text (result r) (sourceLanguage r)] in
            match afterItem onProgress i total r s1 with
            | (Ok _, s2) =>
                batchLoop src tgt onProgress total (S i) rest pushed s2
            | (Throw _, s2) =>
                batchLoop src tgt onProgress total (S i) rest
                  (pushed ++ [fallback text src]) s2
            end
        | (Throw _, s1) =>
            batchLoop src tgt onProgress total (S i) rest
              (results ++ [fallback text src]) s1
        end
  end.

(** [batchTranslate(texts, sourceLanguage, targetLanguage, onProgress = null)] *)
Definition batchTranslate (texts : list jsstring) (src tgt : tag)
  (onProgress : option callback) : M (list BatchEntry) :=
  batchLoop src tgt onProgress (List.length texts) 0 texts [].

(** A progress callback that never throws (no callback is one). *)
Definition quiet (onProgress : option callback) : Prop :=
  match onProgress with
  | None => True
  | Some cb => forall done total r w, fst (cb done total r w) = Ok tt
  end.

(** The batch as the specification words it: [smartTranslate] applied to the
    items one after the other, each in the state the previous one left; an
    item whose translation throws yields its original text and the next item
    is translated all the same. *)
Inductive Sequential (src tgt : tag) (onProgress : option callback)
  (total : nat) : nat -> state -> list jsstring -> list BatchEntry -> state
                  -> Prop :=
| SeqDone i s : Sequential src tgt onProgress total i s [] [] s
| SeqOk i s text rest r s1 entries s' :
    smartTranslate text src tgt s = (Ok r, s1) ->
    Sequential src tgt onProgress total (S i)
      (snd (afterItem onProgress i total r s1)) rest entries s' ->
    Sequential src tgt onProgress total i s (text :: rest)
      (mkEntry text (result r) (sourceLanguage r) :: entries) s'
| SeqFail i s text rest e s1 entries s' :
    smartTranslate text src tgt s = (Throw e, s1) ->
    Sequential src tgt onProgress total (S i) s1 rest entries s' ->
    Sequential src tgt onProgress total i s (text :: rest)
      (mkEntry text text (if tag_eqb src (Some auto) then Some en else src)
         :: entries) s'.

End Core.

(** A host for the examples: detection answers "zh"; the engine prefixes
    "T:" to the text and throws on the text "bad". *)
Definition exampleHost : Host := {|
  W := unit; Detector := unit; Translator := unit;
  hasLanguageDetector := true;
  hasTranslator := true;
  LanguageDetector_create := fun w => (Ok tt, w);
  detector_detect := fun _ _ w => (Ok [Some (JS.lit "zh")], w);
  Translator_create := fun _ _ w => (Ok tt, w);
  translator_translate := fun _ text w =>
    if JS.eqb text (JS.lit "bad")
    then (Throw (HostFailure (JS.lit "engine failure")), w)
    else (Ok (Some (JS.lit "T:" ++ text)), w)
|}.

Definition freshCore : @state exampleHost := @mkState exampleHost None None tt [].

End TranslationCore.

(** ** The page as a tree ([document.body] and below)

    The tree holds the page's own nodes and the annotation markers.  The
    [html] element above the body is taken to carry none of the ids and
    classes the content script looks for.  Every element keeps the bounding
    rectangle it is given: layout is not recomputed when nodes are inserted
    or removed.  Coordinates are rationals. *)

Module Dom.

(** [element.getBoundingClientRect()], in CSS pixels. *)
Record Rect : Type := mkRect {
  top : Q; left : Q; bottom : Q; right : Q; width : Q; height : Q
}.

(** A node is a text node or an element; [nid] is the node's identity. *)
#[warnings="-register-all"] Inductive node : Type :=
| Text (nid : nat) (data : jsstring)
| Elem (nid : nat) (tagName : jsstring) (id : jsstring)
       (classList : list jsstring) (rect : Rect) (children : list node).

(** A reference to a text node, as a script holds it: the identity of the
    node and its character data (no operation below changes the data of an
    existing text node). *)
Record TextRef : Type := mkRef { ref_id : nat; textContent : jsstring }.

Definition children (n : node) : list node :=
  match n with Elem _ _ _ _ _ cs => cs | Text _ _ => [] end.

Definition tagNameOf (n : node) : jsstring :=
  match n with Elem _ t _ _ _ _ => t | Text _ _ => [] end.

Definition rectOf (n : node) : option Rect :=
  match n with Elem _ _ _ _ r _ => Some r | Text _ _ => None end.

(** Selectors [.c] and [#i]. *)
Definition hasClass (c : jsstring) (n : node) : bool :=
  match n with
  | Elem _ _ _ cl _ _ => existsb (JS.eqb c) cl
  | Text _ _ => false
  end.

Definition hasId (i : jsstring) (n : node) : bool :=
  match n with
  | Elem _ _ d _ _ _ => JS.eqb i d
  | Text _ _ => false
  end.

Definition isTextNode (tid : nat) (n : node) : bool :=
  match n with Text i _ => Nat.eqb i tid | Elem _ _ _ _ _ _ => false end.

Section FirstSome.
Variables (A B : Type) (f : A -> option B).
Fixpoint firstSome (l : list A) : option B :=
  match l with
  | [] => None
  | a :: l' => match f a with Some b => Some b | None => firstSome l' end
  end.
End FirstSome.
Arguments firstSome {A B} f l.

(** The first node in document order, [n] included, that matches [sel]. *)
Fixpoint findFirst (sel : node -> bool) (n : node) : option node :=
  if sel n then Some n
  else match n with
       | Elem _ _ _ _ _ cs => firstSome (findFirst sel) cs
       | Text _ _ => None
       end.

(** [element.querySelector(sel)]: the first descendant in document order. *)
Definition querySelector (sel : node -> bool) (element : node) : option node :=
  firstSome (findFirst sel) (children element).

(** [element.closest(sel)] along the chain [element :: ancestors]. *)
Definition closest (sel : node -> bool) (chain : list node) : option node :=
  find sel chain.

Section ChildLists.
Variable sel : node -> bool.
Variable below : node -> option node.
Variable all : node -> node.

(** The children after the first match of [sel], at any depth, is removed;
    [below c] removes it below the child [c]. *)
Fixpoint removeFirstIn (l : list node) : option (list node) :=
  match l with
  | [] => None
  | c :: l' =>
      if sel c then Some l'
      else match below c with
           | Some c' => Some (c' :: l')
           | None => match removeFirstIn l' with
                     | Some l'' => Some (c :: l'')
                     | None => None
                     end
           end
  end.

(** The children that do not match [sel], each rewritten by [all]. *)
Fixpoint removeAllIn (l : list node) : list node :=
  match l with
  | [] => []
  | c :: l' => if sel c then removeAllIn l' else all c :: removeAllIn l'
  end.

(** The children after the first child on which [below] succeeds is
    replaced by its result. *)
Fixpoint updateFirst (l : list node) : option (list node) :=
  match l with
  | [] => None
  | c :: l' =>
      match below c with
      | Some c' => Some (c' :: l')
      | None => match updateFirst l' with
                | Some l'' => Some (c :: l'')
                | None => None
                end
      end
  end.

End ChildLists.

(** [found.remove()] for the node [querySelector sel] finds under [n];
    [None] when there is none. *)
Fixpoint removeFirst (sel : node -> bool) (n : node) : option node :=
  match n with
  | Text _ _ => None
  | Elem i t d cl r cs =>
      match removeFirstIn sel (removeFirst sel) cs with
      | Some cs' => Some (Elem i t d cl r cs')
      | None => None
      end
  end.

(** [querySelectorAll(sel).forEach(e => e.remove())] below [n]. *)
Fixpoint removeAll (sel : node -> bool) (n : node) : node :=
  match n with
  | Text _ _ => n
  | Elem i t d cl r cs => Elem i t d cl r (removeAllIn sel (removeAll sel) cs)
  end.

(** Every node below [n], [n] included, that matches [sel], in document
    order ([querySelectorAll]). *)
Fixpoint selectAll (sel : node -> bool) (n : node) : list node :=
  (if sel n then [n] else []) ++
  match n with
  | Elem _ _ _ _ _ cs => flat_map (selectAll sel) cs
  | Text _ _ => []
  end.

(** [parent.insertBefore(e, textNode.nextSibling)], or [appendChild(e)] when
    the text node is the last child: [e] comes right after the text node. *)
Fixpoint insertAfter (tid : nat) (e : node) (cs : list node) : list node :=
  match cs with
  | [] => []
  | c :: cs' =>
      if isTextNode tid c then c :: e :: cs' else c :: insertAfter tid e cs'
  end.

(** The text nodes below [n] whose next sibling matches [sel], by their
    identity, in document order. *)
Fixpoint followedBy (sel : node -> bool) (n : node) : list nat :=
  match n with
  | Text _ _ => []
  | Elem _ _ _ _ _ cs =>
      (fix go (l : list node) : list nat :=
         match l with
         | [] => []
         | c :: l' =>
             match c, l' with
             | Text i _, e :: _ => if sel e then [i] else []
             | _, _ => followedBy sel c
             end ++ go l'
         end) cs
  end.

(** The text node [tid] has a parent element below [n], [n] included, that
    is reached without entering an element that matches [sel]. *)
Fixpoint plainText (sel : node -> bool) (tid : nat) (n : node) : bool :=
  match n with
  | Text _ _ => false
  | Elem _ _ _ _ _ cs =>
      negb (sel n)
      && (existsb (isTextNode tid) cs || existsb (plainText sel tid) cs)
  end.

(** [textNode.parentElement], looked up in the tree under [n]. *)
Fixpoint parentElement (tid : nat) (n : node) : option node :=
  match n with
  | Text _ _ => None
  | Elem _ _ _ _ _ cs =>
      if existsb (isTextNode tid) cs then Some n
      else firstSome (parentElement tid) cs
  end.

(** The tree after [update] has replaced the parent element of the text node
    [tid]; [None] when the text node has no parent under [n]. *)
Fixpoint updateParent (tid : nat) (update : node -> node) (n : node)
  : option node :=
  match n with
  | Text _ _ => None
  | Elem i t d cl r cs =>
      if existsb (isTextNode tid) cs then Some (update n)
      else match updateFirst (updateParent tid update) cs with
           | Some cs' => Some (Elem i t d cl r cs')
           | None => None
           end
  end.

(** The text nodes a [TreeWalker] with [NodeFilter.SHOW_TEXT] and the filter
    [accept] yields under [n], in document order.  [chain] is the parent
    element of [n] followed by its ancestors. *)
Fixpoint walkText (accept : list node -> jsstring -> bool)
  (chain : list node) (n : node) : list TextRef :=
  match n with
  | Text i d => if accept chain d then [mkRef i d] else []
  | Elem _ _ _ _ _ cs => flat_map (walkText accept (n :: chain)) cs
  end.

End Dom.

(** ** The content script ([ContentTranslator])

    Every handler is the function it runs to completion.  [async] handlers
    give up control at their [await]s only; what else may run there is a
    parameter of the handler.  Timers that animate or remove an element later
    are left out. *)

Module ContentTranslator.
Import Normalizer Dom.

(** How the promise of [translateText] settles: resolved with the reply's
    [result] ([None] when the reply carries none), or rejected. *)
Inductive response : Type :=
| Resolved (result : option jsstring)
| Rejected (message : jsstring).

(** The background context behind [chrome.runtime.sendMessage]: its state
    and its reply to a TRANSLATE_TEXT message. *)
Class Background : Type := {
  B : Type;
  sendTranslateText : jsstring -> tag -> tag -> B -> response * B
}.

Record Viewport : Type := mkViewport {
  innerHeight : Q; innerWidth : Q; clientHeight : Q; clientWidth : Q
}.


Record Position : Type := mkPosition { px : Q; py : Q; pwidth : Q; pheight : Q }.

(** The element [#chrome-ai-translator-icon]. *)
Record Icon : Type := mkIcon { iconText : jsstring; iconLeft : Q; iconTop : Q }.

(** The text of the banner [#translation-progress]. *)
Inductive banner : Type :=
| SweepStarting (src tgt : tag)
| SweepAt (i total : nat).

(** The user-visible messages of the page session. *)
Inductive message : Type :=
| SelectionTooLong     (* '选择的文本过长，请选择较短的文本进行翻译' *)
| NothingVisible       (* '可视区域内没有找到可翻译的文本内容' *)
| NothingQualifies     (* '没有找到符合翻译条件的文本内容' *)
| NothingTranslated    (* '没有成功翻译任何文本，请检查网络连接或稍后重试' *)
| SweepDone (translatedCount : nat)
| Cancelled.           (* '已取消页面翻译' *)

Inductive toast : Type :=
| ErrorToast (m : message)
| SuccessToast (m : message).

(** What [appendTranslationToNode] is asked to attach. *)
Inductive annotation : Type :=
| Translated (text : jsstring)
| Failed.

Record Request : Type := mkRequest {
  reqText : jsstring; reqSource : tag; reqTarget : tag
}.

Record Prefs : Type := mkPrefs { sourceLanguage : tag; targetLanguage : tag }.

(** The extension's own elements on the page.  The source appends them to
    [document.body]; here they are kept beside the page tree. *)
Record Overlay : Type := mkOverlay {
  icon : option Icon;
  popup : bool;
  progress : option banner
}.

Record Document : Type := mkDocument {
  body : node;
  nextId : nat;          (* identity of the next created node *)
  viewport : Viewport;
  overlay : Overlay
}.

(** What the session did, in order: toasts raised, annotation markers
    attached to the page (the fragment and what was attached),
    TRANSLATE_TEXT requests, pacing delays. *)
Record Log : Type := mkLog {
  toasts : list toast;
  attached : list (nat * annotation);
  requests : list Request;
  delays : list nat
}.

(** [{success, translatedCount | error}] *)
Record PageResult : Type := mkPageResult {
  success : bool;
  translatedCount : option nat;
  error : option message
}.

Definition annotationClass : jsstring := JS.lit "translation-append".
Definition translatedClass : jsstring := JS.lit "translated-text".
Definition iconId : jsstring := JS.lit "chrome-ai-translator-icon".
Definition popupId : jsstring := JS.lit "chrome-ai-translator-popup".
Definition progressId : jsstring := JS.lit "translation-progress".

Definition isAnnotation : node -> bool := hasClass annotationClass.

Definition nonContentTags : list jsstring :=
  map JS.lit ["script"; "style"; "noscript"; "meta"; "title"; "head"]%string.

(** The test of the regular expression with the classes a-z, A-Z,
    U+4E00..U+9FA5, U+3040..U+309F and U+30A0..U+30FF. *)
Definition isLinguistic (c : N) : bool :=
  ((97 <=? c) && (c <=? 122) || (65 <=? c) && (c <=? 90)
   || (19968 <=? c) && (c <=? 40869) || (12352 <=? c) && (c <=? 12447)
   || (12448 <=? c) && (c <=? 12543))%N.

Definition hasLinguisticContent (text : jsstring) : bool :=
  existsb isLinguistic text.

Definition isSome {A} (o : option A) : bool :=
  match o with Some _ => true | None => false end.

(** The [acceptNode] filter of [getPageTextNodes]; [chain] is the parent
    element of the text node followed by its ancestors. *)
Definition acceptNode (chain : list node) (data : jsstring) : bool :=
  match chain with
  | [] => false
  | parent :: _ =>
      let tagName := JS.toLowerCase (tagNameOf parent) in
      if existsb (JS.eqb tagName) nonContentTags then false
      else if isSome (closest (hasId iconId) chain)
              || isSome (closest (hasId popupId) chain)
              || isSome (closest (hasId progressId) chain)
              || isSome (closest isAnnotation chain)
              || hasClass annotationClass parent then false
      else
        let text := JS.trim data in
        if (JS.length text =? 0) || (500 <? JS.length text) then false
        else if negb (hasLinguisticContent text) then false
        else if isSome (querySelector isAnnotation parent) then false
        else true
  end.

(** [getPageTextNodes()] *)
Definition getPageTextNodes (d : Document) : list TextRef :=
  walkText acceptNode [] (body d).

Definition Qltb (a b : Q) : bool := negb (Qle_bool b a).

(** [a || b] on numbers: [a] unless it is zero. *)
Definition orNumber (a b : Q) : Q := if Qeq_bool a 0%Q then b else a.

(** [isElementInViewport(element)] *)
Definition isElementInViewport (vp : Viewport) (element : option node) : bool :=
  match element with
  | None => false
  | Some e =>
      match rectOf e with
      | None => false
      | Some rect =>
          let windowHeight := orNumber (innerHeight vp) (clientHeight vp) in
          let windowWidth := orNumber (innerWidth vp) (clientWidth vp) in
          Qltb 0%Q (bottom rect) && Qltb 0%Q (right rect)
          && Qltb (top rect) windowHeight && Qltb (left rect) windowWidth
          && Qltb 0%Q (width rect) && Qltb 0%Q (height rect)
      end
  end.

(** [getVisibleTextNodes()] *)
Definition getVisibleTextNodes (d : Document) : list TextRef :=
  filter (fun n => isElementInViewport (viewport d)
                     (parentElement (ref_id n) (body d)))
         (getPageTextNodes d).

(** The [span] that [appendTranslationToNode] creates; its rectangle is not
    laid out. *)
Definition failedText : jsstring := [32; 91; 32763; 35793; 22833; 36133; 93]%N.

Definition annotationText (a : annotation) : jsstring :=
  match a with
  | Translated t => JS.lit " [" ++ t ++ JS.lit "]"
  | Failed => failedText
  end.

Definition noRect : Rect := mkRect 0%Q 0%Q 0%Q 0%Q 0%Q 0%Q.

Definition translationElement (fresh : nat) (a : annotation) : node :=
  Elem fresh (JS.lit "SPAN") [] [annotationClass; translatedClass] noRect
       [Text (S fresh) (annotationText a)].

Definition withChildren (n : node) (cs : list node) : node :=
  match n with
  | Elem i t d cl r _ => Elem i t d cl r cs
  | Text _ _ => n
  end.

(** The parent element after [appendTranslationToNode]: an annotation found
    below it is removed, then the new one comes right after the text node. *)
Definition attach (tid : nat) (e : node) (parent : node) : node :=
  let parent1 := match removeFirst isAnnotation parent with
                 | Some p => p
                 | None => parent
                 end in
  withChildren parent1 (insertAfter tid e (children parent1)).

(** [a || b] on language tags. *)
Definition orTag (a b : tag) : tag :=
  match a with
  | Some x => if JS.truthy x then a else b
  | None => b
  end.

Section Session.
Context {bg : Background}.

(** The [ContentTranslator] object, the page it is attached to, what it has
    done so far and the background context it talks to. *)
Record session : Type := mkSession {
  selectedText : jsstring;
  selectionRange : option Rect;
  languagePreferences : Prefs;
  isPageTranslated : bool;
  scrollTranslationHandler : option (tag * tag);
  document : Document;
  log : Log;
  backend : B
}.

Definition setDocument (f : Document -> Document) (s : session) : session :=
  mkSession (selectedText s) (selectionRange s) (languagePreferences s)
    (isPageTranslated s) (scrollTranslationHandler s) (f (document s))
    (log s) (backend s).

Definition setLog (f : Log -> Log) (s : session) : session :=
  mkSession (selectedText s) (selectionRange s) (languagePreferences s)
    (isPageTranslated s) (scrollTranslationHandler s) (document s)
    (f (log s)) (backend s).

Definition setOverlay (f : Overlay -> Overlay) : session -> session :=
  setDocument (fun d => mkDocument (body d) (nextId d) (viewport d)
                          (f (overlay d))).

Definition setIsPageTranslated (b : bool) (s : session) : session :=
  mkSession (selectedText s) (selectionRange s) (languagePreferences s)
    b (scrollTranslationHandler s) (document s) (log s) (backend s).

Definition setScrollTranslationHandler (h : option (tag * tag)) (s : session)
  : session :=
  mkSession (selectedText s) (selectionRange s) (languagePreferences s)
    (isPageTranslated s) h (document s) (log s) (backend s).


(** The constructor followed by [init()]: the fields are set, the defaults
    and the stored preferences loaded, the listeners installed. *)
Definition attachSession (defaults : Prefs) (stored : option Prefs)
  (d : Document) (b : B) : session :=
  mkSession [] None
    (match stored with Some p => p | None => defaults end)
    false None d (mkLog [] [] [] []) b.

(** The reply to GET_TRANSLATION_STATUS. *)
Definition getTranslationStatus (s : session) : bool := isPageTranslated s.

Definition raise (t : toast) : session -> session :=
  setLog (fun l => mkLog (toasts l ++ [t]) (attached l) (requests l)
                     (delays l)).

Definition showErrorMessage (m : message) : session -> session :=
  raise (ErrorToast m).

Definition showSuccessMessage (m : message) : session -> session :=
  raise (SuccessToast m).

(** [hideOverlay()]: the icon and the popup are removed. *)
Definition hideOverlay : session -> session :=
  setOverlay (fun o => mkOverlay None false (progress o)).

Definition showTranslationProgress (b : banner) : session -> session :=
  setOverlay (fun o => mkOverlay (icon o) (popup o) (Some b)).

Definition updateTranslationProgress (b : banner) : session -> session :=
  setOverlay (fun o => mkOverlay (icon o) (popup o)
                         (match progress o with
                          | Some _ => Some b
                          | None => None
                          end)).

Definition hideTranslationProgress : session -> session :=
  setOverlay (fun o => mkOverlay (icon o) (popup o) None).

Definition iconSize : Q := 32%Q.
Definition margin : Q := 10%Q.

Definition Qmaxb (a b : Q) : Q := if Qle_bool a b then b else a.

(** The [left] and [top] of the icon in [showTranslationIcon]. *)
Definition iconLeftAt (vp : Viewport) (position : Position) : Q :=
  let left := (px position - iconSize / 2)%Q in
  if Qltb left margin then margin
  else if Qltb (innerWidth vp - margin)%Q (left + iconSize)%Q
       then (innerWidth vp - iconSize - margin)%Q
       else left.

Definition iconTopAt (vp : Viewport) (position : Position) : Q :=
  let top := (py position - 40)%Q in
  if Qltb top margin then
    let top := (py position + pheight position + 10)%Q in
    if Qltb (innerHeight vp - margin)%Q (top + iconSize)%Q
    then Qmaxb margin (innerHeight vp - iconSize - margin)%Q
    else top
  else top.

(** [showTranslationOverlay] / [showTranslationIcon] *)
Definition showTranslationIcon (selectedText : jsstring) (position : Position)
  (s : session) : session :=
  let s := hideOverlay s in
  let vp := viewport (document s) in
  setOverlay (fun o => mkOverlay
                         (Some (mkIcon selectedText (iconLeftAt vp position)
                                  (iconTopAt vp position)))
                         (popup o) (progress o)) s.

(** [{x: rect.left + rect.width / 2, y: rect.top, width, height}] *)
Definition anchor (rect : Rect) : Position :=
  mkPosition (left rect + width rect / 2)%Q (top rect) (width rect)
    (height rect).


(** [translateText]: one TRANSLATE_TEXT request to the background. *)
Definition translateText (text : jsstring) (src tgt : tag) (s : session)
  : response * session :=
  let (r, b) := sendTranslateText text src tgt (backend s) in
  (r, mkSession (selectedText s) (selectionRange s) (languagePreferences s)
        (isPageTranslated s) (scrollTranslationHandler s) (document s)
        (mkLog (toasts (log s)) (attached (log s))
           (requests (log s) ++ [mkRequest text src tgt]) (delays (log s)))
        b).

(** [await new Promise(resolve => setTimeout(resolve, ms))] *)
Definition delay (ms : nat) : session -> session :=
  setLog (fun l => mkLog (toasts l) (attached l) (requests l)
                     (delays l ++ [ms])).

(** [appendTranslationToNode(textNode, translatedText, isError)] *)
Definition appendTranslationToNode (textNode : TextRef) (a : annotation)
  (s : session) : session :=
  let d := document s in
  match updateParent (ref_id textNode)
          (attach (ref_id textNode) (translationElement (nextId d) a))
          (body d) with
  | None => s
  | Some body' =>
      setDocument (fun d => mkDocument body' (nextId d + 2) (viewport d)
                              (overlay d))
        (setLog (fun l => mkLog (toasts l)
                            (attached l ++ [(ref_id textNode, a)])
                            (requests l) (delays l)) s)
  end.

(** [setupScrollTranslation]: the debounced scroll listener is installed. *)
Definition setupScrollTranslation (src tgt : tag) : session -> session :=
  setScrollTranslationHandler (Some (src, tgt)).

(** [handleCancelTranslatePage()] *)
Definition handleCancelTranslatePage (s : session) : session :=
  let s := setDocument (fun d => mkDocument (removeAll isAnnotation (body d))
                                   (nextId d) (viewport d) (overlay d)) s in
  let s := setScrollTranslationHandler None s in
  let s := hideTranslationProgress s in
  let s := setIsPageTranslated false s in
  showSuccessMessage Cancelled s.

Definition qualifies (text : jsstring) : bool :=
  (0 <? JS.length text) && (JS.length text <=? 500).

(** The [for] loop of [handleTranslatePage] from index [i].  The loop gives
    up control while it awaits the reply for a fragment; [cancelDuring i]
    tells whether a CANCEL_TRANSLATE_PAGE message is handled during the
    wait for fragment [i]. *)
Fixpoint sweepLoop (cancelDuring : nat -> bool) (src tgt : tag)
  (total i : nat) (nodes : list TextRef) (translatedCount : nat)
  (s : session) : nat * session :=
  match nodes with
  | [] => (translatedCount, s)
  | node :: rest =>
      let originalText := JS.trim (textContent node) in
      if qualifies originalText then
        let s := updateTranslationProgress (SweepAt (i + 1) total) s in
        let (reply, s) := translateText originalText src tgt s in
        let s := if cancelDuring i then handleCancelTranslatePage s else s in
        let (translatedCount, s) :=
          match reply with
          | Resolved (Some r) =>
              if JS.truthy r && negb (JS.eqb r originalText)
              then (translatedCount + 1,
                    appendTranslationToNode node (Translated r) s)
              else (translatedCount, appendTranslationToNode node Failed s)
          | Resolved None =>
              (translatedCount, appendTranslationToNode node Failed s)
          | Rejected _ =>
              (translatedCount, appendTranslationToNode node Failed s)
          end in
        let s := if i <? total - 1 then delay 50 s else s in
        sweepLoop cancelDuring src tgt total (S i) rest translatedCount s
      else sweepLoop cancelDuring src tgt total (S i) rest translatedCount s
  end.

(** [handleTranslatePage(message)], the message given by its two language
    fields.  Nothing in the [try] block throws here, so its [catch] block is
    never entered. *)
Definition handleTranslatePage (cancelDuring : nat -> bool)
  (messageSource messageTarget : tag) (s : session) : PageResult * session :=
  let sourceLanguage :=
    orTag messageSource (sourceLanguage (languagePreferences s)) in
  let targetLanguage :=
    orTag messageTarget (targetLanguage (languagePreferences s)) in
  let visibleTextNodes := getVisibleTextNodes (document s) in
  if List.length visibleTextNodes =? 0 then
    (mkPageResult false None (Some NothingVisible),
     showErrorMessage NothingVisible s)
  else
    let s := showTranslationProgress
               (SweepStarting sourceLanguage targetLanguage) s in
    let texts := filter qualifies
                   (map (fun n => JS.trim (textContent n)) visibleTextNodes) in
    if List.length texts =? 0 then
      (mkPageResult false None (Some NothingQualifies),
       showErrorMessage NothingQualifies (hideTranslationProgress s))
    else
      let (translatedCount, s) :=
        sweepLoop cancelDuring sourceLanguage targetLanguage
          (List.length visibleTextNodes) 0 visibleTextNodes 0 s in
      let s := hideTranslationProgress s in
      let s := if 0 <? translatedCount
               then setupScrollTranslation sourceLanguage targetLanguage
                      (showSuccessMessage (SweepDone translatedCount) s)
               else showErrorMessage NothingTranslated s in
      let s := setIsPageTranslated (0 <? translatedCount) s in
      (mkPageResult (0 <? translatedCount) (Some translatedCount) None, s).

(** The first loop of [translateNewlyVisibleContent]: one request per text,
    [{original, translated}] pushed for each. *)
Fixpoint translateAll (src tgt : tag) (texts : list jsstring)
  (results : list (jsstring * jsstring)) (s : session)
  : list (jsstring * jsstring) * session :=
  match texts with
  | [] => (results, s)
  | text :: rest =>
      let (reply, s) := translateText text src tgt s in
      let translated :=
        match reply with
        | Resolved (Some r) => if JS.truthy r then r else text
        | Resolved None => text
        | Rejected _ => text
        end in
      translateAll src tgt rest (results ++ [(text, translated)]) s
  end.

(** Its second loop: the results are applied to the nodes. *)
Fixpoint applyResults (nodes : list TextRef)
  (results : list (jsstring * jsstring)) (resultIndex : nat) (s : session)
  : session :=
  match nodes with
  | [] => s
  | node :: rest =>
      if qualifies (JS.trim (textContent node)) then
        let s := match nth_error results resultIndex with
                 | Some (original, translated) =>
                     if negb (JS.eqb translated original)
                     then appendTranslationToNode node (Translated translated) s
                     else s
                 | None => s
                 end in
        applyResults rest results (S resultIndex) s
      else applyResults rest results resultIndex s
  end.

(** [translateNewlyVisibleContent(sourceLanguage, targetLanguage)] *)
Definition translateNewlyVisibleContent (src tgt : tag) (s : session)
  : session :=
  if negb (isPageTranslated s) then s
  else
    let d := document s in
    let newlyVisibleNodes :=
      filter (fun n =>
                let parent := parentElement (ref_id n) (body d) in
                isSome parent
                && isElementInViewport (viewport d) parent
                && negb (match parent with
                         | Some p => isSome (querySelector isAnnotation p)
                         | None => false
                         end))
             (getPageTextNodes d) in
    if List.length newlyVisibleNodes =? 0 then s
    else
      let texts := filter qualifies
                     (map (fun n => JS.trim (textContent n))
                        newlyVisibleNodes) in
      if List.length texts =? 0 then s
      else
        let (results, s) := translateAll src tgt texts [] s in
        applyResults newlyVisibleNodes results 0 s.

(** The annotation markers on the page, by their text, in document order
    ([document.querySelectorAll('.translation-append')]). *)
Definition annotationsOn (s : session) : list node :=
  selectAll isAnnotation (body (document s)).

(** The text node lies outside every annotation marker of the page. *)
Definition outsideMarkers (d : Document) (n : TextRef) : bool :=
  plainText isAnnotation (ref_id n) (body d).

(** The fragments that carry an annotation marker right after them. *)
Definition annotatedFragments (s : session) : list nat :=
  followedBy isAnnotation (body (document s)).

(** [appendTranslationToNode] applied to every node of a list, in order. *)
Definition annotateAll (a : annotation) (nodes : list TextRef) (s : session)
  : session :=
  fold_left (fun s n => appendTranslationToNode n a s) nodes s.

End Session.

Definition isTranslatedCall (c : nat * annotation) : bool :=
  match snd c with Translated _ => true | Failed => false end.

(** What the sweep attaches for a reply: the translation when the promise
    resolved with a non-empty result that differs from the original text,
    the failure marker otherwise. *)
Definition annotationFor (reply : response) (originalText : jsstring)
  : annotation :=
  match reply with
  | Resolved (Some r) =>
      if JS.truthy r && negb (JS.eqb r originalText)
      then Translated r else Failed
  | Resolved None => Failed
  | Rejected _ => Failed
  end.

(** What a session has done that removing markers does not undo: the state
    of the background, the requests sent, the record of the markers
    attached and the pacing delays. *)
Definition effects {bg : Background} (s : session)
  : B * list Request * list (nat * annotation) * list nat :=
  (backend s, requests (log s), attached (log s), delays (log s)).

(** Backgrounds for the examples: one that prefixes "T:" to every text, one
    that rejects every request. *)
Definition echoBackground : Background := {|
  B := unit;
  sendTranslateText := fun text _ _ b =>
    (Resolved (Some (JS.lit "T:" ++ text)), b)
|}.

Definition failingBackground : Background := {|
  B := unit;
  sendTranslateText := fun _ _ _ b => (Rejected (JS.lit "failed"), b)
|}.

(** Pages for the examples: every element lies inside an 800x600 viewport. *)
Definition box : Rect := mkRect 0%Q 0%Q 20%Q 100%Q 100%Q 20%Q.
Definition screen : Viewport := mkViewport 600%Q 800%Q 600%Q 800%Q.

Definition element (i : nat) (t : string) (cs : list node) : node :=
  Elem i (JS.lit t) [] [] box cs.

Definition marker (i : nat) (a : annotation) : node :=
  Elem i (JS.lit "SPAN") [] [annotationClass; translatedClass] noRect
       [Text (S i) (annotationText a)].

Definition pageOf (b : node) : Document :=
  mkDocument b 1000 screen (mkOverlay None false None).

Definition examplePrefs : Prefs := mkPrefs (Some auto) (Some (JS.lit "zh-CN")).

Definition sessionOn (bg : Background) (b : @B bg) (page : node)
  : @session bg :=
  @attachSession bg examplePrefs None (pageOf page) b.

(** [<body><p><b>Bold</b> rest</p></body>] *)
Definition nestedPage : node :=
  element 0 "BODY"
    [element 1 "P" [element 2 "B" [Text 3 (JS.lit "Bold")];
                    Text 4 (JS.lit " rest")]].

(** A page that a previous content script has annotated twice. *)
Definition annotatedPage : node :=
  element 0 "BODY"
    [element 1 "P" [Text 2 (JS.lit "Hello");
                    marker 3 (Translated (JS.lit "T:Hello"))];
     element 5 "P" [Text 6 (JS.lit "World");
                    marker 7 (Translated (JS.lit "T:World"))]].

(** The k-th paragraph, [<p>text</p>]; its text node is fragment [k]. *)
Definition fragmentId (k : nat) : nat := 11 + 2 * k.

Definition paragraph (k : nat) : node :=
  element (10 + 2 * k) "P" [Text (fragmentId k) (JS.lit "text")].

Definition paragraphs (n : nat) : node :=
  element 0 "BODY" (map paragraph (seq 1 n)).



End ContentTranslator.

(** ** The page session over time

    The handlers of the page session as the events that run them, one after
    the other. *)

Module PageEvents.
Import Normalizer Dom ContentTranslator.

Section Events.
Context {bg : Background}.

(** The scroll listener installed by [setupScrollTranslation], once its
    debounce timer has fired: [translateNewlyVisibleContent] with the
    languages the listener was installed with. *)
Definition onScrollSettled (s : session) : session :=
  match scrollTranslationHandler s with
  | Some (src, tgt) => translateNewlyVisibleContent src tgt s
  | None => s
  end.

Inductive pageEvent : Type :=
| TranslatePage (cancelDuring : nat -> bool) (src tgt : tag)
| CancelTranslatePage
| ScrollSettled.

Definition step (e : pageEvent) (s : session) : session :=
  match e with
  | TranslatePage cancelDuring src tgt =>
      snd (handleTranslatePage cancelDuring src tgt s)
  | CancelTranslatePage => handleCancelTranslatePage s
  | ScrollSettled => onScrollSettled s
  end.

Definition run (events : list pageEvent) (s : session) : session :=
  fold_left (fun s e => step e s) events s.

(** The page's own tree: the body without the annotation markers. *)
Definition ownPage (s : session) : node :=
  removeAll isAnnotation (body (document s)).

End Events.

End PageEvents.

(** ** Calls of the core, by the capability they use *)

Module CoreCalls.
Import TranslationCore.

(** The calls that use the language detector. *)
Definition isDetectorCall (c : call) : bool :=
  match c with
  | DetectorCreate | Detect _ => true
  | _ => false
  end.

End CoreCalls.

(** ** More of JavaScript strings *)

Module JSText.

(** [s.startsWith(p)] and [s.includes(p)] *)
Fixpoint startsWith (p s : jsstring) : bool :=
  match p, s with
  | [], _ => true
  | _ :: _, [] => false
  | a :: p', c :: s' => (a =? c)%N && startsWith p' s'
  end.

Fixpoint includes (p s : jsstring) : bool :=
  startsWith p s
  || match s with
     | [] => false
     | _ :: s' => includes p s'
     end.

End JSText.

(** ** The background service ([BackgroundService] in the service worker)

    The message handlers of the service worker that reach the translation
    core.  A handler runs over the core, the replies passed to
    [sendResponse] so far and the messages sent to tabs so far. *)

Module BackgroundService.
Import Normalizer TranslationCore JSText.

(** The texts of the errors and of the replies. *)
(* '翻译文本不能为空' *)
Definition emptyTextMessage : jsstring :=
  [32763; 35793; 25991; 26412; 19981; 33021; 20026; 31354]%N.
(* 'Translator API 不可用' *)
Definition translatorMissingMessage : jsstring :=
  JS.lit "Translator API" ++ [32; 19981; 21487; 29992]%N.
(* '翻译失败: ' *)
Definition translateFailedPrefix : jsstring :=
  [32763; 35793; 22833; 36133; 58; 32]%N.
(* '文本长度超过5000字符限制' *)
Definition tooLongMessage : jsstring :=
  [25991; 26412; 38271; 24230; 36229; 36807; 53; 48; 48; 48; 23383; 31526;
   38480; 21046]%N.
(* '当前浏览器版本不支持AI翻译功能，请升级到Chrome 138或更高版本' *)
Definition unsupportedMessage : jsstring :=
  [24403; 21069; 27983; 35272; 22120; 29256; 26412; 19981; 25903; 25345; 65;
   73; 32763; 35793; 21151; 33021; 65292; 35831; 21319; 32423; 21040; 67;
   104; 114; 111; 109; 101; 32; 49; 51; 56; 25110; 26356; 39640; 29256;
   26412]%N.
(* '翻译失败，请重试' *)
Definition retryMessage : jsstring :=
  [32763; 35793; 22833; 36133; 65292; 35831; 37325; 35797]%N.
(* '不支持的语言对' *)
Definition languagePairMessage : jsstring :=
  [19981; 25903; 25345; 30340; 35821; 35328; 23545]%N.
(* '翻译模型不可用，请稍后再试' *)
Definition modelMessage : jsstring :=
  [32763; 35793; 27169; 22411; 19981; 21487; 29992; 65292; 35831; 31245;
   21518; 20877; 35797]%N.
(* '网络错误，请检查网络连接' *)
Definition networkMessage : jsstring :=
  [32593; 32476; 38169; 35823; 65292; 35831; 26816; 26597; 32593; 32476;
   36830; 25509]%N.
(* '语言检测功能不可用，请升级浏览器或手动选择源语言' *)
Definition detectorUnavailableMessage : jsstring :=
  [35821; 35328; 26816; 27979; 21151; 33021; 19981; 21487; 29992; 65292;
   35831; 21319; 32423; 27983; 35272; 22120; 25110; 25163; 21160; 36873;
   25321; 28304; 35821; 35328]%N.
(* '语言检测失败，请手动选择源语言' *)
Definition detectionFailedMessage : jsstring :=
  [35821; 35328; 26816; 27979; 22833; 36133; 65292; 35831; 25163; 21160;
   36873; 25321; 28304; 35821; 35328]%N.
(* '翻译器不可用，请升级浏览器' *)
Definition translatorUnavailableMessage : jsstring :=
  [32763; 35793; 22120; 19981; 21487; 29992; 65292; 35831; 21319; 32423;
   27983; 35272; 22120]%N.

(** The longest text a translation handler accepts, in code units. *)
Definition maxTextLength : nat := 5000.

(** [error.message] of the errors of the core; a host failure carries the
    message of what the host threw. *)
Fixpoint messageOf (e : error) : jsstring :=
  match e with
  | EmptyText => emptyTextMessage
  | TranslatorMissing => translatorMissingMessage
  | HostFailure message => message
  | TranslateFailed cause => translateFailedPrefix ++ messageOf cause
  end.

(** The message of the [catch] blocks of the two translation handlers. *)
Definition errorMessageFor (message : jsstring) : jsstring :=
  if includes (JS.lit "not supported") message then languagePairMessage
  else if includes (JS.lit "model") message then modelMessage
  else if includes (JS.lit "network") message then networkMessage
  else retryMessage.

(** What a handler passes to [sendResponse]. *)
Inductive reply : Type :=
| Failure (error : jsstring)     (* {success: false, error} *)
| Success (result : jsstring) (sourceLanguage targetLanguage : tag)
                                 (* {success: true, result, ...} *)
| Direct (result : jsstring) (sourceLanguage targetLanguage : tag)
                                 (* {success: true, streaming: false, ...} *)
| Started (requestId : nat).     (* {success: true, streaming: true, requestId} *)

(** What the streaming handler sends to the tab of the sender. *)
Inductive tabMessage : Type :=
| STREAMING_CHUNK (requestId : nat) (chunk fullResult : jsstring)
                  (isComplete : bool)
| STREAMING_COMPLETE (requestId : nat) (fullResult : jsstring)
| STREAMING_ERROR (requestId : nat) (error : jsstring).

Section Service.
Context {host : Host}.

Record worker : Type := mkWorker {
  core : state;                      (* the [translationCore] singleton *)
  responses : list reply;            (* passed to [sendResponse], in order *)
  sent : list (nat * tabMessage)     (* [chrome.tabs.sendMessage(tabId, m)] *)
}.

(** Handlers: state passing with exceptions, over the worker. *)
Definition Task (A : Type) : Type := worker -> outcome A * worker.

Definition done {A} (a : A) : Task A := fun w => (Ok a, w).
Definition andThen {A B} (c : Task A) (k : A -> Task B) : Task B :=
  fun w => match c w with
           | (Ok a, w') => k a w'
           | (Throw e, w') => (Throw e, w')
           end.
(** [try { c } catch (error) { h error }] *)
Definition attempt {A} (c : Task A) (h : error -> Task A) : Task A :=
  fun w => match c w with
           | (Ok a, w') => (Ok a, w')
           | (Throw e, w') => h e w'
           end.

Notation "x <- c ;; k" := (andThen c (fun x => k))
  (at level 100, c at next level, right associativity).
Notation "c ;;; k" := (andThen c (fun _ => k))
  (at level 100, right associativity).

(** [await] of a call into the core. *)
Definition await {A} (c : M A) : Task A :=
  fun w => let (r, st) := c (core w) in
           (r, mkWorker st (responses w) (sent w)).

Definition sendResponse (r : reply) : Task unit :=
  fun w => (Ok tt, mkWorker (core w) (responses w ++ [r]) (sent w)).

(** [chrome.tabs.sendMessage(tabId, m).catch(...)]: a failed delivery is
    swallowed. *)
Definition tabsSendMessage (tabId : nat) (m : tabMessage) : Task unit :=
  fun w => (Ok tt, mkWorker (core w) (responses w) (sent w ++ [(tabId, m)])).

(** [if (sender.tab) chrome.tabs.sendMessage(sender.tab.id, m)] *)
Definition toSender (senderTab : option nat) (m : tabMessage) : Task unit :=
  match senderTab with
  | Some tabId => tabsSendMessage tabId m
  | None => done tt
  end.

(** [!text || text.trim().length === 0]; [None] is a message without text. *)
Definition isBlank (text : option jsstring) : bool :=
  match text with
  | None => true
  | Some t => negb (JS.truthy t) || (JS.length (JS.trim t) =? 0)
  end.

Definition textOf (text : option jsstring) : jsstring :=
  match text with Some t => t | None => [] end.

(** [handleTranslateRequest(message, sendResponse)], the message given by
    its fields [text], [sourceLanguage] and [targetLanguage]. *)
Definition handleTranslateRequest (text : option jsstring) (src tgt : tag)
  : Task unit :=
  attempt
    (if isBlank text then sendResponse (Failure emptyTextMessage)
     else if maxTextLength <? JS.length (textOf text)
     then sendResponse (Failure tooLongMessage)
     else if negb hasTranslator then sendResponse (Failure unsupportedMessage)
     else
       r <- await (smartTranslate (textOf text) src tgt) ;;
       sendResponse (Success (result r) (sourceLanguage r) (targetLanguage r)))
    (fun error => sendResponse (Failure (errorMessageFor (messageOf error)))).

(** [BackgroundService.detectLanguage(text)]: [None] is [null]. *)
Definition detectLanguage (text : jsstring) : Task (option jsstring) :=
  attempt (d <- await (TranslationCore.detectLanguage text) ;; done (Some d))
          (fun _ => done None).

(** [(s || '').toLowerCase().replace('_', '-').split('-')[0]], the local
    [__norm] of the streaming handler. *)
Definition norm (s : tag) : jsstring :=
  let l := match s with
           | Some x => if JS.truthy x then x else []
           | None => []
           end in
  match JS.first (JS.split JS.hyphen
                    (JS.replace JS.underscore JS.hyphen (JS.toLowerCase l))) with
  | Some seg => seg
  | None => []
  end.

Definition space : N := 32.

(** The [for] loop over the chunks, from index [i], with [fullResult] so
    far; it returns the final [fullResult]. *)
Fixpoint streamChunks (senderTab : option nat) (requestId : nat)
  (total i : nat) (chunks : list jsstring) (fullResult : jsstring)
  : Task jsstring :=
  match chunks with
  | [] => done fullResult
  | c :: rest =>
      let chunk := (if i =? 0 then [] else [space]) ++ c in
      let fullResult := fullResult ++ chunk in
      toSender senderTab
        (STREAMING_CHUNK requestId chunk fullResult (i =? total - 1)) ;;;
      (if i <? total - 1 then await (sleep 50) else done tt) ;;;
      streamChunks senderTab requestId total (S i) rest fullResult
  end.

(** The inner [try] block of the streaming handler and its [catch]. *)
Definition streamTranslation (text : jsstring) (actual tgt : tag)
  (requestId : nat) (senderTab : option nat) : Task unit :=
  attempt
    (r <- await (smartTranslate text actual tgt) ;;
     let chunks := JS.split space (result r) in
     fullResult <- streamChunks senderTab requestId (List.length chunks) 0
                     chunks [] ;;
     toSender senderTab (STREAMING_COMPLETE requestId fullResult))
    (fun _ => toSender senderTab (STREAMING_ERROR requestId retryMessage)).

(** The handler from the comparison of the languages on. *)
Definition respondOrStream (text : jsstring) (actual tgt : tag)
  (requestId : nat) (senderTab : option nat) : Task unit :=
  if JS.eqb (norm actual) (norm tgt)
  then sendResponse (Direct text actual tgt)
  else if negb hasTranslator
  then sendResponse (Failure translatorUnavailableMessage)
  else
    sendResponse (Started requestId) ;;;
    streamTranslation text actual tgt requestId senderTab.

(** [handleStreamingTranslateRequest(message, sender, sendResponse)] *)
Definition handleStreamingTranslateRequest (text : option jsstring)
  (src tgt : tag) (requestId : nat) (senderTab : option nat) : Task unit :=
  attempt
    (if isBlank text then sendResponse (Failure emptyTextMessage)
     else if maxTextLength <? JS.length (textOf text)
     then sendResponse (Failure tooLongMessage)
     else if negb hasTranslator then sendResponse (Failure unsupportedMessage)
     else if tag_eqb src (Some auto) && negb hasLanguageDetector
     then sendResponse (Failure detectorUnavailableMessage)
     else if tag_eqb src (Some auto) then
       detected <- detectLanguage (textOf text) ;;
       match detected with
       | Some d =>
           if JS.truthy d
           then respondOrStream (textOf text) (Some d) tgt requestId senderTab
           else sendResponse (Failure detectionFailedMessage)
       | None => sendResponse (Failure detectionFailedMessage)
       end
     else respondOrStream (textOf text) src tgt requestId senderTab)
    (fun error => sendResponse (Failure (errorMessageFor (messageOf error)))).

(** A worker that has handled nothing yet. *)
Definition freshWorker (st : state) : worker := mkWorker st [] [].

End Service.

End BackgroundService.

(** ** Translation history ([handleGetHistory], [handleAddHistory],
       [handleClearHistory])

    [chrome.storage.local] is reduced to the key [translationHistory].  A
    call to the storage area may reject; whether the calls of a handler do,
    and with which message, is a parameter of the handler. *)

Module History.
Import TranslationCore.

Section Items.
Variable Item : Type.

(** [translationHistory] in [chrome.storage.local]; [None] when not set. *)
Definition store : Type := option (list Item).

Inductive reply : Type :=
| Failure (error : jsstring)     (* {success: false, error: error.message} *)
| Done                           (* {success: true} *)
| Data (data : list Item).       (* {success: true, data} *)

(** [arr.slice(start)] *)
Definition slice (start : Z) (l : list Item) : list Item :=
  let len := Z.of_nat (List.length l) in
  let k := if (start <? 0)%Z then Z.max (len + start) 0 else Z.min start len in
  skipn (Z.to_nat k) l.

(** [arr.splice(start)] with [0 <= start]: what is left in [arr]. *)
Definition splice (start : nat) (l : list Item) : list Item := firstn start l.

(** [result.translationHistory || []] *)
Definition orEmpty (s : store) : list Item :=
  match s with Some h => h | None => [] end.

(** [handleGetHistory(sendResponse)] *)
Definition handleGetHistory (getFails : option jsstring) (s : store)
  : reply * store :=
  match getFails with
  | Some message => (Failure message, s)
  | None => (Data (slice (-100) (orEmpty s)), s)
  end.

(** [handleAddHistory(item, sendResponse)] *)
Definition handleAddHistory (getFails setFails : option jsstring)
  (item : Item) (s : store) : reply * store :=
  match getFails with
  | Some message => (Failure message, s)
  | None =>
      let history := item :: orEmpty s in
      let history := if 1000 <? List.length history
                     then splice 1000 history else history in
      match setFails with
      | Some message => (Failure message, s)
      | None => (Done, Some history)
      end
  end.

(** [handleClearHistory(sendResponse)] *)
Definition handleClearHistory (setFails : option jsstring) (s : store)
  : reply * store :=
  match setFails with
  | Some message => (Failure message, s)
  | None => (Done, Some [])
  end.

(** The history messages, each with the outcome of its storage calls. *)
Inductive request : Type :=
| GET_HISTORY (getFails : option jsstring)
| ADD_HISTORY (getFails setFails : option jsstring) (item : Item)
| CLEAR_HISTORY (setFails : option jsstring).

Definition handle (r : request) (s : store) : reply * store :=
  match r with
  | GET_HISTORY g => handleGetHistory g s
  | ADD_HISTORY g f item => handleAddHistory g f item s
  | CLEAR_HISTORY f => handleClearHistory f s
  end.

(** The store after the requests have been handled, one after the other. *)
Definition after (requests : list request) (s : store) : store :=
  fold_left (fun s r => snd (handle r s)) requests s.

End Items.

End History.
(** ** The selection popup ([showTranslationPopup]) *)

Module SelectionPopup.
Import Normalizer Dom ContentTranslator JSText.

(* '语言检测失败，请升级浏览器' *)
Definition detectorErrorMessage : jsstring :=
  [35821; 35328; 26816; 27979; 22833; 36133; 65292; 35831; 21319; 32423;
   27983; 35272; 22120]%N.
(* '翻译功能不可用，请升级浏览器' *)
Definition translatorErrorMessage : jsstring :=
  [32763; 35793; 21151; 33021; 19981; 21487; 29992; 65292; 35831; 21319;
   32423; 27983; 35272; 22120]%N.
(* '翻译失败' *)
Definition failedMessage : jsstring := [32763; 35793; 22833; 36133]%N.
(* '翻译失败: ' *)
Definition failedPrefix : jsstring := failedMessage ++ [58; 32]%N.

(** The element [#chrome-ai-translator-popup]: where it is put, and which of
    its three lines under the original text are displayed. *)
Record Popup : Type := mkPopup {
  originalText : jsstring;
  popupLeft : Q;
  popupTop : Q;
  loading : bool;                       (* .translation-loading *)
  translatedText : option jsstring;     (* .translated-text, when displayed *)
  errorText : option jsstring           (* .translation-error, when displayed *)
}.

(** The argument of [updateTranslationPopup]: [{success, result, error}]. *)
Record PopupResult : Type := mkPopupResult {
  succeeded : bool;
  shownResult : option jsstring;
  shownError : option jsstring
}.

Definition popupWidth : Q := 320%Q.
Definition popupHeight : Q := 150%Q.

Definition popupLeftAt (vp : Viewport) (position : Position) : Q :=
  let left := (px position - popupWidth / 2)%Q in
  if Qltb left margin then margin
  else if Qltb (innerWidth vp - margin)%Q (left + popupWidth)%Q
       then (innerWidth vp - popupWidth - margin)%Q
       else left.

Definition popupTopAt (vp : Viewport) (position : Position) : Q :=
  let top := (py position - popupHeight - 10)%Q in
  if Qltb top margin then
    let top := (py position + pheight position + 10)%Q in
    if Qltb (innerHeight vp - margin)%Q (top + popupHeight)%Q
    then Qmaxb margin (innerHeight vp - popupHeight - margin)%Q
    else top
  else top.

(** [updateTranslationPopup(popup, result)] on a popup that is attached. *)
Definition updateTranslationPopup (p : Popup) (r : PopupResult) : Popup :=
  match succeeded r, shownResult r with
  | true, Some t =>
      if JS.truthy t
      then mkPopup (originalText p) (popupLeft p) (popupTop p) false
             (Some t) None
      else mkPopup (originalText p) (popupLeft p) (popupTop p) false None
             (Some (match shownError r with
                    | Some e => if JS.truthy e then e else failedMessage
                    | None => failedMessage
                    end))
  | _, _ =>
      mkPopup (originalText p) (popupLeft p) (popupTop p) false None
        (Some (match shownError r with
               | Some e => if JS.truthy e then e else failedMessage
               | None => failedMessage
               end))
  end.

Section Session.
Context {bg : Background}.

(** [createTranslationPopup(selectedText, position, isLoading)] *)
Definition createTranslationPopup (selectedText : jsstring)
  (position : Position) (isLoading : bool) (s : session) : Popup * session :=
  let vp := viewport (document s) in
  (mkPopup selectedText (popupLeftAt vp position) (popupTopAt vp position)
     isLoading None None,
   setOverlay (fun o => mkOverlay (icon o) true (progress o)) s).

(** The message of the [catch] block of [showTranslationPopup]. *)
Definition popupErrorFor (message : jsstring) : jsstring :=
  if includes (JS.lit "LanguageDetector") message then detectorErrorMessage
  else if includes (JS.lit "Translator") message then translatorErrorMessage
  else failedPrefix ++ message.

(** [showTranslationPopup(selectedText, position)]; nothing else is taken to
    run while it waits for the reply. *)
Definition showTranslationPopup (selectedText : jsstring)
  (position : Position) (s : session) : Popup * session :=
  let s := hideOverlay s in
  let (reply, s) :=
    translateText selectedText (Some auto)
      (targetLanguage (languagePreferences s)) s in
  let (popup, s) := createTranslationPopup selectedText position false s in
  match reply with
  | Resolved result =>
      (updateTranslationPopup popup (mkPopupResult true result None), s)
  | Rejected message =>
      (updateTranslationPopup popup
         (mkPopupResult false None (Some (popupErrorFor message))), s)
  end.

End Session.

End SelectionPopup.

(** ** The content script and the service worker together

    The content script of a tab talks to the service worker through
    [chrome.runtime.sendMessage]: its TRANSLATE_TEXT messages are handled by
    [handleTranslateRequest], and the callback of [translateText] settles
    the promise from the reply. *)

Module Extension.
Import Normalizer TranslationCore ContentTranslator BackgroundService.

(* what Chrome reports when the port closes with no reply *)
Definition portClosedMessage : jsstring :=
  JS.lit "The message port closed before a response was received.".

(** The callback of [translateText] on the replies given to one message:
    [resolve({result: response.result, ...})] when [response.success],
    [reject(new Error(response.error))] otherwise. *)
Definition settle (answers : list reply) : response :=
  match answers with
  | [] => Rejected portClosedMessage
  | Failure e :: _ => Rejected e
  | Success r _ _ :: _ => Resolved (Some r)
  | Direct r _ _ :: _ => Resolved (Some r)
  | Started _ :: _ => Resolved None
  end.

(** The messages a TRANSLATE_TEXT request can be refused with. *)
Definition refusals : list jsstring :=
  [emptyTextMessage; tooLongMessage; unsupportedMessage; languagePairMessage;
   modelMessage; networkMessage; retryMessage].

(** The service worker as the background of a content script. *)
Definition workerBackground {host : Host} : Background := {|
  B := worker;
  sendTranslateText := fun text src tgt w =>
    let w' := snd (handleTranslateRequest (Some text) src tgt w) in
    (settle (skipn (List.length (responses w)) (responses w')), w')
|}.

End Extension.

(** ** What a streamed translation looks like to the tab *)

Module Streaming.
Import BackgroundService.

(** [Streamed requestId acc chunks final]: the messages [chunks] are
    STREAMING_CHUNK messages of the request; each carries its chunk and the
    text streamed so far, which starts from [acc] and ends as [final]; the
    last one, and only the last one, is flagged complete. *)
Inductive Streamed (requestId : nat)
  : jsstring -> list tabMessage -> jsstring -> Prop :=
| StreamedLast acc chunk :
    Streamed requestId acc
      [STREAMING_CHUNK requestId chunk (acc ++ chunk) true] (acc ++ chunk)
| StreamedMore acc chunk rest final :
    rest <> [] ->
    Streamed requestId (acc ++ chunk) rest final ->
    Streamed requestId acc
      (STREAMING_CHUNK requestId chunk (acc ++ chunk) false :: rest) final.

(** The chunk of a STREAMING_CHUNK message. *)
Definition chunkOf (m : tabMessage) : jsstring :=
  match m with
  | STREAMING_CHUNK _ chunk _ _ => chunk
  | _ => []
  end.

End Streaming.

(** ** Requests for a translator *)

Module EngineCalls.
Import TranslationCore.

(** The calls that ask the host for a new translator. *)
Definition isTranslatorCreate (c : call) : bool :=
  match c with
  | TranslatorCreate _ _ => true
  | _ => false
  end.

End EngineCalls.

(** ** Fragments and the replies to their requests *)

Module Replies.
Import Normalizer Dom ContentTranslator.

Section WithBackground.
Context {bg : Background}.

(** The replies of the background to the requests for [texts], sent one
    after the other from the state [b]. *)
Fixpoint repliesTo (src tgt : tag) (texts : list jsstring) (b : B)
  : list response :=
  match texts with
  | [] => []
  | text :: rest =>
      let (reply, b') := sendTranslateText text src tgt b in
      reply :: repliesTo src tgt rest b'
  end.

(** The nodes [translateNewlyVisibleContent] works on. *)
Definition newlyVisibleNodes (d : Document) : list TextRef :=
  filter (fun n =>
            let parent := parentElement (ref_id n) (body d) in
            isSome parent
            && isElementInViewport (viewport d) parent
            && negb (match parent with
                     | Some p => isSome (querySelector isAnnotation p)
                     | None => false
                     end))
         (getPageTextNodes d).

End WithBackground.

(** The text a pass sends for a fragment. *)
Definition textOf (n : TextRef) : jsstring := JS.trim (textContent n).

(** What the full sweep attaches to a fragment for a reply. *)
Definition sweepMark (p : TextRef * response) : nat * annotation :=
  (ref_id (fst p), annotationFor (snd p) (textOf (fst p))).

(** What the scroll pass attaches to a fragment for a reply: a translation
    or nothing. *)
Definition scrollMark (p : TextRef * response) : list (nat * annotation) :=
  match snd p with
  | Resolved (Some r) =>
      if JS.truthy r && negb (JS.eqb r (textOf (fst p)))
      then [(ref_id (fst p), Translated r)]
      else []
  | _ => []
  end.

End Replies.

(** ** Language preferences pushed to the content script *)

Module Preferences.
Import Normalizer Dom ContentTranslator.

(** The [preferences] of an UPDATE_LANGUAGE_PREFERENCES message: for each
    key its value, [None] when the object does not have the key. *)
Record PrefsUpdate : Type := mkPrefsUpdate {
  newSourceLanguage : option tag;
  newTargetLanguage : option tag
}.

Section Session.
Context {bg : Background}.

(** [handleLanguagePreferencesUpdate(preferences)]:
    [{...this.languagePreferences, ...preferences}]; a message without
    [preferences] changes nothing. *)
Definition handleLanguagePreferencesUpdate (preferences : option PrefsUpdate)
  (s : session) : session :=
  match preferences with
  | None => s
  | Some u =>
      mkSession (selectedText s) (selectionRange s)
        (mkPrefs
           (match newSourceLanguage u with
            | Some v => v
            | None => sourceLanguage (languagePreferences s)
            end)
           (match newTargetLanguage u with
            | Some v => v
            | None => targetLanguage (languagePreferences s)
            end))
        (isPageTranslated s) (scrollTranslationHandler s) (document s)
        (log s) (backend s)
  end.

End Session.

End Preferences.

(** ** Requests for a detector *)

Module DetectorCalls.
Import TranslationCore.

(** The calls that ask the host for a new language detector. *)
Definition isDetectorCreate (c : call) : bool :=
  match c with
  | DetectorCreate => true
  | _ => false
  end.

Section Core.
Context {host : Host}.

(** How many detectors the core still has to ask for: one as long as none
    is cached. *)
Definition detectorsMissing (s : state) : nat :=
  match detector s with
  | Some _ => 0
  | None => 1
  end.

End Core.

End DetectorCalls.

(** * Properties *)

Module JSProps.

Lemma eqb_eq (a b : jsstring) : JS.eqb a b = true <-> a = b.
Proof.
  unfold JS.eqb. destruct (list_eq_dec N.eq_dec a b); split; congruence.
Qed.

Lemma eqb_refl (a : jsstring) : JS.eqb a a = true.
Proof. now apply eqb_eq. Qed.

Lemma eqb_neq (a b : jsstring) : JS.eqb a b = false <-> a <> b.
Proof.
  unfold JS.eqb. destruct (list_eq_dec N.eq_dec a b); split; congruence.
Qed.

Lemma trimStart_blank (s : jsstring) :
  forallb JS.isWhiteSpace s = true -> JS.trimStart s = [].
Proof.
  induction s as [|c s IH]; simpl; [reflexivity|].
  intros H. apply andb_true_iff in H as [Hc Hs]. now rewrite Hc, IH.
Qed.

(** A text made of white space only (the empty text included) trims to the
    empty string. *)
Lemma trim_blank (s : jsstring) :
  forallb JS.isWhiteSpace s = true -> JS.trim s = [].
Proof.
  intros H. unfold JS.trim. now rewrite (trimStart_blank s H).
Qed.

Lemma trim_nil_truthy (s : jsstring) :
  JS.trim s <> [] -> JS.truthy s = true.
Proof. destruct s; [intros H; now elim H | reflexivity]. Qed.

End JSProps.

Module NormalizerProps.
Import Normalizer.

Lemma split_first (sep : N) (s : jsstring) :
  exists segs, JS.split sep s = prefixBefore sep s :: segs.
Proof.
  induction s as [|c s IH]; simpl.
  - now exists [].
  - destruct (c =? sep)%N.
    + now exists (JS.split sep s).
    + destruct IH as [segs ->]. now exists segs.
Qed.

Lemma first_split (sep : N) (s : jsstring) :
  JS.first (JS.split sep s) = Some (prefixBefore sep s).
Proof. destruct (split_first sep s) as [segs ->]. reflexivity. Qed.


Lemma normalizeLanguage_prefix (l : jsstring) :
  normalizeLanguage (Some l) =
  prefixBefore JS.hyphen
    (JS.replace JS.underscore JS.hyphen (JS.toLowerCase l)).
Proof.
  unfold normalizeLanguage. destruct l as [|c l]; [reflexivity|].
  cbn [JS.truthy negb]. now rewrite first_split.
Qed.

(** The normalized form holds no '-'. *)
Lemma prefixBefore_no_sep (sep : N) (s : jsstring) :
  ~ In sep (prefixBefore sep s).
Proof.
  induction s as [|c s IH]; simpl; [tauto|].
  destruct (c =? sep)%N eqn:E; simpl; [tauto|].
  apply N.eqb_neq in E. intros [H|H]; [congruence | tauto].
Qed.


End NormalizerProps.

Module CoreProps.
Import Normalizer TranslationCore JSProps.

Section WithHost.
Context {host : Host}.

Lemma engineCalls_snoc (t : list call) (c : call) :
  isTranslatorCall c = false -> engineCalls (t ++ [c]) = engineCalls t.
Proof.
  intros H. unfold engineCalls. rewrite filter_app. simpl. rewrite H.
  apply app_nil_r.
Qed.

(** Detection always returns a tag and never reaches the translation
    engine. *)
Lemma detectLanguage_ok (text : jsstring) (s : state) :
  exists d s', detectLanguage text s = (Ok d, s')
               /\ engineCalls (trace s') = engineCalls (trace s).
Proof.
  unfold detectLanguage, try_catch.
  destruct hasLanguageDetector; cbn [negb]; [|now exists en, s].
  unfold bind, getDetector, hostCall, setDetector, ret.
  destruct (detector s) as [d|]; cbn [world trace translator detector].
  - destruct (detector_detect d text (world s)) as [[results|e] w].
    + destruct results as [|[l|] results];
        [|destruct (JS.truthy l)|];
        eexists; eexists; (split; [reflexivity|]);
        cbn [trace]; now rewrite engineCalls_snoc.
    + eexists; eexists; (split; [reflexivity|]);
        cbn [trace]; now rewrite engineCalls_snoc.
  - destruct (LanguageDetector_create (world s)) as [[d|e] w];
      cbn [world trace translator detector].
    + destruct (detector_detect d text w) as [[results|e] w'].
      * destruct results as [|[l|] results];
          [|destruct (JS.truthy l)|];
          eexists; eexists; (split; [reflexivity|]);
          cbn [trace]; now rewrite !engineCalls_snoc.
      * eexists; eexists; (split; [reflexivity|]);
          cbn [trace]; now rewrite !engineCalls_snoc.
    + eexists; eexists; (split; [reflexivity|]);
        cbn [trace]; now rewrite engineCalls_snoc.
Qed.

Lemma smartTranslate_guard (text : jsstring) :
  JS.trim text <> [] ->
  negb (JS.truthy text) || negb (JS.truthy (JS.trim text)) = false.
Proof.
  intros H. rewrite (trim_nil_truthy text H).
  destruct (JS.trim text); [now elim H | reflexivity].
Qed.

(** C10: for every text that is empty or made of white space only,
    [smartTranslate] throws the empty-text error with the state untouched:
    no detection call and no engine call has been made.  So whenever
    [smartTranslate] returns a result, the trimmed text was not empty. *)
Theorem smartTranslate_rejects_blank (text : jsstring) (src tgt : tag)
  (s : state) :
  (forallb JS.isWhiteSpace text = true ->
   smartTranslate text src tgt s = (Throw EmptyText, s))
  /\ (forall r s', smartTranslate text src tgt s = (Ok r, s') ->
                   JS.trim text <> []).
Proof.
  unfold smartTranslate. split.
  - intros H. rewrite (trim_blank text H).
    cbn [JS.truthy negb]. now rewrite orb_true_r.
  - intros r s' Hrun Htrim. rewrite Htrim in Hrun.
    cbn [JS.truthy negb] in Hrun. rewrite orb_true_r in Hrun. discriminate.
Qed.

(** C1 (amended): for every text that is non-empty after trimming, when the
    normalized source (the given one, or the detected one when the source is
    'auto') equals the normalized target, [smartTranslate] returns the text
    unchanged and the translation engine is not called; with a given source
    the state is untouched altogether. *)
Theorem smartTranslate_same_language (text : jsstring) (src tgt : tag)
  (s : state) :
  JS.trim text <> [] ->
  (tag_eqb src (Some auto) = false ->
   normalizeLanguage src = normalizeLanguage tgt ->
   smartTranslate text src tgt s = (Ok (mkResult text src tgt), s))
  /\ (tag_eqb src (Some auto) = true ->
      forall d s1,
        detectLanguage text s = (Ok d, s1) ->
        normalizeLanguage (Some d) = normalizeLanguage tgt ->
        smartTranslate text src tgt s = (Ok (mkResult text (Some d) tgt), s1)
        /\ engineCalls (trace s1) = engineCalls (trace s)).
Proof.
  intros Htext. unfold smartTranslate.
  rewrite (smartTranslate_guard text Htext). unfold resolveSource. split.
  - intros -> Hn. unfold bind, ret. rewrite Hn. now rewrite eqb_refl.
  - intros -> d s1 Hd Hn. unfold bind, ret. rewrite Hd, Hn, eqb_refl.
    split; [reflexivity|].
    destruct (detectLanguage_ok text s) as (d' & s' & Hd' & Hcalls).
    congruence.
Qed.

Lemma afterItem_quiet (onProgress : option callback) (i total : nat)
  (r : TranslationResult) (s : state) :
  quiet onProgress -> fst (afterItem onProgress i total r s) = Ok tt.
Proof.
  intros Hq. unfold afterItem, notify, bind, hostCall, sleep, ret.
  destruct onProgress as [cb|].
  - specialize (Hq (i + 1) total r (world s)).
    destruct (cb (i + 1) total r (world s)) as [o w]. simpl in Hq. subst o.
    now destruct (i <? total - 1).
  - now destruct (i <? total - 1).
Qed.

Lemma batchLoop_sequential (src tgt : tag) (onProgress : option callback)
  (total : nat) (texts : list jsstring) :
  quiet onProgress ->
  forall i acc s,
  exists results s',
    batchLoop src tgt onProgress total i texts acc s = (Ok (acc ++ results), s')
    /\ Sequential src tgt onProgress total i s texts results s'
    /\ List.length results = List.length texts
    /\ map original results = texts.
Proof.
  intros Hq. induction texts as [|text rest IH]; intros i acc s.
  - exists [], s. cbn. rewrite app_nil_r. repeat split. constructor.
  - cbn [batchLoop].
    destruct (smartTranslate text src tgt s) as [[r|e] s1] eqn:Hst.
    + pose proof (afterItem_quiet onProgress i total r s1 Hq) as Hok.
      destruct (afterItem onProgress i total r s1) as [o s2] eqn:Hafter.
      simpl in Hok. subst o.
      destruct (IH (S i)
                  (acc ++ [mkEntry text (result r) (sourceLanguage r)]) s2)
        as (results & s' & Hrun & Hseq & Hlen & Hmap).
      exists (mkEntry text (result r) (sourceLanguage r) :: results), s'.
      rewrite Hrun, <- app_assoc. repeat split.
      * eapply SeqOk; [exact Hst|]. now rewrite Hafter.
      * simpl. now rewrite Hlen.
      * simpl. now rewrite Hmap.
    + destruct (IH (S i) (acc ++ [fallback text src]) s1)
        as (results & s' & Hrun & Hseq & Hlen & Hmap).
      exists (fallback text src :: results), s'.
      rewrite Hrun, <- app_assoc. repeat split.
      * eapply SeqFail; [exact Hst | exact Hseq].
      * simpl. now rewrite Hlen.
      * simpl. now rewrite Hmap.
Qed.

(** C6: for every list of texts (and a progress callback that does not
    throw), [batchTranslate] returns normally with one entry per text, in the
    order of the texts; the entries are those of the sequential application
    of [smartTranslate]: an item whose translation throws has its translated
    field equal to its original text and the items after it are translated
    all the same. *)
Theorem batchTranslate_sequential (texts : list jsstring) (src tgt : tag)
  (onProgress : option callback) (s : state) :
  quiet onProgress ->
  exists results s',
    batchTranslate texts src tgt onProgress s = (Ok results, s')
    /\ Sequential src tgt onProgress (List.length texts) 0 s texts results s'
    /\ List.length results = List.length texts
    /\ map original results = texts.
Proof.
  intros Hq. unfold batchTranslate.
  destruct (batchLoop_sequential src tgt onProgress (List.length texts) texts
              Hq 0 [] s)
    as (results & s' & Hrun & H).
  now exists results, s'.
Qed.

End WithHost.

(** C1, the claim as stated fails: the text " " is not empty and source and
    target are the same language, yet [smartTranslate] throws instead of
    returning the text. *)
Lemma smartTranslate_whitespace_text_throws :
  JS.lit " " <> []
  /\ normalizeLanguage (Some en) = normalizeLanguage (Some en)
  /\ smartTranslate (host := exampleHost) (JS.lit " ") (Some en) (Some en)
       freshCore = (Throw EmptyText, freshCore)
  /\ smartTranslate (host := exampleHost) (JS.lit " ") (Some en) (Some en)
       freshCore <> (Ok (mkResult (JS.lit " ") (Some en) (Some en)), freshCore).
Proof.
  repeat split; try reflexivity; vm_compute; discriminate.
Qed.

Lemma smartTranslate_same_language_witness :
  JS.trim (JS.lit "hello") <> []
  /\ smartTranslate (host := exampleHost) (JS.lit "hello")
       (Some (JS.lit "en-US")) (Some (JS.lit "en_GB")) freshCore
     = (Ok (mkResult (JS.lit "hello") (Some (JS.lit "en-US"))
              (Some (JS.lit "en_GB"))), freshCore)
  /\ fst (smartTranslate (host := exampleHost) (JS.lit "hello")
            (Some auto) (Some (JS.lit "zh-CN")) freshCore)
     = Ok (mkResult (JS.lit "hello") (Some (JS.lit "zh"))
             (Some (JS.lit "zh-CN"))).
Proof.
  assert (Hne : JS.trim (JS.lit "hello") <> []) by (vm_compute; discriminate).
  split; [exact Hne|]. split.
  - destruct (smartTranslate_same_language (host := exampleHost)
                (JS.lit "hello") (Some (JS.lit "en-US"))
                (Some (JS.lit "en_GB")) freshCore Hne) as [Hgiven _].
    apply Hgiven; reflexivity.
  - destruct (smartTranslate_same_language (host := exampleHost)
                (JS.lit "hello") (Some auto) (Some (JS.lit "zh-CN"))
                freshCore Hne) as [_ Hauto].
    destruct (Hauto eq_refl (JS.lit "zh")
                (snd (detectLanguage (host := exampleHost) (JS.lit "hello")
                        freshCore)) eq_refl eq_refl) as [Hrun _].
    now rewrite Hrun.
Defined.

Lemma smartTranslate_rejects_blank_witness :
  forallb JS.isWhiteSpace (JS.lit "  ") = true
  /\ smartTranslate (host := exampleHost) (JS.lit "  ") (Some auto)
       (Some (JS.lit "zh")) freshCore = (Throw EmptyText, freshCore)
  /\ JS.trim (JS.lit " hello ") <> [].
Proof.
  split; [reflexivity|]. split.
  - apply (smartTranslate_rejects_blank (host := exampleHost)); reflexivity.
  - destruct (smartTranslate_rejects_blank (host := exampleHost)
                (JS.lit " hello ") (Some en) (Some (JS.lit "zh")) freshCore)
      as [_ Hok].
    eapply Hok. reflexivity.
Defined.

(** The batch of the specification: the engine throws on "bad" only. *)
Lemma batchTranslate_sequential_witness :
  quiet (host := exampleHost) None
  /\ exists results s',
       batchTranslate (host := exampleHost)
         [JS.lit "ok"; JS.lit "bad"; JS.lit "ok2"]
         (Some en) (Some (JS.lit "zh")) None freshCore = (Ok results, s')
       /\ Sequential (host := exampleHost) (Some en) (Some (JS.lit "zh")) None
            3 0 freshCore [JS.lit "ok"; JS.lit "bad"; JS.lit "ok2"] results s'
       /\ List.length results = 3
       /\ map original results = [JS.lit "ok"; JS.lit "bad"; JS.lit "ok2"].
Proof.
  split; [exact I|].
  apply (batchTranslate_sequential (host := exampleHost)
           [JS.lit "ok"; JS.lit "bad"; JS.lit "ok2"]
           (Some en) (Some (JS.lit "zh")) None freshCore).
  exact I.
Defined.

Example batchTranslate_isolates_bad :
  fst (batchTranslate (host := exampleHost)
         [JS.lit "ok"; JS.lit "bad"; JS.lit "ok2"]
         (Some en) (Some (JS.lit "zh")) None freshCore)
  = Ok [mkEntry (JS.lit "ok") (JS.lit "T:ok") (Some en);
        mkEntry (JS.lit "bad") (JS.lit "bad") (Some en);
        mkEntry (JS.lit "ok2") (JS.lit "T:ok2") (Some en)].
Proof. reflexivity. Qed.

(** Why the callback must not throw: the entry of the item is pushed before
    the callback runs, and the [catch] block pushes a second one. *)
Example batchTranslate_throwing_callback :
  fst (batchTranslate (host := exampleHost) [JS.lit "ok"]
         (Some en) (Some (JS.lit "zh"))
         (Some (fun _ _ _ w => (Throw (HostFailure (JS.lit "callback")), w)))
         freshCore)
  = Ok [mkEntry (JS.lit "ok") (JS.lit "T:ok") (Some en);
        mkEntry (JS.lit "ok") (JS.lit "ok") (Some en)].
Proof. reflexivity. Qed.

End CoreProps.

Module DomProps.
Import Dom.

(** Induction on the page tree: a property of every child gives the property
    of the element. *)
Lemma node_induction (P : node -> Prop) :
  (forall i d, P (Text i d)) ->
  (forall i t d cl r cs, Forall P cs -> P (Elem i t d cl r cs)) ->
  forall n, P n.
Proof.
  intros HT HE. fix IH 1. intros [i d | i t d cl r cs].
  - apply HT.
  - apply HE. induction cs as [|c cs IHcs]; constructor.
    + apply IH.
    + exact IHcs.
Qed.

(** Every text node the walker yields was accepted by the filter, with some
    chain of ancestors. *)
Lemma walkText_accepted (accept : list node -> jsstring -> bool) (n : node) :
  forall chain ref,
    In ref (walkText accept chain n) ->
    exists chain', accept chain' (textContent ref) = true.
Proof.
  induction n as [i d | i t d cl r cs IH] using node_induction;
    intros chain ref Hin.
  - cbn in Hin. destruct (accept chain d) eqn:Hacc; [|contradiction].
    destruct Hin as [<- | []]. now exists chain.
  - cbn [walkText] in Hin. apply in_flat_map in Hin as (c & Hc & Hin).
    rewrite Forall_forall in IH. exact (IH c Hc _ _ Hin).
Qed.

(** *** Children lists: what removal, update and insertion keep *)

Section ChildListFacts.
Variable sel : node -> bool.
Variable f : node -> bool.

Lemma existsb_removeAllIn (all : node -> node) (cs : list node) :
  (forall x, In x cs -> sel x = true -> f x = false) ->
  (forall x, In x cs -> f (all x) = f x) ->
  existsb f (removeAllIn sel all cs) = existsb f cs.
Proof.
  induction cs as [|x cs IH]; intros Hsel Hall; [reflexivity|].
  cbn [removeAllIn existsb].
  assert (IH' : existsb f (removeAllIn sel all cs) = existsb f cs)
    by (apply IH; intros y Hy; [apply Hsel | apply Hall]; now right).
  destruct (sel x) eqn:Hx.
  - rewrite (Hsel x (or_introl eq_refl) Hx). exact IH'.
  - cbn [existsb]. now rewrite (Hall x (or_introl eq_refl)), IH'.
Qed.

Lemma existsb_removeFirstIn (below : node -> option node) (cs : list node) :
  (forall x, In x cs -> sel x = true -> f x = false) ->
  (forall x x', In x cs -> below x = Some x' -> f x' = f x) ->
  forall cs', removeFirstIn sel below cs = Some cs' ->
              existsb f cs' = existsb f cs.
Proof.
  induction cs as [|x cs IH]; intros Hsel Hbelow cs' Hrm; [discriminate|].
  cbn [removeFirstIn] in Hrm. cbn [existsb].
  destruct (sel x) eqn:Hx.
  - inversion Hrm; subst cs'. now rewrite (Hsel x (or_introl eq_refl) Hx).
  - destruct (below x) as [x'|] eqn:Hbx.
    + inversion Hrm; subst cs'. cbn [existsb].
      now rewrite (Hbelow x x' (or_introl eq_refl) Hbx).
    + destruct (removeFirstIn sel below cs) as [cs''|] eqn:Hrest;
        [|discriminate].
      inversion Hrm; subst cs'. cbn [existsb]. f_equal.
      apply IH; [| |reflexivity].
      * intros y Hy. apply Hsel. now right.
      * intros y y' Hy. apply Hbelow. now right.
Qed.

Lemma existsb_updateFirst (below : node -> option node) (cs : list node) :
  (forall x x', In x cs -> below x = Some x' -> f x' = f x) ->
  forall cs', updateFirst below cs = Some cs' -> existsb f cs' = existsb f cs.
Proof.
  induction cs as [|x cs IH]; intros Hbelow cs' Hup; [discriminate|].
  cbn [updateFirst] in Hup. cbn [existsb].
  destruct (below x) as [x'|] eqn:Hbx.
  - inversion Hup; subst cs'. cbn [existsb].
    now rewrite (Hbelow x x' (or_introl eq_refl) Hbx).
  - destruct (updateFirst below cs) as [cs''|] eqn:Hrest; [|discriminate].
    inversion Hup; subst cs'. cbn [existsb]. f_equal.
    apply IH; [|reflexivity]. intros y y' Hy. apply Hbelow. now right.
Qed.

Lemma existsb_insertAfter (tid : nat) (e : node) (cs : list node) :
  f e = false -> existsb f (insertAfter tid e cs) = existsb f cs.
Proof.
  intros He. induction cs as [|x cs IH]; [reflexivity|].
  cbn [insertAfter]. destruct (isTextNode tid x); cbn [existsb].
  - now rewrite He.
  - now rewrite IH.
Qed.

End ChildListFacts.

Lemma updateFirst_some (below : node -> option node) (cs : list node) :
  (exists x, In x cs /\ below x <> None) -> updateFirst below cs <> None.
Proof.
  induction cs as [|x cs IH]; intros (y & Hy & Hsome); [contradiction|].
  cbn [updateFirst]. destruct (below x) as [x'|] eqn:Hbx; [discriminate|].
  destruct Hy as [->|Hy]; [contradiction|].
  destruct (updateFirst below cs) eqn:Hrest; [discriminate|].
  exfalso. apply IH; [|reflexivity]. now exists y.
Qed.

(** *** Text nodes outside the elements of a class *)

Section Plain.
Variable c : jsstring.
Variable tid : nat.

Lemma hasClass_not_plain (n : node) :
  hasClass c n = true ->
  isTextNode tid n = false /\ plainText (hasClass c) tid n = false.
Proof.
  destruct n as [i d | i t d cl r cs]; cbn; [discriminate|].
  intros ->. now split.
Qed.

Lemma removeAll_isTextNode (n : node) :
  isTextNode tid (removeAll (hasClass c) n) = isTextNode tid n.
Proof. now destruct n. Qed.

(** Removing every element of the class keeps the text nodes outside. *)
Lemma plainText_removeAll (n : node) :
  plainText (hasClass c) tid (removeAll (hasClass c) n)
  = plainText (hasClass c) tid n.
Proof.
  induction n as [i d | i t d cl r cs IH] using node_induction;
    [reflexivity|].
  rewrite Forall_forall in IH.
  cbn [removeAll plainText]. f_equal. f_equal.
  - apply existsb_removeAllIn.
    + intros x _ Hx. now apply hasClass_not_plain.
    + intros x _. apply removeAll_isTextNode.
  - apply existsb_removeAllIn.
    + intros x _ Hx. now apply hasClass_not_plain.
    + exact IH.
Qed.

(** So does removing the first one. *)
Lemma plainText_removeFirst (n : node) :
  forall n', removeFirst (hasClass c) n = Some n' ->
             plainText (hasClass c) tid n' = plainText (hasClass c) tid n
             /\ isTextNode tid n' = isTextNode tid n.
Proof.
  induction n as [i d | i t d cl r cs IH] using node_induction;
    intros n' Hrm; [discriminate|].
  rewrite Forall_forall in IH. cbn [removeFirst] in Hrm.
  destruct (removeFirstIn (hasClass c) (removeFirst (hasClass c)) cs)
    as [cs'|] eqn:Hcs; [|discriminate].
  inversion Hrm; subst n'. split; [|reflexivity].
  cbn [plainText]. f_equal. f_equal.
  - apply (existsb_removeFirstIn (hasClass c) (isTextNode tid)
             (removeFirst (hasClass c)) cs); [| |exact Hcs].
    + intros x _ Hx. now apply hasClass_not_plain.
    + intros x x' Hin Hx. now apply (IH x Hin x').
  - apply (existsb_removeFirstIn (hasClass c) (plainText (hasClass c) tid)
             (removeFirst (hasClass c)) cs); [| |exact Hcs].
    + intros x _ Hx. now apply hasClass_not_plain.
    + intros x x' Hin Hx. now apply (IH x Hin x').
Qed.

(** After every element of the class is removed, none is left. *)
Lemma selectAll_removeAll (n : node) :
  hasClass c n = false ->
  selectAll (hasClass c) (removeAll (hasClass c) n) = [].
Proof.
  induction n as [i d | i t d cl r cs IH] using node_induction; intros Hn.
  - reflexivity.
  - cbn [removeAll selectAll].
    change (hasClass c (Elem i t d cl r
                          (removeAllIn (hasClass c) (removeAll (hasClass c)) cs)))
      with (hasClass c (Elem i t d cl r cs)).
    rewrite Hn. cbn [app]. clear Hn.
    induction cs as [|x cs IHcs]; [reflexivity|].
    inversion IH as [|? ? Hx Hcs]; subst. cbn [removeAllIn].
    destruct (hasClass c x) eqn:Hsel; [now apply IHcs|].
    cbn [flat_map]. rewrite (Hx eq_refl). now apply IHcs.
Qed.

(** A text node outside the class has a parent that [updateParent] finds. *)
Lemma updateParent_plain (update : node -> node) (n : node) :
  plainText (hasClass c) tid n = true ->
  updateParent tid update n <> None.
Proof.
  induction n as [i d | i t d cl r cs IH] using node_induction;
    intros Hplain; [discriminate|].
  rewrite Forall_forall in IH. cbn [plainText] in Hplain.
  cbn [updateParent].
  destruct (existsb (isTextNode tid) cs); [discriminate|].
  apply andb_true_iff in Hplain as [_ Hplain]. cbn [orb] in Hplain.
  apply existsb_exists in Hplain as (x & Hin & Hx).
  assert (Hsome : updateFirst (updateParent tid update) cs <> None).
  { apply updateFirst_some. exists x. split; [exact Hin|]. now apply IH. }
  destruct (updateFirst (updateParent tid update) cs); [discriminate|].
  now elim Hsome.
Qed.

End Plain.

End DomProps.

Module PageProps.
Import Normalizer Dom ContentTranslator JSProps DomProps.

Lemma acceptNode_qualifies (chain : list node) (data : jsstring) :
  acceptNode chain data = true -> qualifies (JS.trim data) = true.
Proof.
  unfold acceptNode, qualifies. destruct chain as [|parent chain]; [discriminate|].
  destruct (existsb _ nonContentTags); [discriminate|].
  destruct (_ || _ || _ || _ || _); [discriminate|].
  destruct ((JS.length (JS.trim data) =? 0)
            || (500 <? JS.length (JS.trim data))) eqn:Hlen; [discriminate|].
  intros _. apply orb_false_iff in Hlen as [H0 H500].
  apply Nat.eqb_neq in H0. apply Nat.ltb_ge in H500.
  apply andb_true_iff. split; [apply Nat.ltb_lt | apply Nat.leb_le]; lia.
Qed.

(** Every fragment of a scan has a trimmed text of 1 to 500 code units. *)
Lemma getPageTextNodes_qualify (d : Document) (ref : TextRef) :
  In ref (getPageTextNodes d) ->
  qualifies (JS.trim (textContent ref)) = true.
Proof.
  intros Hin. apply walkText_accepted in Hin as [chain Hacc].
  exact (acceptNode_qualifies _ _ Hacc).
Qed.

Lemma getVisibleTextNodes_qualify (d : Document) (ref : TextRef) :
  In ref (getVisibleTextNodes d) ->
  qualifies (JS.trim (textContent ref)) = true.
Proof.
  intros Hin. apply filter_In in Hin as [Hin _].
  exact (getPageTextNodes_qualify d ref Hin).
Qed.

Lemma visible_all_qualify (d : Document) :
  filter (fun n => qualifies (JS.trim (textContent n))) (getVisibleTextNodes d)
  = getVisibleTextNodes d.
Proof.
  apply forallb_filter_id, forallb_forall. intros ref Hin.
  exact (getVisibleTextNodes_qualify d ref Hin).
Qed.

Lemma visible_texts_length (d : Document) :
  List.length
    (filter qualifies
       (map (fun n => JS.trim (textContent n)) (getVisibleTextNodes d)))
  = List.length (getVisibleTextNodes d).
Proof.
  rewrite forallb_filter_id; [apply length_map|].
  apply forallb_forall.
  intros text Hin. apply in_map_iff in Hin as (ref & <- & Hin).
  exact (getVisibleTextNodes_qualify d ref Hin).
Qed.

Section WithBackground.
Context {bg : Background}.

(** The icon sits 16px left of the horizontal middle of the selection when
    that leaves the margins free, and stays inside the margins of any
    viewport that is at least 52px wide. *)
Lemma iconLeftAt_centred (vp : Viewport) (position : Position) :
  (margin <= px position - 16)%Q ->
  (px position + 16 <= innerWidth vp - margin)%Q ->
  (iconLeftAt vp position == px position - 16)%Q.
Proof.
  intros Hl Hr. unfold iconLeftAt, Qltb, iconSize, margin in *.
  assert (Hhalf : (32 / 2 == 16)%Q) by reflexivity.
  destruct (Qle_bool 10 (px position - 32 / 2)) eqn:H1; cbn [negb].
  - destruct (Qle_bool (px position - 32 / 2 + 32) (innerWidth vp - 10)) eqn:H2;
      cbn [negb].
    + lra.
    + exfalso. apply not_true_iff_false in H2. apply H2.
      apply Qle_bool_iff. lra.
  - exfalso. apply not_true_iff_false in H1. apply H1. apply Qle_bool_iff. lra.
Qed.


Lemma effects_inv (s : session) (b : B) (q : list Request)
  (a : list (nat * annotation)) (d : list nat) :
  effects s = (b, q, a, d) ->
  backend s = b /\ requests (log s) = q /\ attached (log s) = a
  /\ delays (log s) = d.
Proof. unfold effects. intros H. inversion H. repeat split. Qed.

Lemma isAnnotation_translationElement (fresh : nat) (a : annotation) :
  isAnnotation (translationElement fresh a) = true.
Proof. reflexivity. Qed.

Lemma plainText_attach (m tid : nat) (e parent : node) :
  isAnnotation e = true ->
  plainText isAnnotation m (attach tid e parent)
  = plainText isAnnotation m parent
  /\ isTextNode m (attach tid e parent) = isTextNode m parent.
Proof.
  intros He. unfold attach, isAnnotation in *.
  destruct (hasClass_not_plain annotationClass m e He) as [Het Hep].
  destruct parent as [i d | i t d cl r cs].
  - now split.
  - cbn [removeFirst].
    destruct (removeFirstIn (hasClass annotationClass)
                (removeFirst (hasClass annotationClass)) cs)
      as [cs'|] eqn:Hcs.
    + destruct (plainText_removeFirst annotationClass m
                  (Elem i t d cl r cs) (Elem i t d cl r cs')) as [<- _].
      { cbn [removeFirst]. now rewrite Hcs. }
      split; [|reflexivity].
      cbn [withChildren children plainText]. f_equal.
      now rewrite !existsb_insertAfter.
    + split; [|reflexivity].
      cbn [withChildren children plainText]. f_equal.
      now rewrite !existsb_insertAfter.
Qed.

Lemma plainText_updateParent (m tid : nat) (e : node) (n : node) :
  isAnnotation e = true ->
  forall n', updateParent tid (attach tid e) n = Some n' ->
             plainText isAnnotation m n' = plainText isAnnotation m n
             /\ isTextNode m n' = isTextNode m n.
Proof.
  intros He.
  induction n as [i d | i t d cl r cs IH] using node_induction;
    intros n' Hup; [discriminate|].
  rewrite Forall_forall in IH. cbn [updateParent] in Hup.
  destruct (existsb (isTextNode tid) cs).
  - inversion Hup; subst n'. now apply plainText_attach.
  - destruct (updateFirst (updateParent tid (attach tid e)) cs)
      as [cs'|] eqn:Hcs; [|discriminate].
    inversion Hup; subst n'. split; [|reflexivity].
    cbn [plainText]. f_equal. f_equal.
    + apply (existsb_updateFirst (isTextNode m)
               (updateParent tid (attach tid e)) cs); [|exact Hcs].
      intros x x' Hin Hx. now apply (IH x Hin x').
    + apply (existsb_updateFirst (plainText isAnnotation m)
               (updateParent tid (attach tid e)) cs); [|exact Hcs].
      intros x x' Hin Hx. now apply (IH x Hin x').
Qed.

(** Every fragment of a scan lies outside the annotation markers. *)
Lemma walkText_outside (n : node) :
  forall chain ref,
    In ref (walkText acceptNode chain n) ->
    closest isAnnotation chain = None
    /\ match n with
       | Elem _ _ _ _ _ _ => plainText isAnnotation (ref_id ref) n = true
       | Text i _ => ref_id ref = i
       end.
Proof.
  induction n as [i d | i t d cl r cs IH] using node_induction;
    intros chain ref Hin.
  - cbn [walkText] in Hin.
    destruct (acceptNode chain d) eqn:Hacc; [|contradiction].
    destruct Hin as [<- | []]. split; [|reflexivity].
    unfold acceptNode in Hacc. destruct chain as [|parent chain];
      [discriminate|].
    destruct (existsb _ nonContentTags); [discriminate|].
    destruct (closest isAnnotation (parent :: chain)); [|reflexivity].
    cbn [isSome] in Hacc. rewrite !orb_true_r in Hacc. discriminate.
  - rewrite Forall_forall in IH. cbn [walkText] in Hin.
    apply in_flat_map in Hin as (x & Hx & Hin).
    destruct (IH x Hx _ _ Hin) as [Hchain Hplain].
    unfold closest in Hchain |- *. cbn [find] in Hchain.
    destruct (isAnnotation (Elem i t d cl r cs)) eqn:Hn; [discriminate|].
    split; [exact Hchain|].
    cbn [plainText]. rewrite Hn. cbn [negb andb].
    apply orb_true_iff. destruct x as [j dx | j tx dx clx rx csx].
    + left. apply existsb_exists. exists (Text j dx). split; [exact Hx|].
      cbn. rewrite Hplain. apply Nat.eqb_refl.
    + right. apply existsb_exists. now exists (Elem j tx dx clx rx csx).
Qed.

(** Every fragment of a scan is the child of an element that passed the
    filter with it. *)
Lemma walkText_parent (n : node) :
  forall chain ref,
    In ref (walkText acceptNode chain n) ->
    exists parent rest,
      acceptNode (parent :: rest) (textContent ref) = true
      /\ match n with
         | Text i d => chain = parent :: rest /\ ref = mkRef i d
         | Elem _ _ _ _ _ _ =>
             In (Text (ref_id ref) (textContent ref)) (children parent)
         end.
Proof.
  induction n as [i d | i t d cl r cs IH] using node_induction;
    intros chain ref Hin.
  - cbn [walkText] in Hin.
    destruct (acceptNode chain d) eqn:Hacc; [|contradiction].
    destruct Hin as [<- | []].
    destruct chain as [|parent rest]; [discriminate|].
    now exists parent, rest.
  - rewrite Forall_forall in IH. cbn [walkText] in Hin.
    apply in_flat_map in Hin as (x & Hx & Hin).
    destruct (IH x Hx _ _ Hin) as (parent & rest & Hacc & Hshape).
    exists parent, rest. split; [exact Hacc|].
    destruct x as [j dx | j tx dx clx rx csx]; [|exact Hshape].
    destruct Hshape as [Hchain ->]. inversion Hchain; subst parent rest.
    exact Hx.
Qed.

(** A text node whose parent element has an annotation marker below it is
    not selected: every fragment of a scan has a parent with none. *)
Lemma getPageTextNodes_unannotated (d : Document) (ref : TextRef) :
  In ref (getPageTextNodes d) ->
  exists parent,
    In (Text (ref_id ref) (textContent ref)) (children parent)
    /\ querySelector isAnnotation parent = None.
Proof.
  intros Hin. unfold getPageTextNodes in Hin.
  destruct (walkText_parent (body d) [] ref Hin)
    as (parent & rest & Hacc & Hshape).
  exists parent. split.
  - destruct (body d); [|exact Hshape]. destruct Hshape; discriminate.
  - unfold acceptNode in Hacc.
    destruct (existsb _ nonContentTags); [discriminate|].
    destruct (_ || _ || _ || _ || _); [discriminate|].
    destruct (_ || _); [discriminate|].
    destruct (negb _); [discriminate|].
    destruct (querySelector isAnnotation parent); [discriminate|reflexivity].
Qed.

Lemma getPageTextNodes_outside (d : Document) (ref : TextRef) :
  In ref (getPageTextNodes d) -> outsideMarkers d ref = true.
Proof.
  intros Hin. unfold getPageTextNodes in Hin. unfold outsideMarkers.
  destruct (walkText_outside (body d) [] ref Hin) as [_ H].
  destruct (body d); [|exact H].
  cbn in Hin. contradiction.
Qed.

Lemma getVisibleTextNodes_outside (d : Document) (ref : TextRef) :
  In ref (getVisibleTextNodes d) -> outsideMarkers d ref = true.
Proof.
  intros Hin. apply filter_In in Hin as [Hin _].
  exact (getPageTextNodes_outside d ref Hin).
Qed.

(** A fragment outside the markers gets its marker attached; the fragments
    outside the markers stay so. *)
Lemma appendTranslationToNode_effects (n : TextRef) (a : annotation)
  (s : session) :
  outsideMarkers (document s) n = true ->
  effects (appendTranslationToNode n a s)
  = (backend s, requests (log s), attached (log s) ++ [(ref_id n, a)],
     delays (log s)).
Proof.
  intros Hout. unfold appendTranslationToNode. cbv zeta.
  pose proof (updateParent_plain annotationClass (ref_id n)
                (attach (ref_id n)
                   (translationElement (nextId (document s)) a))
                (body (document s)) Hout) as Hsome.
  destruct (updateParent _ _ _); [reflexivity | now elim Hsome].
Qed.

Lemma appendTranslationToNode_outside (n m : TextRef) (a : annotation)
  (s : session) :
  outsideMarkers (document (appendTranslationToNode n a s)) m
  = outsideMarkers (document s) m.
Proof.
  unfold appendTranslationToNode, outsideMarkers. cbv zeta.
  destruct (updateParent (ref_id n) _ (body (document s))) as [body'|] eqn:Hup;
    [|reflexivity].
  cbn [document setDocument setLog body].
  apply (plainText_updateParent (ref_id m) (ref_id n) _ (body (document s))
           (isAnnotation_translationElement _ a) body' Hup).
Qed.

Lemma handleCancelTranslatePage_outside (m : TextRef) (s : session) :
  outsideMarkers (document (handleCancelTranslatePage s)) m
  = outsideMarkers (document s) m.
Proof. unfold outsideMarkers. cbn. apply plainText_removeAll. Qed.

(** Cancelling leaves no annotation marker on the page (the body itself is
    not one), flags the page untranslated and drops the scroll listener. *)
Lemma handleCancelTranslatePage_clears (s : session) :
  isAnnotation (body (document s)) = false ->
  annotationsOn (handleCancelTranslatePage s) = []
  /\ isPageTranslated (handleCancelTranslatePage s) = false
  /\ scrollTranslationHandler (handleCancelTranslatePage s) = None.
Proof.
  intros Hbody. repeat split.
  unfold annotationsOn. cbn. now apply selectAll_removeAll.
Qed.

Lemma translateText_effects (text : jsstring) (src tgt : tag) (s : session) :
  fst (translateText text src tgt s)
  = fst (sendTranslateText text src tgt (backend s))
  /\ effects (snd (translateText text src tgt s))
     = (snd (sendTranslateText text src tgt (backend s)),
        requests (log s) ++ [mkRequest text src tgt],
        attached (log s), delays (log s))
  /\ document (snd (translateText text src tgt s)) = document s.
Proof.
  unfold translateText.
  destruct (sendTranslateText text src tgt (backend s)) as [r b].
  repeat split.
Qed.

(** One iteration of the loop of the sweep. *)
Lemma sweepLoop_cons (cancelDuring : nat -> bool) (src tgt : tag)
  (total i : nat) (node : TextRef) (rest : list TextRef) (count : nat)
  (s : session) :
  sweepLoop cancelDuring src tgt total i (node :: rest) count s =
  if qualifies (JS.trim (textContent node)) then
    let sent := translateText (JS.trim (textContent node)) src tgt
                  (updateTranslationProgress (SweepAt (i + 1) total) s) in
    let a := annotationFor (fst sent) (JS.trim (textContent node)) in
    let s2 := if cancelDuring i then handleCancelTranslatePage (snd sent)
              else snd sent in
    let s3 := appendTranslationToNode node a s2 in
    sweepLoop cancelDuring src tgt total (S i) rest
      (if isTranslatedCall (ref_id node, a) then count + 1 else count)
      (if i <? total - 1 then delay 50 s3 else s3)
  else sweepLoop cancelDuring src tgt total (S i) rest count s.
Proof.
  cbn [sweepLoop]. cbv zeta.
  destruct (qualifies (JS.trim (textContent node))); [|reflexivity].
  destruct (translateText (JS.trim (textContent node)) src tgt
              (updateTranslationProgress (SweepAt (i + 1) total) s))
    as [reply s1].
  cbn [fst snd]. destruct reply as [[r|]|m]; cbn [annotationFor].
  - destruct (JS.truthy r && negb (JS.eqb r (JS.trim (textContent node))));
      reflexivity.
  - reflexivity.
  - reflexivity.
Qed.

(** The state after one iteration: what the iteration did, and that the
    fragments outside the markers are still outside. *)
Lemma sweep_step (cancel : bool) (pace : bool) (src tgt : tag)
  (b : banner) (node : TextRef) (text : jsstring) (s : session) :
  outsideMarkers (document s) node = true ->
  let sent := translateText text src tgt (updateTranslationProgress b s) in
  let a := annotationFor (fst sent) text in
  let s3 := appendTranslationToNode node a
              (if cancel then handleCancelTranslatePage (snd sent)
               else snd sent) in
  let s4 := if pace then delay 50 s3 else s3 in
  fst sent = fst (sendTranslateText text src tgt (backend s))
  /\ effects s4
     = (snd (sendTranslateText text src tgt (backend s)),
        requests (log s) ++ [mkRequest text src tgt],
        attached (log s) ++ [(ref_id node, a)],
        if pace then delays (log s) ++ [50] else delays (log s))
  /\ forall m, outsideMarkers (document s4) m = outsideMarkers (document s) m.
Proof.
  intros Hout. cbv zeta.
  destruct (translateText_effects text src tgt (updateTranslationProgress b s))
    as (Hreply & Heff & Hdoc).
  set (sent := translateText text src tgt (updateTranslationProgress b s)) in *.
  set (a := annotationFor (fst sent) text).
  set (s2 := if cancel then handleCancelTranslatePage (snd sent) else snd sent).
  assert (Hout2 : forall m, outsideMarkers (document s2) m
                            = outsideMarkers (document s) m).
  { intros m. subst s2. destruct cancel.
    - now rewrite handleCancelTranslatePage_outside, Hdoc.
    - now rewrite Hdoc. }
  assert (Heff2 : effects s2 = effects (snd sent))
    by (subst s2; now destruct cancel).
  split; [exact Hreply|]. split.
  - pose proof (appendTranslationToNode_effects node a s2) as Happ.
    rewrite Hout2 in Happ. specialize (Happ Hout).
    apply effects_inv in Heff as (Hb & Hq & Ha & Hd).
    apply effects_inv in Heff2 as (Hb2 & Hq2 & Ha2 & Hd2).
    apply effects_inv in Happ as (Hb3 & Hq3 & Ha3 & Hd3).
    cbn [backend log requests attached delays updateTranslationProgress
         setOverlay setDocument] in Hb, Hq, Ha, Hd.
    unfold effects.
    destruct pace; cbn [backend log requests attached delays delay setLog];
      now rewrite Hb3, Hq3, Ha3, Hd3, Hb2, Hq2, Ha2, Hd2, Hb, Hq, Ha, Hd.
  - intros m.
    assert (H3 : outsideMarkers
                   (document (appendTranslationToNode node a s2)) m
                 = outsideMarkers (document s) m)
      by (now rewrite appendTranslationToNode_outside, Hout2).
    destruct pace; exact H3.
Qed.

(** The sweep attaches one marker to every fragment whose text qualifies, in
    order, whatever is cancelled on the way, and counts the markers that
    carry a translation. *)
Lemma sweepLoop_attached (cancelDuring : nat -> bool) (src tgt : tag)
  (total : nat) (nodes : list TextRef) :
  forall i count s,
  (forall node, In node nodes -> outsideMarkers (document s) node = true) ->
  exists marks,
    attached
      (log (snd (sweepLoop cancelDuring src tgt total i nodes count s)))
    = attached (log s) ++ marks
    /\ map fst marks
       = map ref_id
           (filter (fun n => qualifies (JS.trim (textContent n))) nodes)
    /\ fst (sweepLoop cancelDuring src tgt total i nodes count s)
       = count + List.length (filter isTranslatedCall marks).
Proof.
  induction nodes as [|node rest IH]; intros i count s Hout.
  - exists []. cbn. rewrite app_nil_r. repeat split. lia.
  - rewrite sweepLoop_cons. cbn [filter].
    assert (Hrest : forall n, In n rest -> outsideMarkers (document s) n = true)
      by (intros n Hn; apply Hout; now right).
    destruct (qualifies (JS.trim (textContent node))); [|now apply IH].
    cbv zeta.
    destruct (sweep_step (cancelDuring i) (i <? total - 1) src tgt
                (SweepAt (i + 1) total) node (JS.trim (textContent node)) s
                (Hout node (or_introl eq_refl)))
      as (_ & Heff & Hout4).
    cbv zeta in Heff, Hout4.
    set (sent := translateText _ _ _ _) in *.
    set (a := annotationFor _ _) in *.
    set (s4 := if i <? total - 1 then _ else _) in *.
    set (count' := if isTranslatedCall _ then _ else _).
    destruct (IH (S i) count' s4) as (marks & Hmarks & Hids & Hcount).
    { intros n Hn. rewrite Hout4. now apply Hrest. }
    apply effects_inv in Heff as (Hb & Hq & Ha & Hd).
    exists ((ref_id node, a) :: marks). repeat split.
    + rewrite Hmarks, Ha, <- app_assoc. reflexivity.
    + cbn [map fst]. now rewrite Hids.
    + rewrite Hcount. subst count'. cbn [filter].
      destruct (isTranslatedCall (ref_id node, a)); cbn [List.length]; lia.
Qed.


Lemma handleTranslatePage_empty (cancelDuring : nat -> bool) (src tgt : tag)
  (s : session) :
  getVisibleTextNodes (document s) = [] ->
  handleTranslatePage cancelDuring src tgt s
  = (mkPageResult false None (Some NothingVisible),
     showErrorMessage NothingVisible s).
Proof. intros H. unfold handleTranslatePage. now rewrite H. Qed.

(** With at least one visible fragment the loop is run, and the state is set
    from its count. *)
Lemma handleTranslatePage_sweep (cancelDuring : nat -> bool) (src tgt : tag)
  (s : session) :
  getVisibleTextNodes (document s) <> [] ->
  let src' := orTag src (sourceLanguage (languagePreferences s)) in
  let tgt' := orTag tgt (targetLanguage (languagePreferences s)) in
  let visible := getVisibleTextNodes (document s) in
  let swept := sweepLoop cancelDuring src' tgt' (List.length visible) 0
                 visible 0
                 (showTranslationProgress (SweepStarting src' tgt') s) in
  let run := handleTranslatePage cancelDuring src tgt s in
  fst run = mkPageResult (0 <? fst swept) (Some (fst swept)) None
  /\ isPageTranslated (snd run) = (0 <? fst swept)
  /\ effects (snd run) = effects (snd swept).
Proof.
  intros Hne. cbv zeta. unfold handleTranslatePage.
  assert (Hlen : (List.length (getVisibleTextNodes (document s)) =? 0) = false).
  { apply Nat.eqb_neq. intros H0. apply Hne. now apply length_zero_iff_nil. }
  rewrite Hlen. cbv zeta. rewrite visible_texts_length, Hlen.
  destruct (sweepLoop cancelDuring _ _ _ 0 _ 0 _) as [count s1].
  cbn [fst snd]. destruct (0 <? count); repeat split.
Qed.


Lemma sweepLoop_schedules (c1 c2 : nat -> bool) (src tgt : tag) (total : nat)
  (nodes : list TextRef) :
  forall i count s1 s2,
    effects s1 = effects s2 ->
    (forall node, In node nodes -> outsideMarkers (document s1) node = true) ->
    (forall node, In node nodes -> outsideMarkers (document s2) node = true) ->
    fst (sweepLoop c1 src tgt total i nodes count s1)
    = fst (sweepLoop c2 src tgt total i nodes count s2)
    /\ effects (snd (sweepLoop c1 src tgt total i nodes count s1))
       = effects (snd (sweepLoop c2 src tgt total i nodes count s2)).
Proof.
  induction nodes as [|node rest IH]; intros i count s1 s2 Heff Hout1 Hout2.
  - cbn. now split.
  - rewrite !sweepLoop_cons.
    assert (Hrest1 : forall n, In n rest -> outsideMarkers (document s1) n = true)
      by (intros n Hn; apply Hout1; now right).
    assert (Hrest2 : forall n, In n rest -> outsideMarkers (document s2) n = true)
      by (intros n Hn; apply Hout2; now right).
    destruct (qualifies (JS.trim (textContent node))); [|now apply IH].
    cbv zeta.
    destruct (sweep_step (c1 i) (i <? total - 1) src tgt
                (SweepAt (i + 1) total) node (JS.trim (textContent node)) s1
                (Hout1 node (or_introl eq_refl)))
      as (Hr1 & He1 & Ho1).
    destruct (sweep_step (c2 i) (i <? total - 1) src tgt
                (SweepAt (i + 1) total) node (JS.trim (textContent node)) s2
                (Hout2 node (or_introl eq_refl)))
      as (Hr2 & He2 & Ho2).
    cbv zeta in Hr1, He1, Ho1, Hr2, He2, Ho2.
    symmetry in Heff. apply effects_inv in Heff as (Hb & Hq & Ha & Hd).
    assert (Hreply :
      fst (translateText (JS.trim (textContent node)) src tgt
             (updateTranslationProgress (SweepAt (i + 1) total) s1))
      = fst (translateText (JS.trim (textContent node)) src tgt
               (updateTranslationProgress (SweepAt (i + 1) total) s2)))
      by (now rewrite Hr1, Hr2, Hb).
    rewrite Hreply in He1 |- *. apply IH.
    + rewrite He1, He2, Hb, Hq, Ha, Hd. reflexivity.
    + intros n Hn. rewrite <- Hreply, Ho1. now apply Hrest1.
    + intros n Hn. rewrite Ho2. now apply Hrest2.
Qed.

(** C2 (amended): a cancel request handled while a sweep is in flight does
    not stop the loop.  The sweep returns the same result, leaves the same
    state of the background, sends the same requests, attaches the same
    markers with the same pacing and sets the same translated flag as the
    sweep that nothing interrupts; every visible fragment, the one in flight
    and those after it included, gets its marker.  The cancel handler itself
    removes the markers present when it runs, flags the page untranslated
    and drops the scroll listener. *)
Theorem sweep_not_stopped_by_cancel (cancelDuring : nat -> bool)
  (src tgt : tag) (s : session) :
  let run := handleTranslatePage cancelDuring src tgt s in
  let undisturbed := handleTranslatePage (fun _ => false) src tgt s in
  (fst run = fst undisturbed
   /\ effects (snd run) = effects (snd undisturbed)
   /\ isPageTranslated (snd run) = isPageTranslated (snd undisturbed)
   /\ exists marks,
        attached (log (snd run)) = attached (log s) ++ marks
        /\ map fst marks = map ref_id (getVisibleTextNodes (document s)))
  /\ (isAnnotation (body (document s)) = false ->
      annotationsOn (handleCancelTranslatePage s) = []
      /\ isPageTranslated (handleCancelTranslatePage s) = false
      /\ scrollTranslationHandler (handleCancelTranslatePage s) = None).
Proof.
  cbv zeta. split; [|apply handleCancelTranslatePage_clears].
  destruct (getVisibleTextNodes (document s)) as [|n l] eqn:Hvis.
  - rewrite !handleTranslatePage_empty by exact Hvis.
    repeat split. exists []. cbn. now rewrite app_nil_r.
  - assert (Hne : getVisibleTextNodes (document s) <> [])
      by (rewrite Hvis; discriminate).
    destruct (handleTranslatePage_sweep cancelDuring src tgt s Hne)
      as (Hr1 & Hs1 & He1).
    destruct (handleTranslatePage_sweep (fun _ => false) src tgt s Hne)
      as (Hr2 & Hs2 & He2).
    cbv zeta in Hr1, Hs1, He1, Hr2, Hs2, He2.
    set (src' := orTag src (sourceLanguage (languagePreferences s))) in *.
    set (tgt' := orTag tgt (targetLanguage (languagePreferences s))) in *.
    set (s0 := showTranslationProgress (SweepStarting src' tgt') s) in *.
    assert (Hout : forall node,
               In node (getVisibleTextNodes (document s)) ->
               outsideMarkers (document s0) node = true)
      by (intros node Hin; exact (getVisibleTextNodes_outside _ node Hin)).
    destruct (sweepLoop_schedules cancelDuring (fun _ => false) src' tgt'
                (List.length (getVisibleTextNodes (document s)))
                (getVisibleTextNodes (document s)) 0 0 s0 s0 eq_refl Hout Hout)
      as [Hcount Heff].
    destruct (sweepLoop_attached cancelDuring src' tgt'
                (List.length (getVisibleTextNodes (document s)))
                (getVisibleTextNodes (document s)) 0 0 s0 Hout)
      as (marks & Hmarks & Hids & _).
    rewrite visible_all_qualify in Hids.
    rewrite Hr1, Hr2, Hs1, Hs2, He1, He2, Hcount, Heff.
    repeat split. exists marks. split; [|now rewrite <- Hvis].
    apply effects_inv in He1 as (_ & _ & Ha & _).
    rewrite Ha. exact Hmarks.
Qed.

End WithBackground.



Lemma sweep_not_stopped_by_cancel_witness :
  isAnnotation (body (document (sessionOn echoBackground tt annotatedPage)))
  = false
  /\ annotationsOn
       (handleCancelTranslatePage (sessionOn echoBackground tt annotatedPage))
     = []
  /\ fst (handleTranslatePage (fun i => i =? 4) None None
            (sessionOn echoBackground tt (paragraphs 10)))
     = fst (handleTranslatePage (fun _ => false) None None
              (sessionOn echoBackground tt (paragraphs 10))).
Proof.
  split; [reflexivity|]. split.
  - apply (sweep_not_stopped_by_cancel (bg := echoBackground)
             (fun _ => false) None None
             (sessionOn echoBackground tt annotatedPage)).
    reflexivity.
  - apply (sweep_not_stopped_by_cancel (bg := echoBackground)
             (fun i => i =? 4) None None
             (sessionOn echoBackground tt (paragraphs 10))).
Defined.

(** C2, the claim as stated fails: ten fragments, the cancel request handled
    while fragment 5 is in flight.  Fragment 5 and those after it carry an
    annotation when the sweep ends, fragments 1 to 4 carry none, and the
    page is flagged translated. *)
Lemma cancel_mid_sweep_annotates_later_fragments :
  let s := sessionOn echoBackground tt (paragraphs 10) in
  let s' := snd (handleTranslatePage (fun i => i =? 4) None None s) in
  map ref_id (getVisibleTextNodes (document s)) = map fragmentId (seq 1 10)
  /\ annotatedFragments s' = map fragmentId (seq 5 6)
  /\ In (fragmentId 5) (annotatedFragments s')
  /\ ~ In (fragmentId 4) (annotatedFragments s')
  /\ isPageTranslated s' = true.
Proof.
  vm_compute. repeat split; try (now left).
  intros H. repeat (destruct H as [H|H]; [discriminate|]). exact H.
Qed.

(** C3, evaluated on the code: a session attached to any document starts
    with the translated flag off; so does the one attached to a page that
    already carries two annotation markers, and it answers "not translated"
    to a status request. *)
Theorem attachSession_ignores_markers :
  (forall (bg : Background) defaults stored d b,
      isPageTranslated (@attachSession bg defaults stored d b) = false)
  /\ List.length (selectAll isAnnotation annotatedPage) = 2
  /\ getTranslationStatus (sessionOn echoBackground tt annotatedPage) = false.
Proof. repeat split. Qed.

(** C4, evaluated on the code: one visible fragment and a background that
    rejects every request.  The full sweep attaches the failure marker to the
    fragment, the scroll-triggered pass attaches nothing; and on two
    fragments that translate, the full sweep pauses between them and the
    scroll-triggered pass does not. *)
Theorem incremental_differs_from_full_sweep :
  let failing := setIsPageTranslated true
                   (sessionOn failingBackground tt (paragraphs 1)) in
  let echoing := setIsPageTranslated true
                   (sessionOn echoBackground tt (paragraphs 2)) in
  let src := Some auto in
  let tgt := Some (JS.lit "zh-CN") in
  getVisibleTextNodes (document failing) = [mkRef (fragmentId 1) (JS.lit "text")]
  /\ attached (log (snd (handleTranslatePage (fun _ => false) src tgt failing)))
     = [(fragmentId 1, Failed)]
  /\ annotatedFragments (snd (handleTranslatePage (fun _ => false) src tgt failing))
     = [fragmentId 1]
  /\ attached (log (translateNewlyVisibleContent src tgt failing)) = []
  /\ annotatedFragments (translateNewlyVisibleContent src tgt failing) = []
  /\ requests (log (translateNewlyVisibleContent src tgt failing))
     = requests (log (snd (handleTranslatePage (fun _ => false) src tgt failing)))
  /\ delays (log (snd (handleTranslatePage (fun _ => false) src tgt echoing)))
     = [50]
  /\ delays (log (translateNewlyVisibleContent src tgt echoing)) = []
  /\ attached (log (translateNewlyVisibleContent src tgt echoing))
     = attached
         (log (snd (handleTranslatePage (fun _ => false) src tgt echoing))).
Proof. vm_compute. repeat split. Qed.

(** C7, evaluated on the code: on [<p><b>Bold</b> rest</p>] the scan returns
    both text nodes, twice the same.  Annotating the two returned fragments
    in order removes the marker of "Bold" when " rest" is annotated (the
    marker is found below the parent of " rest"), so the next scan returns
    "Bold" again; the same holds after a full sweep of the page. *)
Theorem rescan_after_annotation_not_empty :
  let s := sessionOn echoBackground tt nestedPage in
  let found := getPageTextNodes (document s) in
  found = [mkRef 3 (JS.lit "Bold"); mkRef 4 (JS.lit " rest")]
  /\ getPageTextNodes (document s) = found
  /\ getPageTextNodes
       (document (annotateAll (Translated (JS.lit "x")) found s))
     = [mkRef 3 (JS.lit "Bold")]
  /\ annotatedFragments (annotateAll (Translated (JS.lit "x")) found s) = [4]
  /\ getPageTextNodes
       (document (snd (handleTranslatePage (fun _ => false) None None s)))
     = [mkRef 3 (JS.lit "Bold")].
Proof. vm_compute. repeat split. Qed.

End PageProps.

(** * Further properties of the page session *)

Module DomRoundTrip.
Import Dom DomProps.

Section Class.
Variable c : jsstring.

Lemma hasClass_removeAll (n : node) :
  hasClass c (removeAll (hasClass c) n) = hasClass c n.
Proof. now destruct n. Qed.

Lemma removeAllIn_insertAfter (all : node -> node) (tid : nat) (e : node)
  (cs : list node) :
  hasClass c e = true ->
  removeAllIn (hasClass c) all (insertAfter tid e cs)
  = removeAllIn (hasClass c) all cs.
Proof.
  intros He. induction cs as [|x cs IH]; [reflexivity|].
  cbn [insertAfter]. destruct (isTextNode tid x).
  - cbn [removeAllIn]. now rewrite He.
  - cbn [removeAllIn]. now rewrite IH.
Qed.

Lemma removeAllIn_removeFirstIn (all : node -> node)
  (below : node -> option node) (cs : list node) :
  (forall x x', In x cs -> below x = Some x' ->
                all x' = all x /\ hasClass c x' = hasClass c x) ->
  forall cs', removeFirstIn (hasClass c) below cs = Some cs' ->
              removeAllIn (hasClass c) all cs'
              = removeAllIn (hasClass c) all cs.
Proof.
  induction cs as [|x cs IH]; intros Hbelow cs' Hrm; [discriminate|].
  cbn [removeFirstIn] in Hrm. cbn [removeAllIn].
  destruct (hasClass c x) eqn:Hx.
  - now inversion Hrm.
  - destruct (below x) as [x'|] eqn:Hbx.
    + inversion Hrm; subst cs'. cbn [removeAllIn].
      destruct (Hbelow x x' (or_introl eq_refl) Hbx) as [-> ->].
      now rewrite Hx.
    + destruct (removeFirstIn (hasClass c) below cs) as [cs''|] eqn:Hrest;
        [|discriminate].
      inversion Hrm; subst cs'. cbn [removeAllIn]. rewrite Hx. f_equal.
      apply IH; [|reflexivity]. intros y y' Hy. apply Hbelow. now right.
Qed.

Lemma removeAllIn_updateFirst (all : node -> node)
  (below : node -> option node) (cs : list node) :
  (forall x x', In x cs -> below x = Some x' ->
                all x' = all x /\ hasClass c x' = hasClass c x) ->
  forall cs', updateFirst below cs = Some cs' ->
              removeAllIn (hasClass c) all cs'
              = removeAllIn (hasClass c) all cs.
Proof.
  induction cs as [|x cs IH]; intros Hbelow cs' Hup; [discriminate|].
  cbn [updateFirst] in Hup.
  destruct (below x) as [x'|] eqn:Hbx.
  - inversion Hup; subst cs'. cbn [removeAllIn].
    destruct (Hbelow x x' (or_introl eq_refl) Hbx) as [-> ->]. reflexivity.
  - destruct (updateFirst below cs) as [cs''|] eqn:Hrest; [|discriminate].
    inversion Hup; subst cs'. cbn [removeAllIn].
    assert (Hcs : removeAllIn (hasClass c) all cs''
                  = removeAllIn (hasClass c) all cs).
    { apply IH; [|reflexivity]. intros y y' Hy. apply Hbelow. now right. }
    now rewrite Hcs.
Qed.

(** Removing the first element of the class, then all of them, is removing
    all of them. *)
Lemma removeAll_removeFirst (n : node) :
  forall n', removeFirst (hasClass c) n = Some n' ->
             removeAll (hasClass c) n' = removeAll (hasClass c) n
             /\ hasClass c n' = hasClass c n.
Proof.
  induction n as [i d | i t d cl r cs IH] using node_induction;
    intros n' Hrm; [discriminate|].
  rewrite Forall_forall in IH. cbn [removeFirst] in Hrm.
  destruct (removeFirstIn (hasClass c) (removeFirst (hasClass c)) cs)
    as [cs'|] eqn:Hcs; [|discriminate].
  inversion Hrm; subst n'. split; [|reflexivity].
  cbn [removeAll]. f_equal.
  apply (removeAllIn_removeFirstIn (removeAll (hasClass c))
           (removeFirst (hasClass c)) cs); [|exact Hcs].
  intros x x' Hin Hx. now apply (IH x Hin x').
Qed.


(** Removing all elements of the class twice is removing them once. *)
Lemma removeAll_twice (n : node) :
  removeAll (hasClass c) (removeAll (hasClass c) n) = removeAll (hasClass c) n.
Proof.
  induction n as [i d | i t d cl r cs IH] using node_induction;
    [reflexivity|].
  cbn [removeAll]. f_equal.
  induction cs as [|x cs IHcs]; [reflexivity|].
  inversion IH as [|? ? Hx Hcs]; subst. cbn [removeAllIn].
  destruct (hasClass c x) eqn:Hsel; [now apply IHcs|].
  cbn [removeAllIn]. rewrite hasClass_removeAll, Hsel, Hx. f_equal.
  now apply IHcs.
Qed.

End Class.

End DomRoundTrip.

Module SessionProps.
Import Normalizer Dom ContentTranslator PageEvents DomProps DomRoundTrip
       PageProps.

Section WithBackground.
Context {bg : Background}.

Lemma removeAll_attach (tid : nat) (e parent : node) :
  isAnnotation e = true ->
  removeAll isAnnotation (attach tid e parent) = removeAll isAnnotation parent
  /\ isAnnotation (attach tid e parent) = isAnnotation parent.
Proof.
  intros He. unfold attach, isAnnotation in *.
  destruct parent as [i d | i t d cl r cs]; [now split|].
  cbn [removeFirst].
  destruct (removeFirstIn (hasClass annotationClass)
              (removeFirst (hasClass annotationClass)) cs) as [cs'|] eqn:Hcs.
  - destruct (removeAll_removeFirst annotationClass
                (Elem i t d cl r cs) (Elem i t d cl r cs')) as [<- _].
    { cbn [removeFirst]. now rewrite Hcs. }
    split; [|reflexivity].
    cbn [withChildren children removeAll]. f_equal.
    now apply removeAllIn_insertAfter.
  - split; [|reflexivity].
    cbn [withChildren children removeAll]. f_equal.
    now apply removeAllIn_insertAfter.
Qed.

Lemma removeAll_updateParent (tid : nat) (e : node) (n : node) :
  isAnnotation e = true ->
  forall n', updateParent tid (attach tid e) n = Some n' ->
             removeAll isAnnotation n' = removeAll isAnnotation n
             /\ isAnnotation n' = isAnnotation n.
Proof.
  intros He.
  induction n as [i d | i t d cl r cs IH] using node_induction;
    intros n' Hup; [discriminate|].
  rewrite Forall_forall in IH. cbn [updateParent] in Hup.
  destruct (existsb (isTextNode tid) cs).
  - inversion Hup; subst n'. now apply removeAll_attach.
  - destruct (updateFirst (updateParent tid (attach tid e)) cs)
      as [cs'|] eqn:Hcs; [|discriminate].
    inversion Hup; subst n'. split; [|reflexivity].
    cbn [removeAll]. f_equal. unfold isAnnotation.
    apply (removeAllIn_updateFirst annotationClass
             (removeAll (hasClass annotationClass))
             (updateParent tid (attach tid e)) cs); [|exact Hcs].
    intros x x' Hin Hx. now apply (IH x Hin x').
Qed.

(** What [appendTranslationToNode] leaves as it was. *)
Lemma appendTranslationToNode_frame (n : TextRef) (a : annotation)
  (s : session) :
  let s' := appendTranslationToNode n a s in
  ownPage s' = ownPage s
  /\ isPageTranslated s' = isPageTranslated s
  /\ scrollTranslationHandler s' = scrollTranslationHandler s
  /\ toasts (log s') = toasts (log s)
  /\ requests (log s') = requests (log s)
  /\ delays (log s') = delays (log s)
  /\ backend s' = backend s.
Proof.
  cbv zeta. unfold appendTranslationToNode, ownPage. cbv zeta.
  destruct (updateParent (ref_id n) _ (body (document s))) as [body'|] eqn:Hup;
    [|repeat split].
  cbn [document setDocument setLog body].
  destruct (removeAll_updateParent (ref_id n) _ (body (document s))
              (isAnnotation_translationElement _ a) body' Hup) as [-> _].
  repeat split.
Qed.

Lemma translateText_frame (text : jsstring) (src tgt : tag) (s : session) :
  let s' := snd (translateText text src tgt s) in
  document s' = document s
  /\ isPageTranslated s' = isPageTranslated s
  /\ scrollTranslationHandler s' = scrollTranslationHandler s
  /\ toasts (log s') = toasts (log s)
  /\ attached (log s') = attached (log s)
  /\ delays (log s') = delays (log s).
Proof.
  cbv zeta. unfold translateText.
  destruct (sendTranslateText text src tgt (backend s)) as [r b].
  repeat split.
Qed.




Lemma translateAll_frame (src tgt : tag) (texts : list jsstring) :
  forall results s,
    let s' := snd (translateAll src tgt texts results s) in
    document s' = document s
    /\ isPageTranslated s' = isPageTranslated s
    /\ scrollTranslationHandler s' = scrollTranslationHandler s
    /\ toasts (log s') = toasts (log s)
    /\ attached (log s') = attached (log s)
    /\ delays (log s') = delays (log s).
Proof.
  induction texts as [|text rest IH]; intros results s; [repeat split|].
  cbn [translateAll]. cbv zeta.
  destruct (translateText_frame text src tgt s) as (H1 & H2 & H3 & H4 & H5 & H6).
  destruct (translateText text src tgt s) as [reply s1]. cbn [snd] in *.
  destruct (IH (results ++ [(text,
                  match reply with
                  | Resolved (Some r) => if JS.truthy r then r else text
                  | Resolved None => text
                  | Rejected _ => text
                  end)]) s1) as (G1 & G2 & G3 & G4 & G5 & G6).
  cbv zeta in G1, G2, G3, G4, G5, G6.
  rewrite G1, G2, G3, G4, G5, G6. repeat split; assumption.
Qed.

(** What the second loop of the scroll pass does: it attaches translations
    only, and leaves the flags, the toasts, the requests and the pacing
    record as they were. *)
Lemma applyResults_frame (nodes : list TextRef)
  (results : list (jsstring * jsstring)) :
  forall k s,
    let s' := applyResults nodes results k s in
    ownPage s' = ownPage s
    /\ isPageTranslated s' = isPageTranslated s
    /\ scrollTranslationHandler s' = scrollTranslationHandler s
    /\ toasts (log s') = toasts (log s)
    /\ requests (log s') = requests (log s)
    /\ delays (log s') = delays (log s)
    /\ backend s' = backend s
    /\ exists marks,
         attached (log s') = attached (log s) ++ marks
         /\ forallb isTranslatedCall marks = true.
Proof.
  induction nodes as [|node rest IH]; intros k s.
  - repeat split. exists []. now rewrite app_nil_r.
  - cbn [applyResults]. cbv zeta.
    destruct (qualifies (JS.trim (textContent node))); [|apply IH].
    destruct (nth_error results k) as [[original translated]|];
      [destruct (negb (JS.eqb translated original)) eqn:Hneq|];
      try apply IH.
    destruct (IH (S k) (appendTranslationToNode node (Translated translated) s))
      as (H1 & H2 & H3 & H4 & H5 & H6 & H7 & marks & Hmarks & Hall).
    destruct (appendTranslationToNode_frame node (Translated translated) s)
      as (F1 & F2 & F3 & F4 & F5 & F6 & F7).
    cbv zeta in *.
    assert (Hone : exists first,
               attached (log (appendTranslationToNode node
                                (Translated translated) s))
               = attached (log s) ++ first
               /\ forallb isTranslatedCall first = true).
    { unfold appendTranslationToNode. cbv zeta.
      destruct (updateParent (ref_id node) _ (body (document s))).
      - now exists [(ref_id node, Translated translated)].
      - exists []. now rewrite app_nil_r. }
    destruct Hone as (first & Hfirst & Hallf).
    rewrite H1, H2, H3, H4, H5, H6, H7, F1, F2, F3, F4, F5, F6, F7.
    repeat split.
    exists (first ++ marks). split.
    + now rewrite Hmarks, Hfirst, <- app_assoc.
    + rewrite forallb_app. now rewrite Hallf, Hall.
Qed.

(** The scroll pass leaves the page's own tree, the translated flag and the
    scroll listener as they were. *)
Lemma translateNewlyVisibleContent_frame (src tgt : tag) (s : session) :
  let s' := translateNewlyVisibleContent src tgt s in
  ownPage s' = ownPage s
  /\ isPageTranslated s' = isPageTranslated s
  /\ scrollTranslationHandler s' = scrollTranslationHandler s.
Proof.
  cbv zeta. unfold translateNewlyVisibleContent. cbv zeta.
  destruct (negb (isPageTranslated s)); [repeat split|].
  destruct (List.length (filter _ (getPageTextNodes (document s))) =? 0);
    [repeat split|].
  destruct (List.length (filter qualifies _) =? 0); [repeat split|].
  set (nodes := filter _ (getPageTextNodes (document s))).
  set (texts := filter qualifies _).
  destruct (translateAll_frame src tgt texts [] s) as (T1 & T2 & T3 & _).
  destruct (translateAll src tgt texts [] s) as [results s1].
  cbn [snd] in T1, T2, T3.
  destruct (applyResults_frame nodes results 0 s1) as (A1 & A2 & A3 & _).
  cbv zeta in A1, A2, A3. rewrite A1, A2, A3, T2, T3.
  unfold ownPage at 1. rewrite T1. repeat split.
Qed.

(** X1: the scroll-triggered pass attaches translations only, never the
    failure marker; it never pauses and raises no toast; and on a page that
    is not flagged translated it does nothing at all. *)
Theorem translateNewlyVisibleContent_quiet (src tgt : tag) (s : session) :
  let s' := translateNewlyVisibleContent src tgt s in
  (exists marks,
      attached (log s') = attached (log s) ++ marks
      /\ forallb isTranslatedCall marks = true)
  /\ delays (log s') = delays (log s)
  /\ toasts (log s') = toasts (log s)
  /\ (isPageTranslated s = false -> s' = s).
Proof.
  cbv zeta.
  assert (Hsame : exists marks, attached (log s) = attached (log s) ++ marks
                                /\ forallb isTranslatedCall marks = true)
    by (exists []; now rewrite app_nil_r).
  unfold translateNewlyVisibleContent. cbv zeta.
  destruct (isPageTranslated s) eqn:Hflag; cbn [negb];
    [|split; [exact Hsame | now repeat split]].
  destruct (List.length (filter _ (getPageTextNodes (document s))) =? 0);
    [split; [exact Hsame | now repeat split]|].
  destruct (List.length (filter qualifies _) =? 0);
    [split; [exact Hsame | now repeat split]|].
  set (nodes := filter _ (getPageTextNodes (document s))).
  set (texts := filter qualifies _).
  destruct (translateAll_frame src tgt texts [] s)
    as (_ & _ & _ & T4 & T5 & T6).
  destruct (translateAll src tgt texts [] s) as [results s1].
  cbn [snd] in T4, T5, T6.
  destruct (applyResults_frame nodes results 0 s1)
    as (_ & _ & _ & A4 & _ & A6 & _ & marks & Hmarks & Hall).
  cbv zeta in A4, A6, Hmarks.
  rewrite A4, A6, Hmarks, T4, T5, T6.
  split; [now exists marks | now repeat split].
Qed.




(** X3: cancelling twice is cancelling once, but for the second toast: the
    page, the flag and the listener are those the first cancel left. *)
Theorem handleCancelTranslatePage_twice (s : session) :
  handleCancelTranslatePage (handleCancelTranslatePage s)
  = showSuccessMessage Cancelled (handleCancelTranslatePage s).
Proof.
  destruct s as [text range prefs flag listener [page next vp ov] l b].
  cbv beta iota zeta delta
    [handleCancelTranslatePage showSuccessMessage raise setLog
     setIsPageTranslated hideTranslationProgress setOverlay
     setScrollTranslationHandler setDocument selectedText selectionRange
     languagePreferences isPageTranslated scrollTranslationHandler document
     log backend body nextId viewport overlay icon popup progress].
  unfold isAnnotation. now rewrite removeAll_twice.
Qed.

Lemma handleTranslatePage_listener (cancelDuring : nat -> bool)
  (src tgt : tag) (s : session) :
  (isPageTranslated s = true -> scrollTranslationHandler s <> None) ->
  isPageTranslated (snd (handleTranslatePage cancelDuring src tgt s)) = true ->
  scrollTranslationHandler (snd (handleTranslatePage cancelDuring src tgt s))
  <> None.
Proof.
  intros Hinv. unfold handleTranslatePage. cbv zeta.
  destruct (List.length (getVisibleTextNodes (document s)) =? 0);
    [exact Hinv|].
  destruct (List.length (filter qualifies _) =? 0); [exact Hinv|].
  destruct (sweepLoop cancelDuring _ _ _ 0 _ 0 _) as [count s1].
  cbn [snd]. destruct (0 <? count); cbn; [discriminate | discriminate].
Qed.

(** X4: whenever the page is flagged translated, the scroll listener is
    installed: the flag is only set by a sweep that translated something,
    which installs the listener, and only a cancel removes the listener,
    which clears the flag.  This holds after any sequence of sweeps
    (cancelled on the way or not), scroll passes and cancels from a fresh
    session. *)
Theorem translated_has_listener (defaults : Prefs) (stored : option Prefs)
  (d : Document) (b : B) (events : list pageEvent) :
  let s := run events (attachSession defaults stored d b) in
  isPageTranslated s = true -> scrollTranslationHandler s <> None.
Proof.
  cbv zeta.
  assert (Hinv : forall events s,
            (isPageTranslated s = true -> scrollTranslationHandler s <> None) ->
            isPageTranslated (run events s) = true ->
            scrollTranslationHandler (run events s) <> None).
  { clear. induction events as [|e events IH]; intros s Hs; [exact Hs|].
    cbn [run fold_left]. fold (run events (step e s)). apply IH.
    destruct e as [cancelDuring src tgt | |]; cbn [step].
    - now apply handleTranslatePage_listener.
    - cbn. discriminate.
    - unfold onScrollSettled.
      destruct (scrollTranslationHandler s) as [[src tgt]|] eqn:Hh;
        [|rewrite Hh; exact Hs].
      destruct (translateNewlyVisibleContent_frame src tgt s)
        as (_ & Hflag & Hlistener).
      cbv zeta in Hflag, Hlistener. rewrite Hflag, Hlistener, Hh.
      discriminate. }
  apply Hinv. cbn. discriminate.
Qed.

Lemma sweepLoop_accounting (cancelDuring : nat -> bool) (src tgt : tag)
  (total : nat) (nodes : list TextRef) :
  forall i count s,
    (forall node, In node nodes -> outsideMarkers (document s) node = true) ->
    forallb (fun n => qualifies (JS.trim (textContent n))) nodes = true ->
    i + List.length nodes = total ->
    requests (log (snd (sweepLoop cancelDuring src tgt total i nodes count s)))
    = requests (log s)
      ++ map (fun n => mkRequest (JS.trim (textContent n)) src tgt) nodes
    /\ delays (log (snd (sweepLoop cancelDuring src tgt total i nodes count s)))
       = delays (log s) ++ repeat 50 (List.length nodes - 1).
Proof.
  induction nodes as [|node rest IH]; intros i count s Hout Hq Htotal.
  - cbn [sweepLoop snd map List.length Nat.sub repeat].
    now rewrite !app_nil_r.
  - rewrite sweepLoop_cons.
    cbn [forallb] in Hq. apply andb_true_iff in Hq as [Hnode Hrest].
    rewrite Hnode. cbv zeta.
    destruct (sweep_step (cancelDuring i) (i <? total - 1) src tgt
                (SweepAt (i + 1) total) node (JS.trim (textContent node)) s
                (Hout node (or_introl eq_refl)))
      as (_ & Heff & Hout4).
    cbv zeta in Heff, Hout4.
    set (sent := translateText _ _ _ _) in *.
    set (a := annotationFor _ _) in *.
    set (s4 := if i <? total - 1 then _ else _) in *.
    set (count' := if isTranslatedCall _ then _ else _).
    cbn [List.length] in Htotal.
    destruct (IH (S i) count' s4) as [IHreq IHdel].
    { intros n Hn. rewrite Hout4. apply Hout. now right. }
    { exact Hrest. }
    { lia. }
    apply effects_inv in Heff as (_ & Hreq & _ & Hdel).
    rewrite IHreq, IHdel, Hreq, Hdel.
    cbn [map]. rewrite <- !app_assoc. split; [reflexivity|].
    destruct rest as [|r rest'].
    + assert (Hp : (i <? total - 1) = false)
        by (apply Nat.ltb_ge; cbn [List.length] in Htotal; lia).
      rewrite Hp. reflexivity.
    + assert (Hp : (i <? total - 1) = true)
        by (apply Nat.ltb_lt; cbn [List.length] in Htotal; lia).
      rewrite Hp. cbn [List.length Nat.sub repeat].
      rewrite Nat.sub_0_r, <- app_assoc. reflexivity.
Qed.

(** X5: the accounts of a full sweep, whatever is cancelled on the way: one
    request per visible fragment, in document order, carrying the trimmed
    text and the languages of the sweep; a 50ms pause between two fragments
    and none after the last; one marker per visible fragment; and, when
    something was visible, a result that counts the translations attached
    and succeeds exactly when there is one. *)
Theorem handleTranslatePage_accounts (cancelDuring : nat -> bool)
  (src tgt : tag) (s : session) :
  let src' := orTag src (sourceLanguage (languagePreferences s)) in
  let tgt' := orTag tgt (targetLanguage (languagePreferences s)) in
  let visible := getVisibleTextNodes (document s) in
  let run := handleTranslatePage cancelDuring src tgt s in
  requests (log (snd run))
  = requests (log s)
    ++ map (fun n => mkRequest (JS.trim (textContent n)) src' tgt') visible
  /\ delays (log (snd run))
     = delays (log s) ++ repeat 50 (List.length visible - 1)
  /\ exists marks,
       attached (log (snd run)) = attached (log s) ++ marks
       /\ map fst marks = map ref_id visible
       /\ (visible <> [] ->
           fst run
           = mkPageResult
               (0 <? List.length (filter isTranslatedCall marks))
               (Some (List.length (filter isTranslatedCall marks))) None).
Proof.
  cbv zeta.
  destruct (getVisibleTextNodes (document s)) as [|n l] eqn:Hvis.
  - rewrite handleTranslatePage_empty by exact Hvis.
    cbn [snd map List.length Nat.sub repeat showErrorMessage raise setLog log
         requests delays attached].
    rewrite !app_nil_r. split; [reflexivity|]. split; [reflexivity|].
    exists []. rewrite app_nil_r. split; [reflexivity|].
    split; [reflexivity|]. intros H. now elim H.
  - assert (Hne : getVisibleTextNodes (document s) <> [])
      by (rewrite Hvis; discriminate).
    destruct (handleTranslatePage_sweep cancelDuring src tgt s Hne)
      as (Hr & _ & He).
    cbv zeta in Hr, He.
    set (src' := orTag src (sourceLanguage (languagePreferences s))) in *.
    set (tgt' := orTag tgt (targetLanguage (languagePreferences s))) in *.
    set (s0 := showTranslationProgress (SweepStarting src' tgt') s) in *.
    assert (Hout : forall node,
               In node (getVisibleTextNodes (document s)) ->
               outsideMarkers (document s0) node = true)
      by (intros node Hin; exact (getVisibleTextNodes_outside _ node Hin)).
    assert (Hq : forallb (fun n => qualifies (JS.trim (textContent n)))
                   (getVisibleTextNodes (document s)) = true).
    { apply forallb_forall. intros node Hin.
      exact (getVisibleTextNodes_qualify _ node Hin). }
    destruct (sweepLoop_accounting cancelDuring src' tgt'
                (List.length (getVisibleTextNodes (document s)))
                (getVisibleTextNodes (document s)) 0 0 s0 Hout Hq eq_refl)
      as [Hreq Hdel].
    destruct (sweepLoop_attached cancelDuring src' tgt'
                (List.length (getVisibleTextNodes (document s)))
                (getVisibleTextNodes (document s)) 0 0 s0 Hout)
      as (marks & Hmarks & Hids & Hcount).
    rewrite visible_all_qualify in Hids.
    apply effects_inv in He as (_ & Hq' & Ha' & Hd').
    rewrite <- Hvis, Hq', Hd', Hreq, Hdel.
    split; [reflexivity|]. split; [reflexivity|].
    exists marks. rewrite Ha', Hr, Hcount. cbn [Nat.add].
    split; [exact Hmarks|]. split; [exact Hids|]. reflexivity.
Qed.

End WithBackground.

Lemma handleTranslatePage_accounts_witness :
  let s := sessionOn echoBackground tt (paragraphs 3) in
  getVisibleTextNodes (document s) <> []
  /\ exists marks,
       attached (log (snd (handleTranslatePage (fun i => i =? 1) None None s)))
       = attached (log s) ++ marks
       /\ fst (handleTranslatePage (fun i => i =? 1) None None s)
          = mkPageResult
              (0 <? List.length (filter isTranslatedCall marks))
              (Some (List.length (filter isTranslatedCall marks))) None.
Proof.
  assert (Hne : getVisibleTextNodes
                  (document (sessionOn echoBackground tt (paragraphs 3))) <> [])
    by (vm_compute; discriminate).
  split; [exact Hne|].
  destruct (handleTranslatePage_accounts (fun i => i =? 1) None None
              (sessionOn echoBackground tt (paragraphs 3)))
    as (_ & _ & marks & Hmarks & _ & Hresult).
  exists marks. split; [exact Hmarks | exact (Hresult Hne)].
Defined.

Lemma translateNewlyVisibleContent_quiet_witness :
  let s := sessionOn echoBackground tt (paragraphs 2) in
  isPageTranslated s = false
  /\ translateNewlyVisibleContent None None s = s.
Proof.
  split; [reflexivity|].
  apply (proj2 (proj2 (proj2
           (translateNewlyVisibleContent_quiet None None
              (sessionOn echoBackground tt (paragraphs 2)))))).
  reflexivity.
Defined.


Lemma translated_has_listener_witness :
  let s := run [TranslatePage (fun _ => false) None None]
             (@attachSession echoBackground examplePrefs None
                (pageOf (paragraphs 2)) tt) in
  isPageTranslated s = true /\ scrollTranslationHandler s <> None.
Proof.
  split; [vm_compute; reflexivity|].
  apply (@translated_has_listener echoBackground examplePrefs None
           (pageOf (paragraphs 2)) tt
           [TranslatePage (fun _ => false) None None]).
  vm_compute. reflexivity.
Defined.

End SessionProps.

(** * Further properties of the normalizer and of the translation core *)

Module NormalizerFacts.
Import Normalizer NormalizerProps.

Lemma lowerUnit_cases (c : N) :
  JS.lowerUnit c = c
  \/ (JS.lowerUnit c = (c + 32)%N
      /\ ((65 <= c <= 90)%N \/ (192 <= c <= 222)%N)).
Proof.
  unfold JS.lowerUnit.
  destruct (N.leb_spec 65 c), (N.leb_spec c 90), (N.leb_spec 192 c),
    (N.leb_spec c 222), (N.eqb_spec c 215); cbn [andb negb];
    auto; right; (split; [reflexivity | lia]).
Qed.

Lemma lowerUnit_lower (d : N) :
  (97 <= d <= 122)%N \/ (224 <= d <= 254)%N -> JS.lowerUnit d = d.
Proof.
  intros Hd. unfold JS.lowerUnit.
  destruct (N.leb_spec 65 d), (N.leb_spec d 90), (N.leb_spec 192 d),
    (N.leb_spec d 222), (N.eqb_spec d 215); cbn [andb negb];
    try reflexivity; lia.
Qed.

Lemma lowerUnit_idempotent (c : N) :
  JS.lowerUnit (JS.lowerUnit c) = JS.lowerUnit c.
Proof.
  destruct (lowerUnit_cases c) as [H | [H Hc]]; rewrite H.
  - exact H.
  - apply lowerUnit_lower. lia.
Qed.

(** The first segment is made of units of the string, none of them a
    separator. *)
Lemma prefix_replace_In (a b x : N) (s : jsstring) :
  In x (prefixBefore b (JS.replace a b s)) -> In x s /\ x <> a /\ x <> b.
Proof.
  induction s as [|c s IH]; cbn [JS.replace prefixBefore]; [intros []|].
  destruct (N.eqb_spec c a) as [Ha|Ha]; cbn [prefixBefore].
  - rewrite N.eqb_refl. intros [].
  - destruct (N.eqb_spec c b) as [Hb|Hb]; [intros []|].
    intros [<-|Hin].
    + repeat split; [now left | exact Ha | exact Hb].
    + destruct (IH Hin) as (H & Hxa & Hxb). repeat split; auto. now right.
Qed.

Lemma replace_absent (a b : N) (s : jsstring) :
  ~ In a s -> JS.replace a b s = s.
Proof.
  induction s as [|c s IH]; cbn [JS.replace]; [reflexivity|].
  intros Hnot. destruct (N.eqb_spec c a) as [->|_].
  - elim Hnot. now left.
  - f_equal. apply IH. intros H. apply Hnot. now right.
Qed.

Lemma prefixBefore_absent (sep : N) (s : jsstring) :
  ~ In sep s -> prefixBefore sep s = s.
Proof.
  induction s as [|c s IH]; cbn [prefixBefore]; [reflexivity|].
  intros Hnot. destruct (N.eqb_spec c sep) as [->|_].
  - elim Hnot. now left.
  - f_equal. apply IH. intros H. apply Hnot. now right.
Qed.

Lemma normalizeLanguage_units (language : tag) (x : N) :
  In x (normalizeLanguage language) ->
  x <> JS.underscore /\ x <> JS.hyphen /\ JS.lowerUnit x = x.
Proof.
  destruct language as [l|]; [|intros []].
  rewrite normalizeLanguage_prefix. intros Hin.
  apply prefix_replace_In in Hin as (Hin & Hu & Hh).
  repeat split; [exact Hu | exact Hh |].
  unfold JS.toLowerCase in Hin. apply in_map_iff in Hin as (y & <- & _).
  apply lowerUnit_idempotent.
Qed.

(** X6: a normalized tag is a fixed point of the normalizer: it holds no
    '-' and no '_', lower-casing leaves it as it is, and normalizing it
    again gives it back.  So a tag and its normalized form are always taken
    for the same language. *)
Theorem normalizeLanguage_idempotent (language : tag) :
  let n := normalizeLanguage language in
  normalizeLanguage (Some n) = n
  /\ ~ In JS.hyphen n
  /\ ~ In JS.underscore n
  /\ JS.toLowerCase n = n.
Proof.
  cbv zeta.
  assert (Hh : ~ In JS.hyphen (normalizeLanguage language)).
  { intros Hin. apply normalizeLanguage_units in Hin as (_ & H & _).
    now apply H. }
  assert (Hu : ~ In JS.underscore (normalizeLanguage language)).
  { intros Hin. apply normalizeLanguage_units in Hin as (H & _).
    now apply H. }
  assert (Hl : JS.toLowerCase (normalizeLanguage language)
               = normalizeLanguage language).
  { unfold JS.toLowerCase. rewrite <- map_id. apply map_ext_in.
    intros x Hin. now apply normalizeLanguage_units in Hin as (_ & _ & H). }
  repeat split; [|exact Hh | exact Hu | exact Hl].
  rewrite normalizeLanguage_prefix, Hl, replace_absent by exact Hu.
  now apply prefixBefore_absent.
Qed.

End NormalizerFacts.

Module CoreFacts.
Import Normalizer TranslationCore CoreCalls JSProps CoreProps.

Section WithHost.
Context {host : Host}.

Ltac run_detect :=
  eexists; eexists; eexists; (split; [reflexivity|]);
  cbn [trace translator detector]; rewrite <- ?app_assoc;
  repeat split; try reflexivity; try assumption; try discriminate;
  try congruence.

(** What a call of [detectLanguage] does. *)
Lemma detectLanguage_run (text : jsstring) (s : state) :
  exists d s' calls,
    detectLanguage text s = (Ok d, s')
    /\ JS.truthy d = true
    /\ translator s' = translator s
    /\ trace s' = trace s ++ calls
    /\ forallb isDetectorCall calls = true
    /\ (hasLanguageDetector = false -> d = en /\ s' = s)
    /\ (forall h, hasLanguageDetector = true -> detector s = Some h ->
                  detector s' = Some h /\ calls = [Detect text]).
Proof.
  unfold detectLanguage, try_catch.
  destruct hasLanguageDetector; cbn [negb].
  2:{ exists en, s, []. rewrite app_nil_r. repeat split; discriminate. }
  unfold bind, getDetector, hostCall, setDetector, ret.
  destruct (detector s) as [d|] eqn:Hd; cbn [world trace translator detector].
  - destruct (detector_detect d text (world s)) as [[results|e] w].
    + destruct results as [|[l|] results];
        [|destruct (JS.truthy l) eqn:Hl|]; run_detect.
    + run_detect.
  - destruct (LanguageDetector_create (world s)) as [[d|e] w];
      cbn [world trace translator detector].
    + destruct (detector_detect d text w) as [[results|e] w'].
      * destruct results as [|[l|] results];
          [|destruct (JS.truthy l) eqn:Hl|]; run_detect.
      * run_detect.
    + run_detect.
Qed.

(** X7: [detectLanguage] never throws and never returns the empty tag:
    whatever the host does, it returns a language, 'en' when the detector is
    missing.  It leaves the translator alone, calls nothing but the
    detector, and reuses a detector it has already created: then its only
    call is the detection itself. *)
Theorem detectLanguage_never_throws (text : jsstring) (s : state) :
  exists d s' calls,
    detectLanguage text s = (Ok d, s')
    /\ JS.truthy d = true
    /\ translator s' = translator s
    /\ trace s' = trace s ++ calls
    /\ forallb isDetectorCall calls = true
    /\ (hasLanguageDetector = false -> d = en /\ s' = s)
    /\ (forall h, hasLanguageDetector = true -> detector s = Some h ->
                  detector s' = Some h /\ calls = [Detect text]).
Proof. exact (detectLanguage_run text s). Qed.

(** What a call of [translate] does. *)
Lemma translate_run (text : jsstring) (src tgt : tag) (s : state) :
  detector (snd (translate text src tgt s)) = detector s
  /\ (hasTranslator = false ->
      translate text src tgt s = (Throw (TranslateFailed TranslatorMissing), s))
  /\ (hasTranslator = true ->
      exists calls,
        trace (snd (translate text src tgt s)) = trace s ++ calls
        /\ (calls = [TranslatorCreate src tgt]
            \/ calls = [TranslatorCreate src tgt; Translate text]))
  /\ (forall r, fst (translate text src tgt s) = Ok r ->
        trace (snd (translate text src tgt s))
        = trace s ++ [TranslatorCreate src tgt; Translate text]
        /\ translator (snd (translate text src tgt s)) <> None
        /\ (JS.truthy text = true -> JS.truthy r = true))
  /\ (forall e, fst (translate text src tgt s) = Throw e ->
        exists cause, e = TranslateFailed cause).
Proof.
  unfold translate, try_catch.
  destruct hasTranslator; cbn [negb].
  2:{ unfold throw. cbn [fst snd]. repeat split; try discriminate.
      intros e He. inversion He. now exists TranslatorMissing. }
  unfold bind, hostCall, setTranslator, ret, throw.
  destruct (Translator_create src tgt (world s)) as [[t|e] w];
    cbn [world trace translator detector fst snd].
  - destruct (translator_translate t text w) as [[r|e] w'];
      cbn [world trace translator detector fst snd].
    + split; [reflexivity|]. split; [discriminate|]. split.
      { intros _. exists [TranslatorCreate src tgt; Translate text].
        rewrite <- app_assoc. split; [reflexivity | now right]. }
      split; [|discriminate].
      intros r' Hr. inversion Hr; subst r'. rewrite <- app_assoc.
      split; [reflexivity|]. split; [discriminate|].
      intros Htext. destruct r as [translatedText|]; [|exact Htext].
      destruct (JS.truthy translatedText) eqn:Ht; [exact Ht | exact Htext].
    + split; [reflexivity|]. split; [discriminate|]. split.
      { intros _. exists [TranslatorCreate src tgt; Translate text].
        rewrite <- app_assoc. split; [reflexivity | now right]. }
      split; [discriminate|].
      intros e' He. inversion He. now exists e.
  - split; [reflexivity|]. split; [discriminate|]. split.
    { intros _. exists [TranslatorCreate src tgt].
      split; [reflexivity | now left]. }
    split; [discriminate|].
    intros e' He. inversion He. now exists e.
Qed.

(** X8: [translate] never reuses a translator: when the Translator API is
    there it asks the host for a new one on every call, whatever is cached,
    and makes no other call than that and the translation.  When it returns,
    both calls were made and the result of a non-empty text is not empty
    (an empty translation is replaced by the text).  Every failure, the
    missing API included, comes out wrapped as a "translation failed" error;
    without the API nothing is called and the core is left as it was. *)
Theorem translate_outcome (text : jsstring) (src tgt : tag) (s : state) :
  detector (snd (translate text src tgt s)) = detector s
  /\ (hasTranslator = false ->
      translate text src tgt s = (Throw (TranslateFailed TranslatorMissing), s))
  /\ (hasTranslator = true ->
      exists calls,
        trace (snd (translate text src tgt s)) = trace s ++ calls
        /\ (calls = [TranslatorCreate src tgt]
            \/ calls = [TranslatorCreate src tgt; Translate text]))
  /\ (forall r, fst (translate text src tgt s) = Ok r ->
        trace (snd (translate text src tgt s))
        = trace s ++ [TranslatorCreate src tgt; Translate text]
        /\ translator (snd (translate text src tgt s)) <> None
        /\ (JS.truthy text = true -> JS.truthy r = true))
  /\ (forall e, fst (translate text src tgt s) = Throw e ->
        exists cause, e = TranslateFailed cause).
Proof. exact (translate_run text src tgt s). Qed.

(** [smartTranslate] on a text that passes its guard: the source is
    resolved, then the text is returned or translated. *)
Lemma smartTranslate_run (text : jsstring) (src tgt : tag) (s : state) :
  JS.trim text <> [] ->
  exists actual s1 calls,
    resolveSource text src s = (Ok actual, s1)
    /\ trace s1 = trace s ++ calls
    /\ forallb isDetectorCall calls = true
    /\ translator s1 = translator s
    /\ (tag_eqb src (Some auto) = false -> actual = src /\ s1 = s)
    /\ (tag_eqb src (Some auto) = true ->
        exists d, actual = Some d /\ JS.truthy d = true)
    /\ smartTranslate text src tgt s
       = if JS.eqb (normalizeLanguage actual) (normalizeLanguage tgt)
         then (Ok (mkResult text actual tgt), s1)
         else match translate text actual tgt s1 with
              | (Ok translatedText, s2) =>
                  (Ok (mkResult translatedText actual tgt), s2)
              | (Throw e, s2) => (Throw e, s2)
              end.
Proof.
  intros Htext. unfold smartTranslate.
  rewrite (smartTranslate_guard text Htext). unfold resolveSource.
  destruct (tag_eqb src (Some auto)) eqn:Hauto.
  - destruct (detectLanguage_run text s)
      as (d & s1 & calls & Hrun & Hd & Htr & Htrace & Hcalls & _).
    exists (Some d), s1, calls. unfold bind, ret. rewrite Hrun.
    repeat split; try assumption; try discriminate.
    + intros _. now exists d.
    + destruct (JS.eqb _ _); [reflexivity|].
      now destruct (translate text (Some d) tgt s1) as [[t|e] s2].
  - exists src, s, []. unfold bind, ret. rewrite app_nil_r.
    repeat split; try discriminate.
    destruct (JS.eqb _ _); [reflexivity|].
    now destruct (translate text src tgt s) as [[t|e] s2].
Qed.

(** What [smartTranslate] can return and throw. *)
Lemma smartTranslate_cases (text : jsstring) (src tgt : tag) (s : state) :
  (forall r, fst (smartTranslate text src tgt s) = Ok r ->
     targetLanguage r = tgt
     /\ JS.truthy (result r) = true
     /\ (tag_eqb src (Some auto) = false -> sourceLanguage r = src)
     /\ (tag_eqb src (Some auto) = true ->
         exists d, sourceLanguage r = Some d /\ JS.truthy d = true))
  /\ (forall e, fst (smartTranslate text src tgt s) = Throw e ->
        (e = EmptyText /\ snd (smartTranslate text src tgt s) = s)
        \/ exists cause, e = TranslateFailed cause)
  /\ (tag_eqb src (Some auto) = false ->
      detector (snd (smartTranslate text src tgt s)) = detector s
      /\ exists calls,
           trace (snd (smartTranslate text src tgt s)) = trace s ++ calls
           /\ forallb isTranslatorCall calls = true).
Proof.
  destruct (JS.trim text) as [|c trimmed] eqn:Htrim.
  - assert (Hthrow : smartTranslate text src tgt s = (Throw EmptyText, s)).
    { unfold smartTranslate. rewrite Htrim. cbn [JS.truthy negb].
      now rewrite orb_true_r. }
    rewrite Hthrow. cbn [fst snd]. repeat split; try discriminate.
    + intros e He. inversion He. now left.
    + exists []. now rewrite app_nil_r.
  - assert (Htext : JS.trim text <> []) by (rewrite Htrim; discriminate).
    pose proof (trim_nil_truthy text Htext) as Htruthy.
    destruct (smartTranslate_run text src tgt s Htext)
      as (actual & s1 & calls & _ & _ & _ & _ & Hgiven & Hauto & Hrun).
    destruct (translate_run text actual tgt s1)
      as (Hdet & _ & Hcalls & Hok & Hfail).
    rewrite Hrun.
    destruct (JS.eqb (normalizeLanguage actual) (normalizeLanguage tgt)).
    + cbn [fst snd]. split; [|split].
      * intros r Hr. inversion Hr; subst r.
        cbn [targetLanguage result sourceLanguage].
        split; [reflexivity|]. split; [exact Htruthy|].
        split; [intros H; now destruct (Hgiven H) | exact Hauto].
      * intros e He. discriminate.
      * intros H. destruct (Hgiven H) as [Ha Hs]. subst actual s1.
        split; [reflexivity|]. exists []. now rewrite app_nil_r.
    + destruct (translate text actual tgt s1) as [[t|e] s2] eqn:Htranslate;
        cbn [fst snd] in *; (split; [|split]).
      * intros r Hr. inversion Hr; subst r.
        cbn [targetLanguage result sourceLanguage].
        split; [reflexivity|]. split.
        { destruct (Hok t eq_refl) as (_ & _ & H). now apply H. }
        split; [intros H; now destruct (Hgiven H) | exact Hauto].
      * intros e He. discriminate.
      * intros H. destruct (Hgiven H) as [Ha Hs]. subst actual s1.
        split; [exact Hdet|]. destruct (Hok t eq_refl) as (Htrace & _).
        now exists [TranslatorCreate src tgt; Translate text].
      * intros r Hr. discriminate.
      * intros e' He. inversion He; subst e'. right. now apply Hfail.
      * intros H. destruct (Hgiven H) as [Ha Hs]. subst actual s1.
        split; [exact Hdet|]. destruct hasTranslator eqn:Hhas.
        -- destruct (Hcalls eq_refl) as (calls' & Htrace & [-> | ->]);
             eexists; (split; [exact Htrace | reflexivity]).
        -- destruct (translate_run text src tgt s) as (_ & Hmiss & _).
           rewrite (Hmiss Hhas) in Htranslate. inversion Htranslate.
           exists []. now rewrite app_nil_r.
Qed.

(** X9: what [smartTranslate] can return and throw.  A result carries the
    target it was given and a non-empty text; its source is the given one,
    or, for 'auto', the non-empty tag that detection returned.  The only
    errors are the empty-text error, thrown with the core untouched, and a
    wrapped translation failure.  With a given source the detector is not
    used: every call made goes to the translation engine. *)
Theorem smartTranslate_outcome (text : jsstring) (src tgt : tag) (s : state) :
  (forall r, fst (smartTranslate text src tgt s) = Ok r ->
     targetLanguage r = tgt
     /\ JS.truthy (result r) = true
     /\ (tag_eqb src (Some auto) = false -> sourceLanguage r = src)
     /\ (tag_eqb src (Some auto) = true ->
         exists d, sourceLanguage r = Some d /\ JS.truthy d = true))
  /\ (forall e, fst (smartTranslate text src tgt s) = Throw e ->
        (e = EmptyText /\ snd (smartTranslate text src tgt s) = s)
        \/ exists cause, e = TranslateFailed cause)
  /\ (tag_eqb src (Some auto) = false ->
      detector (snd (smartTranslate text src tgt s)) = detector s
      /\ exists calls,
           trace (snd (smartTranslate text src tgt s)) = trace s ++ calls
           /\ forallb isTranslatorCall calls = true).
Proof. exact (smartTranslate_cases text src tgt s). Qed.

(** The loop of [batchTranslate] always runs to its end. *)
Lemma batchLoop_total (src tgt : tag) (onProgress : option callback)
  (total : nat) (texts : list jsstring) :
  forall i acc s,
  exists entries s',
    batchLoop src tgt onProgress total i texts acc s = (Ok (acc ++ entries), s')
    /\ List.length texts <= List.length entries <= 2 * List.length texts
    /\ (forall text, In text texts <-> In text (map original entries))
    /\ Forall (fun e => JS.truthy (original e) = true ->
                        JS.truthy (translated e) = true) entries.
Proof.
  induction texts as [|text rest IH]; intros i acc s.
  - exists [], s. cbn. rewrite app_nil_r. repeat split; auto.
  - cbn [batchLoop].
    destruct (smartTranslate_cases text src tgt s) as (Hok & _).
    destruct (smartTranslate text src tgt s) as [[r|e] s1].
    + destruct (Hok r eq_refl) as (_ & Hr & _).
      destruct (afterItem onProgress i total r s1) as [[u|e] s2].
      * destruct (IH (S i)
                    (acc ++ [mkEntry text (result r) (sourceLanguage r)]) s2)
          as (entries & s' & Hrun & Hlen & Hin & Hall).
        exists (mkEntry text (result r) (sourceLanguage r) :: entries), s'.
        rewrite Hrun, <- app_assoc. cbn [List.length map original].
        repeat split; try lia.
        -- intros [<-|H]; [now left | right; now apply Hin].
        -- intros [<-|H]; [now left | right; now apply Hin].
        -- constructor; [intros _; exact Hr | exact Hall].
      * destruct (IH (S i)
                    ((acc ++ [mkEntry text (result r) (sourceLanguage r)])
                       ++ [fallback text src]) s2)
          as (entries & s' & Hrun & Hlen & Hin & Hall).
        exists (mkEntry text (result r) (sourceLanguage r)
                  :: fallback text src :: entries), s'.
        rewrite Hrun, <- !app_assoc. cbn [List.length map original fallback].
        repeat split; try lia.
        -- intros [<-|H]; [now left | right; right; now apply Hin].
        -- intros [<-|[<-|H]]; [now left | now left | right; now apply Hin].
        -- constructor; [intros _; exact Hr|].
           constructor; [intros H; exact H | exact Hall].
    + destruct (IH (S i) (acc ++ [fallback text src]) s1)
        as (entries & s' & Hrun & Hlen & Hin & Hall).
      exists (fallback text src :: entries), s'.
      rewrite Hrun, <- app_assoc. cbn [List.length map original fallback].
      repeat split; try lia.
      * intros [<-|H]; [now left | right; now apply Hin].
      * intros [<-|H]; [now left | right; now apply Hin].
      * constructor; [intros H; exact H | exact Hall].
Qed.

(** X10: [batchTranslate] never throws, whatever the host and the progress
    callback do: it returns at least one entry per text and at most two,
    the originals of the entries are exactly the texts given, and no entry
    of a non-empty text has an empty translation. *)
Theorem batchTranslate_never_throws (texts : list jsstring) (src tgt : tag)
  (onProgress : option callback) (s : state) :
  exists entries s',
    batchTranslate texts src tgt onProgress s = (Ok entries, s')
    /\ List.length texts <= List.length entries <= 2 * List.length texts
    /\ (forall text, In text texts <-> In text (map original entries))
    /\ Forall (fun e => JS.truthy (original e) = true ->
                        JS.truthy (translated e) = true) entries.
Proof.
  exact (batchLoop_total src tgt onProgress (List.length texts) texts 0 [] s).
Qed.

End WithHost.

Lemma detectLanguage_never_throws_witness :
  let s := @mkState exampleHost None (Some tt) tt [] in
  @hasLanguageDetector exampleHost = true
  /\ detector s = Some tt
  /\ exists d s' calls,
       detectLanguage (host := exampleHost) (JS.lit "hello") s = (Ok d, s')
       /\ detector s' = Some tt
       /\ calls = [Detect (JS.lit "hello")].
Proof.
  split; [reflexivity|]. split; [reflexivity|].
  destruct (detectLanguage_never_throws (host := exampleHost)
              (JS.lit "hello") (@mkState exampleHost None (Some tt) tt []))
    as (d & s' & calls & Hrun & _ & _ & _ & _ & _ & Hcached).
  exists d, s', calls. split; [exact Hrun|].
  apply (Hcached tt); reflexivity.
Defined.

Lemma translate_outcome_witness :
  @hasTranslator exampleHost = true
  /\ exists calls,
       trace (snd (translate (host := exampleHost) (JS.lit "bad") (Some en)
                     (Some (JS.lit "zh")) freshCore))
       = trace freshCore ++ calls
       /\ (calls = [TranslatorCreate (Some en) (Some (JS.lit "zh"))]
           \/ calls = [TranslatorCreate (Some en) (Some (JS.lit "zh"));
                       Translate (JS.lit "bad")]).
Proof.
  split; [reflexivity|].
  destruct (translate_outcome (host := exampleHost) (JS.lit "bad") (Some en)
              (Some (JS.lit "zh")) freshCore) as (_ & _ & Hcalls & _).
  apply Hcalls. reflexivity.
Defined.

Lemma smartTranslate_outcome_witness :
  tag_eqb (Some en) (Some auto) = false
  /\ fst (smartTranslate (host := exampleHost) (JS.lit "hello") (Some en)
            (Some (JS.lit "zh")) freshCore)
     = Ok (mkResult (JS.lit "T:hello") (Some en) (Some (JS.lit "zh")))
  /\ detector (snd (smartTranslate (host := exampleHost) (JS.lit "hello")
                      (Some en) (Some (JS.lit "zh")) freshCore))
     = detector freshCore.
Proof.
  split; [reflexivity|]. split; [reflexivity|].
  destruct (smartTranslate_outcome (host := exampleHost) (JS.lit "hello")
              (Some en) (Some (JS.lit "zh")) freshCore) as (_ & _ & Hgiven).
  destruct (Hgiven eq_refl) as [Hdet _]. exact Hdet.
Defined.

End CoreFacts.

(** * Further properties of the scan and of the selection icon *)

Module ScanProps.
Import Normalizer Dom ContentTranslator JSProps DomProps PageProps.

(** X11: what a scan returns.  Every fragment of [getPageTextNodes] has a
    trimmed text of 1 to 500 code units with at least one letter or CJK
    character, lies outside every annotation marker, and is the child of an
    element that is no script, style, noscript, meta, title or head
    element, is not one of the extension's own elements or a marker, and
    has no marker anywhere below it. *)
Theorem getPageTextNodes_sound (d : Document) (ref : TextRef) :
  In ref (getPageTextNodes d) ->
  0 < JS.length (JS.trim (textContent ref)) <= 500
  /\ hasLinguisticContent (JS.trim (textContent ref)) = true
  /\ outsideMarkers d ref = true
  /\ exists parent,
       In (Text (ref_id ref) (textContent ref)) (children parent)
       /\ existsb (JS.eqb (JS.toLowerCase (tagNameOf parent))) nonContentTags
          = false
       /\ hasId iconId parent = false
       /\ hasId popupId parent = false
       /\ hasId progressId parent = false
       /\ isAnnotation parent = false
       /\ querySelector isAnnotation parent = None.
Proof.
  intros Hin.
  pose proof (getPageTextNodes_outside d ref Hin) as Hout.
  unfold getPageTextNodes in Hin.
  destruct (walkText_parent (body d) [] ref Hin)
    as (parent & rest & Hacc & Hshape).
  assert (Hchild : In (Text (ref_id ref) (textContent ref)) (children parent)).
  { destruct (body d); [|exact Hshape]. destruct Hshape; discriminate. }
  unfold acceptNode, closest in Hacc. cbn [find] in Hacc.
  destruct (existsb _ nonContentTags) eqn:Htag; [discriminate|].
  destruct (hasId iconId parent) eqn:Hicon; [discriminate|].
  destruct (hasId popupId parent) eqn:Hpopup;
    [cbn in Hacc; rewrite ?orb_true_r in Hacc; discriminate|].
  destruct (hasId progressId parent) eqn:Hprogress;
    [cbn in Hacc; rewrite ?orb_true_r in Hacc; discriminate|].
  destruct (isAnnotation parent) eqn:Hmark;
    [cbn in Hacc; rewrite ?orb_true_r in Hacc; discriminate|].
  destruct (_ || _ || _ || _ || _); [discriminate|].
  destruct ((JS.length (JS.trim (textContent ref)) =? 0)
            || (500 <? JS.length (JS.trim (textContent ref)))) eqn:Hlen;
    [discriminate|].
  apply orb_false_iff in Hlen as [H0 H500].
  apply Nat.eqb_neq in H0. apply Nat.ltb_ge in H500.
  destruct (hasLinguisticContent (JS.trim (textContent ref))) eqn:Hling;
    [|discriminate].
  destruct (querySelector isAnnotation parent) eqn:Hquery; [discriminate|].
  split; [lia|]. split; [reflexivity|]. split; [exact Hout|].
  exists parent. repeat split; assumption.
Qed.

Lemma getPageTextNodes_sound_witness :
  let d := pageOf nestedPage in
  let ref := mkRef 3 (JS.lit "Bold") in
  In ref (getPageTextNodes d)
  /\ 0 < JS.length (JS.trim (textContent ref)) <= 500
  /\ outsideMarkers d ref = true.
Proof.
  assert (Hin : In (mkRef 3 (JS.lit "Bold"))
                  (getPageTextNodes (pageOf nestedPage)))
    by (vm_compute; now left).
  split; [exact Hin|].
  destruct (getPageTextNodes_sound (pageOf nestedPage)
              (mkRef 3 (JS.lit "Bold")) Hin) as (Hlen & _ & Hout & _).
  split; [exact Hlen | exact Hout].
Defined.

Section WithBackground.
Context {bg : Background}.

Lemma Qltb_lt (a b : Q) : Qltb a b = true <-> (a < b)%Q.
Proof.
  unfold Qltb. rewrite negb_true_iff, <- not_true_iff_false, Qle_bool_iff.
  split; [apply Qnot_le_lt | apply Qlt_not_le].
Qed.

Lemma Qltb_ge (a b : Q) : Qltb a b = false <-> (b <= a)%Q.
Proof.
  unfold Qltb. rewrite negb_false_iff. apply Qle_bool_iff.
Qed.

(** X12: where the selection icon is put.  [showTranslationIcon] replaces
    whatever icon and popup there was by one icon that carries the selected
    text.  In a viewport at least 52px wide the icon lies between the left
    and the right margin; and when the selection does not end above the
    viewport the icon is not above the top margin. *)
Theorem showTranslationIcon_inside (selectedText : jsstring)
  (position : Position) (s : session) :
  let vp := viewport (document s) in
  let s' := showTranslationIcon selectedText position s in
  (iconSize + 2 * margin <= innerWidth vp)%Q ->
  exists i,
    icon (overlay (document s')) = Some i
    /\ popup (overlay (document s')) = false
    /\ iconText i = selectedText
    /\ (margin <= iconLeft i)%Q
    /\ (iconLeft i + iconSize <= innerWidth vp - margin)%Q
    /\ ((0 <= py position + pheight position)%Q -> (margin <= iconTop i)%Q).
Proof.
  cbv zeta. intros Hwide.
  exists (mkIcon selectedText (iconLeftAt (viewport (document s)) position)
            (iconTopAt (viewport (document s)) position)).
  split; [reflexivity|]. split; [reflexivity|]. split; [reflexivity|].
  cbn [iconLeft iconTop]. unfold iconLeftAt, iconTopAt, Qmaxb.
  unfold iconSize, margin in *.
  assert (Hhalf : (32 / 2 == 16)%Q) by reflexivity.
  split; [|split].
  - destruct (Qltb (px position - 32 / 2) 10) eqn:H1; [lra|].
    apply Qltb_ge in H1.
    destruct (Qltb (innerWidth (viewport (document s)) - 10)
                (px position - 32 / 2 + 32)) eqn:H2; lra.
  - destruct (Qltb (px position - 32 / 2) 10) eqn:H1; [lra|].
    destruct (Qltb (innerWidth (viewport (document s)) - 10)
                (px position - 32 / 2 + 32)) eqn:H2; [lra|].
    apply Qltb_ge in H2. lra.
  - intros Hbelow.
    destruct (Qltb (py position - 40) 10) eqn:H1.
    + destruct (Qltb (innerHeight (viewport (document s)) - 10)
                  (py position + pheight position + 10 + 32)) eqn:H2.
      * destruct (Qle_bool 10 (innerHeight (viewport (document s)) - 32 - 10))
          eqn:H3; [|lra].
        apply Qle_bool_iff in H3. exact H3.
      * lra.
    + apply Qltb_ge in H1. lra.
Qed.

End WithBackground.

Lemma showTranslationIcon_inside_witness :
  let s := sessionOn echoBackground tt nestedPage in
  (iconSize + 2 * margin <= innerWidth (viewport (document s)))%Q
  /\ exists i,
       icon (overlay (document
               (showTranslationIcon (JS.lit "Bold") (anchor box) s))) = Some i
       /\ (margin <= iconLeft i)%Q.
Proof.
  assert (Hwide : (iconSize + 2 * margin
                   <= innerWidth (viewport (document
                        (sessionOn echoBackground tt nestedPage))))%Q)
    by (vm_compute; discriminate).
  split; [exact Hwide|].
  destruct (showTranslationIcon_inside (JS.lit "Bold") (anchor box)
              (sessionOn echoBackground tt nestedPage) Hwide)
    as (i & Hicon & _ & _ & Hleft & _).
  exists i. split; [exact Hicon | exact Hleft].
Defined.

End ScanProps.

(** * Properties of the background service *)

Module WorkerProps.
Import Normalizer TranslationCore CoreCalls JSText BackgroundService.
Import JSProps CoreProps CoreFacts.

(** A pattern does not match across a prefix that holds none of its first
    unit. *)
Lemma includes_after (a : N) (p pre s : jsstring) :
  Forall (fun c => c <> a) pre ->
  includes (a :: p) (pre ++ s) = includes (a :: p) s.
Proof.
  induction 1 as [|c pre Hc _ IH]; [reflexivity|].
  cbn [app includes startsWith].
  destruct (N.eqb_spec a c) as [->|_]; [now elim Hc|].
  cbn [andb orb]. exact IH.
Qed.

(** The wrapping of the core does not change what the handlers make of a
    failure. *)
Lemma errorMessageFor_wrapped (message : jsstring) :
  errorMessageFor (translateFailedPrefix ++ message) = errorMessageFor message.
Proof.
  unfold errorMessageFor.
  assert (Hn : Forall (fun c : N => c <> 110%N) translateFailedPrefix)
    by (repeat constructor; discriminate).
  assert (Hm : Forall (fun c : N => c <> 109%N) translateFailedPrefix)
    by (repeat constructor; discriminate).
  change (JS.lit "not supported") with (110%N :: JS.lit "ot supported").
  change (JS.lit "model") with (109%N :: JS.lit "odel").
  change (JS.lit "network") with (110%N :: JS.lit "etwork").
  now rewrite !includes_after by assumption.
Qed.

Lemma isBlank_false (text : option jsstring) :
  isBlank text = false ->
  exists t, text = Some t /\ JS.truthy t = true /\ JS.trim t <> [].
Proof.
  destruct text as [t|]; [|discriminate]. cbn [isBlank].
  intros H. apply orb_false_iff in H as [Ht Hlen].
  exists t. split; [reflexivity|]. split.
  - now apply negb_false_iff in Ht.
  - apply Nat.eqb_neq in Hlen. intros Hnil. apply Hlen.
    unfold JS.length. now rewrite Hnil.
Qed.

Section WithHost.
Context {host : Host}.

(** What [handleTranslateRequest] does, case by case. *)
Lemma handleTranslateRequest_run (text : option jsstring) (src tgt : tag)
  (w : worker) :
  exists r st,
    handleTranslateRequest text src tgt w
    = (Ok tt, mkWorker st (responses w ++ [r]) (sent w))
    /\ (isBlank text = true -> r = Failure emptyTextMessage /\ st = core w)
    /\ (isBlank text = false -> maxTextLength < JS.length (textOf text) ->
        r = Failure tooLongMessage /\ st = core w)
    /\ (isBlank text = false -> JS.length (textOf text) <= maxTextLength ->
        hasTranslator = false ->
        r = Failure unsupportedMessage /\ st = core w)
    /\ (isBlank text = false -> JS.length (textOf text) <= maxTextLength ->
        hasTranslator = true ->
        st = snd (smartTranslate (textOf text) src tgt (core w))
        /\ match fst (smartTranslate (textOf text) src tgt (core w)) with
           | Ok res =>
               r = Success (result res) (sourceLanguage res) (targetLanguage res)
           | Throw e =>
               exists cause,
                 e = TranslateFailed cause
                 /\ r = Failure (errorMessageFor (messageOf cause))
           end).
Proof.
  unfold handleTranslateRequest, attempt.
  destruct (isBlank text) eqn:Hblank.
  { exists (Failure emptyTextMessage), (core w).
    split; [reflexivity|]. repeat split; discriminate. }
  destruct (Nat.ltb_spec maxTextLength (JS.length (textOf text))) as [Hlong|Hshort].
  { exists (Failure tooLongMessage), (core w).
    split; [reflexivity|]. repeat split; try discriminate; lia. }
  destruct hasTranslator eqn:Hhas; cbn [negb].
  2:{ exists (Failure unsupportedMessage), (core w).
      split; [reflexivity|]. repeat split; try discriminate; lia. }
  destruct (isBlank_false text Hblank) as (t & -> & _ & Htrim).
  cbn [textOf] in *.
  destruct (smartTranslate_cases t src tgt (core w)) as (_ & Hthrow & _).
  unfold andThen, await, sendResponse.
  destruct (smartTranslate t src tgt (core w)) as [[res|e] st] eqn:Hrun;
    cbn [fst snd core responses sent] in *.
  - exists (Success (result res) (sourceLanguage res) (targetLanguage res)), st.
    split; [reflexivity|]. repeat split; try discriminate; lia.
  - destruct (Hthrow e eq_refl) as [[-> Hsame] | (cause & ->)].
    + exfalso.
      destruct (smartTranslate_run t src tgt (core w) Htrim)
        as (actual & s1 & calls & _ & _ & _ & _ & _ & _ & Heq).
      rewrite Hrun in Heq.
      destruct (JS.eqb _ _); [discriminate|].
      destruct (translate_run t actual tgt s1) as (_ & _ & _ & _ & Hfail).
      destruct (translate t actual tgt s1) as [[x|e'] s2]; [discriminate|].
      destruct (Hfail e' eq_refl) as (cause & ->). discriminate.
    + exists (Failure (errorMessageFor (messageOf cause))), st.
      cbn [messageOf]. rewrite errorMessageFor_wrapped.
      split; [reflexivity|]. repeat split; try discriminate; try lia.
      now exists cause.
Qed.

(** X13: [handleTranslateRequest] never throws, answers exactly once and
    sends nothing to any tab.  A message without text, or with a text that
    is empty or white space only, is answered with the empty-text error; a
    longer text than 5000 code units with the length error; and, without
    the Translator API, any other with the unsupported-browser error, even
    when source and target are the same language.  In these three cases the
    core is not touched. *)
Theorem handleTranslateRequest_guards (text : option jsstring) (src tgt : tag)
  (w : worker) :
  exists r w',
    handleTranslateRequest text src tgt w = (Ok tt, w')
    /\ responses w' = responses w ++ [r]
    /\ sent w' = sent w
    /\ (isBlank text = true -> r = Failure emptyTextMessage /\ core w' = core w)
    /\ (isBlank text = false -> maxTextLength < JS.length (textOf text) ->
        r = Failure tooLongMessage /\ core w' = core w)
    /\ (isBlank text = false -> JS.length (textOf text) <= maxTextLength ->
        hasTranslator = false ->
        r = Failure unsupportedMessage /\ core w' = core w).
Proof.
  destruct (handleTranslateRequest_run text src tgt w)
    as (r & st & Hrun & Hblank & Hlong & Hmissing & _).
  exists r, (mkWorker st (responses w ++ [r]) (sent w)).
  split; [exact Hrun|]. split; [reflexivity|]. split; [reflexivity|].
  cbn [core]. split; [exact Hblank|]. split; [exact Hlong | exact Hmissing].
Qed.

(** X14: a request that passes the guards is answered from
    [smartTranslate]: with its result when it returns, and, when it throws,
    with the message chosen from the message of the failure underneath
    ('not supported', then 'model', then 'network', else the retry
    message).  The wrapping of the core in front of that message does not
    change the choice, and the empty-text error of the core never reaches
    the handler. *)
Theorem handleTranslateRequest_engine (text : jsstring) (src tgt : tag)
  (w : worker) :
  isBlank (Some text) = false ->
  JS.length text <= maxTextLength ->
  hasTranslator = true ->
  exists r,
    handleTranslateRequest (Some text) src tgt w
    = (Ok tt, mkWorker (snd (smartTranslate text src tgt (core w)))
                (responses w ++ [r]) (sent w))
    /\ match fst (smartTranslate text src tgt (core w)) with
       | Ok res =>
           r = Success (result res) (sourceLanguage res) (targetLanguage res)
       | Throw e =>
           exists cause,
             e = TranslateFailed cause
             /\ r = Failure (errorMessageFor (messageOf cause))
       end.
Proof.
  intros Hblank Hlen Hhas.
  destruct (handleTranslateRequest_run (Some text) src tgt w)
    as (r & st & Hrun & _ & _ & _ & Hengine).
  destruct (Hengine Hblank Hlen Hhas) as [-> Hr].
  exists r. split; [exact Hrun | exact Hr].
Qed.

End WithHost.

Lemma handleTranslateRequest_guards_witness :
  isBlank (Some (JS.lit "  ")) = true
  /\ exists r w',
       handleTranslateRequest (host := exampleHost) (Some (JS.lit "  "))
         (Some auto) (Some en) (freshWorker freshCore) = (Ok tt, w')
       /\ responses w' = [r]
       /\ r = Failure emptyTextMessage
       /\ core w' = freshCore.
Proof.
  split; [reflexivity|].
  destruct (handleTranslateRequest_guards (host := exampleHost)
              (Some (JS.lit "  ")) (Some auto) (Some en)
              (freshWorker freshCore))
    as (r & w' & Hrun & Hanswers & _ & Hblank & _).
  exists r, w'. split; [exact Hrun|]. split; [exact Hanswers|].
  apply Hblank. reflexivity.
Defined.

Lemma handleTranslateRequest_engine_witness :
  isBlank (Some (JS.lit "bad")) = false
  /\ JS.length (JS.lit "bad") <= maxTextLength
  /\ @hasTranslator exampleHost = true
  /\ exists r,
       handleTranslateRequest (host := exampleHost) (Some (JS.lit "bad"))
         (Some en) (Some (JS.lit "zh")) (freshWorker freshCore)
       = (Ok tt,
          mkWorker (snd (smartTranslate (host := exampleHost) (JS.lit "bad")
                           (Some en) (Some (JS.lit "zh")) freshCore))
            [r] []).
Proof.
  assert (Hblank : isBlank (Some (JS.lit "bad")) = false) by reflexivity.
  assert (Hlen : JS.length (JS.lit "bad") <= maxTextLength)
    by (unfold maxTextLength; cbn; lia).
  split; [exact Hblank|]. split; [exact Hlen|]. split; [reflexivity|].
  destruct (handleTranslateRequest_engine (host := exampleHost) (JS.lit "bad")
              (Some en) (Some (JS.lit "zh")) (freshWorker freshCore)
              Hblank Hlen eq_refl) as (r & Hrun & _).
  exists r. exact Hrun.
Defined.

End WorkerProps.
(** * The content script over the service worker *)

Module JSFacts.

Lemma trimStart_app_solid (l r : jsstring) (c : N) :
  JS.isWhiteSpace c = false ->
  JS.trimStart (l ++ c :: r) = JS.trimStart l ++ c :: r.
Proof.
  intros Hc. induction l as [|a l IH]; cbn [app JS.trimStart].
  - now rewrite Hc.
  - destruct (JS.isWhiteSpace a); [exact IH | reflexivity].
Qed.

(** What [trimStart] leaves does not start with white space. *)
Lemma trimStart_head (s : jsstring) :
  match JS.trimStart s with
  | [] => True
  | c :: _ => JS.isWhiteSpace c = false
  end.
Proof.
  induction s as [|a s IH]; cbn [JS.trimStart]; [exact I|].
  destruct (JS.isWhiteSpace a) eqn:Ha; [exact IH | exact Ha].
Qed.

Lemma trimStart_solid (c : N) (r : jsstring) :
  JS.isWhiteSpace c = false -> JS.trimStart (c :: r) = c :: r.
Proof. intros Hc. cbn [JS.trimStart]. now rewrite Hc. Qed.

Lemma trimStart_idempotent (s : jsstring) :
  JS.trimStart (JS.trimStart s) = JS.trimStart s.
Proof.
  pose proof (trimStart_head s) as H.
  destruct (JS.trimStart s) as [|c r]; [reflexivity|].
  now apply trimStart_solid.
Qed.

Lemma trimEnd_idempotent (s : jsstring) :
  JS.trimEnd (JS.trimEnd s) = JS.trimEnd s.
Proof.
  unfold JS.trimEnd. now rewrite rev_involutive, trimStart_idempotent.
Qed.

Lemma trimEnd_solid (c : N) (r : jsstring) :
  JS.isWhiteSpace c = false ->
  JS.trimEnd (c :: r) = c :: rev (JS.trimStart (rev r)).
Proof.
  intros Hc. unfold JS.trimEnd. cbn [rev].
  rewrite (trimStart_app_solid (rev r) [] c Hc), rev_app_distr.
  reflexivity.
Qed.

(** Trimming a trimmed string changes nothing. *)
Lemma trim_idempotent (s : jsstring) : JS.trim (JS.trim s) = JS.trim s.
Proof.
  unfold JS.trim. pose proof (trimStart_head s) as H.
  destruct (JS.trimStart s) as [|c r]; [reflexivity|].
  rewrite (trimEnd_solid c r H), (trimStart_solid _ _ H).
  rewrite <- (trimEnd_solid c r H). apply trimEnd_idempotent.
Qed.

End JSFacts.

Module SweepFacts.
Import Normalizer Dom ContentTranslator JSProps DomProps PageProps.

Section WithBackground.
Context {bg : Background}.

(** A sweep over a background that keeps [I] and whose every reply makes a
    failure marker: every fragment gets the failure marker and nothing is
    counted. *)
Lemma sweepLoop_failing (I : B -> Prop) (cancelDuring : nat -> bool)
  (src tgt : tag) (total : nat) (nodes : list TextRef) :
  (forall x b,
     qualifies (JS.trim x) = true -> I b ->
     I (snd (sendTranslateText (JS.trim x) src tgt b))
     /\ annotationFor (fst (sendTranslateText (JS.trim x) src tgt b))
          (JS.trim x) = Failed) ->
  forall i count s,
    I (backend s) ->
    (forall node, In node nodes -> outsideMarkers (document s) node = true) ->
    I (backend (snd (sweepLoop cancelDuring src tgt total i nodes count s)))
    /\ fst (sweepLoop cancelDuring src tgt total i nodes count s) = count
    /\ attached
         (log (snd (sweepLoop cancelDuring src tgt total i nodes count s)))
       = attached (log s)
         ++ map (fun n => (ref_id n, Failed))
              (filter (fun n => qualifies (JS.trim (textContent n))) nodes).
Proof.
  intros Hfail. induction nodes as [|node rest IH]; intros i count s HI Hout.
  - cbn. rewrite app_nil_r. now repeat split.
  - rewrite sweepLoop_cons. cbn [filter].
    assert (Hrest : forall n, In n rest -> outsideMarkers (document s) n = true)
      by (intros n Hn; apply Hout; now right).
    destruct (qualifies (JS.trim (textContent node))) eqn:Hq; [|now apply IH].
    cbv zeta.
    destruct (sweep_step (cancelDuring i) (i <? total - 1) src tgt
                (SweepAt (i + 1) total) node (JS.trim (textContent node)) s
                (Hout node (or_introl eq_refl)))
      as (Hreply & Heff & Hout4).
    cbv zeta in Hreply, Heff, Hout4.
    destruct (Hfail (textContent node) (backend s) Hq HI) as [HI' Hfailed].
    rewrite Hreply, Hfailed in *.
    set (s4 := if i <? total - 1 then _ else _) in *.
    apply effects_inv in Heff as (Hb & _ & Ha & _).
    destruct (IH (S i) count s4) as (HI4 & Hcount & Hmarks).
    { now rewrite Hb. }
    { intros n Hn. rewrite Hout4. now apply Hrest. }
    cbn [isTranslatedCall snd map].
    split; [exact HI4|]. split; [exact Hcount|].
    rewrite Hmarks, Ha, <- app_assoc. reflexivity.
Qed.

End WithBackground.

End SweepFacts.

Module ExtensionProps.
Import Normalizer TranslationCore CoreCalls JSText BackgroundService.
Import Dom ContentTranslator SelectionPopup Extension.
Import JSProps JSFacts CoreProps CoreFacts WorkerProps PageProps SweepFacts.

Lemma errorMessageFor_refusal (message : jsstring) :
  In (errorMessageFor message)
     [languagePairMessage; modelMessage; networkMessage; retryMessage].
Proof.
  unfold errorMessageFor.
  destruct (includes (JS.lit "not supported") message); [now left|].
  destruct (includes (JS.lit "model") message); [right; now left|].
  destruct (includes (JS.lit "network") message);
    [right; right; now left | right; right; right; now left].
Qed.

(** None of the refusals names an API: the popup shows each of them behind
    its "translation failed" prefix. *)
Lemma popupErrorFor_refusal (e : jsstring) :
  In e refusals -> popupErrorFor e = failedPrefix ++ e.
Proof.
  intros Hin. repeat (destruct Hin as [<-|Hin]; [reflexivity|]).
  destruct Hin.
Qed.

Lemma updateTranslationPopup_loading (p : Popup) (r : PopupResult) :
  loading (updateTranslationPopup p r) = false.
Proof.
  unfold updateTranslationPopup.
  destruct (succeeded r), (shownResult r) as [t|]; try reflexivity.
  now destruct (JS.truthy t).
Qed.

Section WithHost.
Context {host : Host}.

(** The reply the content script gets for a TRANSLATE_TEXT request. *)
Lemma worker_reply (text : jsstring) (src tgt : tag) (w : worker) :
  exists r st,
    sendTranslateText (Background := workerBackground) text src tgt w
    = (settle [r], mkWorker st (responses w ++ [r]) (sent w))
    /\ (isBlank (Some text) = true ->
        r = Failure emptyTextMessage /\ st = core w)
    /\ (isBlank (Some text) = false -> maxTextLength < JS.length text ->
        r = Failure tooLongMessage /\ st = core w)
    /\ (isBlank (Some text) = false -> JS.length text <= maxTextLength ->
        hasTranslator = false ->
        r = Failure unsupportedMessage /\ st = core w)
    /\ (isBlank (Some text) = false -> JS.length text <= maxTextLength ->
        hasTranslator = true ->
        st = snd (smartTranslate text src tgt (core w))
        /\ match fst (smartTranslate text src tgt (core w)) with
           | Ok res =>
               r = Success (result res) (TranslationCore.sourceLanguage res)
                     (TranslationCore.targetLanguage res)
           | Throw e =>
               exists cause,
                 e = TranslateFailed cause
                 /\ r = Failure (errorMessageFor (messageOf cause))
           end).
Proof.
  destruct (handleTranslateRequest_run (Some text) src tgt w)
    as (r & st & Hrun & Hcases).
  exists r, st. split; [|exact Hcases].
  cbn [sendTranslateText workerBackground]. rewrite Hrun.
  cbn [snd responses]. rewrite skipn_app, skipn_all, Nat.sub_diag.
  reflexivity.
Qed.

(** A reply is a non-empty result or one of the refusals. *)
Lemma worker_reply_kinds (text : jsstring) (src tgt : tag) (w : worker) :
  (exists t, fst (sendTranslateText (Background := workerBackground)
                    text src tgt w) = Resolved (Some t)
             /\ JS.truthy t = true)
  \/ (exists e, fst (sendTranslateText (Background := workerBackground)
                       text src tgt w) = Rejected e
                /\ In e refusals
                /\ (JS.trim text <> [] -> JS.length text <= maxTextLength ->
                    e <> emptyTextMessage /\ e <> tooLongMessage)).
Proof.
  destruct (worker_reply text src tgt w)
    as (r & st & -> & Hblank & Hlong & Hmissing & Hengine).
  cbn [fst].
  assert (Hclass : forall m,
            In (errorMessageFor m) refusals
            /\ errorMessageFor m <> emptyTextMessage
            /\ errorMessageFor m <> tooLongMessage).
  { intros m. pose proof (errorMessageFor_refusal m) as Hin.
    repeat (destruct Hin as [<-|Hin];
            [split; [unfold refusals; cbn; tauto | split; discriminate]|]).
    destruct Hin. }
  destruct (isBlank (Some text)) eqn:Hb.
  { destruct (Hblank eq_refl) as [-> _]. right. exists emptyTextMessage.
    split; [reflexivity|]. split; [now left|].
    intros Htrim _. exfalso. cbn [isBlank] in Hb.
    rewrite (trim_nil_truthy text Htrim) in Hb. cbn [negb orb] in Hb.
    apply Nat.eqb_eq in Hb. apply Htrim.
    now apply length_zero_iff_nil. }
  destruct (Nat.ltb_spec maxTextLength (JS.length text)) as [Hl|Hl].
  { destruct (Hlong eq_refl Hl) as [-> _]. right. exists tooLongMessage.
    split; [reflexivity|]. split; [right; now left|]. intros _ Hle. lia. }
  destruct hasTranslator eqn:Hhas.
  2:{ destruct (Hmissing eq_refl Hl eq_refl) as [-> _]. right.
      exists unsupportedMessage. split; [reflexivity|].
      split; [right; right; now left|]. intros _ _. split; discriminate. }
  destruct (Hengine eq_refl Hl eq_refl) as [_ Hr].
  destruct (smartTranslate_cases text src tgt (core w)) as (Hok & _).
  destruct (fst (smartTranslate text src tgt (core w))) as [res|e].
  - subst r. left. exists (result res). split; [reflexivity|].
    now destruct (Hok res eq_refl) as (_ & H & _).
  - destruct Hr as (cause & _ & ->). right.
    exists (errorMessageFor (messageOf cause)). split; [reflexivity|].
    destruct (Hclass (messageOf cause)) as (Hin & H1 & H2).
    split; [exact Hin|]. intros _ _. now split.
Qed.

(** Over the worker, a request for a fragment of a sweep whose given source
    is the language of the target leaves the core as it is and makes a
    failure marker. *)
Lemma worker_same_language (src tgt : tag) (x : jsstring) (w : worker) :
  tag_eqb src (Some auto) = false ->
  normalizeLanguage src = normalizeLanguage tgt ->
  qualifies (JS.trim x) = true ->
  core (snd (sendTranslateText (Background := workerBackground)
               (JS.trim x) src tgt w)) = core w
  /\ annotationFor
       (fst (sendTranslateText (Background := workerBackground)
               (JS.trim x) src tgt w)) (JS.trim x) = Failed.
Proof.
  intros Hgiven Hsame Hq.
  apply andb_true_iff in Hq as [Hpos Hmax].
  apply Nat.ltb_lt in Hpos. apply Nat.leb_le in Hmax.
  assert (Htrim : JS.trim (JS.trim x) <> []).
  { rewrite trim_idempotent. intros Hnil. rewrite Hnil in Hpos.
    cbn in Hpos. lia. }
  assert (Hblank : isBlank (Some (JS.trim x)) = false).
  { cbn [isBlank]. rewrite (trim_nil_truthy _ Htrim). cbn [negb orb].
    apply Nat.eqb_neq. intros H0. apply Htrim.
    now apply length_zero_iff_nil. }
  assert (Hlen : JS.length (JS.trim x) <= maxTextLength)
    by (unfold maxTextLength; lia).
  destruct (worker_reply (JS.trim x) src tgt w)
    as (r & st & -> & _ & _ & Hmissing & Hengine).
  cbn [fst snd core].
  destruct hasTranslator eqn:Hhas.
  - destruct (Hengine Hblank Hlen eq_refl) as [-> Hr].
    destruct (smartTranslate_run (JS.trim x) src tgt (core w) Htrim)
      as (actual & s1 & calls & _ & _ & _ & _ & Hsrc & _ & Hrun).
    destruct (Hsrc Hgiven) as [-> ->].
    rewrite Hsame, eqb_refl in Hrun. rewrite Hrun in Hr |- *.
    cbn [fst snd result] in *. subst r. split; [reflexivity|].
    cbn [settle annotationFor]. now rewrite eqb_refl, andb_false_r.
  - destruct (Hmissing Hblank Hlen eq_refl) as [-> ->].
    now split.
Qed.

(** X15: a page in the language of the target.  When the source of a sweep
    is given (not 'auto') and normalizes to the same language as the target,
    the worker answers every request with the text itself, which the sweep
    takes for a failure: every visible fragment gets the failure marker,
    the result counts no translation and reports failure, the page is not
    flagged translated, and the core of the worker is left as it was: no
    detection and no engine call is made.  This holds with and without the
    Translator API and whatever is cancelled on the way. *)
Theorem sweep_same_language (cancelDuring : nat -> bool) (src tgt : tag)
  (s : session (bg := workerBackground)) :
  let src' := orTag src (ContentTranslator.sourceLanguage
                           (languagePreferences s)) in
  let tgt' := orTag tgt (ContentTranslator.targetLanguage
                           (languagePreferences s)) in
  let visible := getVisibleTextNodes (document s) in
  let run := handleTranslatePage cancelDuring src tgt s in
  tag_eqb src' (Some auto) = false ->
  normalizeLanguage src' = normalizeLanguage tgt' ->
  visible <> [] ->
  fst run = mkPageResult false (Some 0) None
  /\ isPageTranslated (snd run) = false
  /\ attached (log (snd run))
     = attached (log s) ++ map (fun n => (ref_id n, Failed)) visible
  /\ core (backend (snd run)) = core (backend s).
Proof.
  cbv zeta. intros Hgiven Hsame Hne.
  destruct (handleTranslatePage_sweep cancelDuring src tgt s Hne)
    as (Hr & Hflag & Heff).
  cbv zeta in Hr, Hflag, Heff.
  set (src' := orTag src (ContentTranslator.sourceLanguage
                            (languagePreferences s))) in *.
  set (tgt' := orTag tgt (ContentTranslator.targetLanguage
                            (languagePreferences s))) in *.
  set (s0 := showTranslationProgress (SweepStarting src' tgt') s) in *.
  destruct (sweepLoop_failing (bg := workerBackground)
              (fun b : worker => core b = core (backend s))
              cancelDuring src' tgt'
              (List.length (getVisibleTextNodes (document s)))
              (getVisibleTextNodes (document s)))
    with (i := 0) (count := 0) (s := s0) as (Hcore & Hcount & Hmarks).
  - intros x b Hq Hb.
    destruct (worker_same_language src' tgt' x b Hgiven Hsame Hq)
      as [Hkeep Hfailed].
    split; [now rewrite Hkeep | exact Hfailed].
  - reflexivity.
  - intros node Hin. exact (getVisibleTextNodes_outside _ node Hin).
  - rewrite visible_all_qualify in Hmarks.
    apply effects_inv in Heff as (Hb & _ & Ha & _).
    rewrite Hr, Hflag, Hcount, Ha, Hb. repeat split.
    + exact Hmarks.
    + exact Hcore.
Qed.

(** X16: the selection popup over the worker.  [showTranslationPopup]
    removes the icon, sends one request with source 'auto' and shows a popup
    that is not loading and displays either a non-empty translation or an
    error, never both.  The error is always a refusal of the worker behind
    the "translation failed" prefix: the two messages the popup has for a
    missing LanguageDetector or Translator API are never shown.  For a text
    that is not blank and has at most 5000 code units, as every text that
    comes from the selection handler, the refusal is not about the text. *)
Theorem showTranslationPopup_over_worker (selectedText : jsstring)
  (position : Position) (s : session (bg := workerBackground)) :
  let shown := fst (showTranslationPopup selectedText position s) in
  let s' := snd (showTranslationPopup selectedText position s) in
  popup (overlay (document s')) = true
  /\ icon (overlay (document s')) = None
  /\ loading shown = false
  /\ requests (log s')
     = requests (log s)
       ++ [mkRequest selectedText (Some auto)
             (ContentTranslator.targetLanguage (languagePreferences s))]
  /\ ((exists t, translatedText shown = Some t
                 /\ errorText shown = None
                 /\ JS.truthy t = true)
      \/ (exists e, translatedText shown = None
                    /\ errorText shown = Some (failedPrefix ++ e)
                    /\ In e refusals
                    /\ (JS.trim selectedText <> [] ->
                        JS.length selectedText <= maxTextLength ->
                        e <> emptyTextMessage /\ e <> tooLongMessage))).
Proof.
  cbv zeta. unfold showTranslationPopup, translateText.
  cbn [backend hideOverlay setOverlay setDocument languagePreferences].
  pose proof (worker_reply_kinds selectedText (Some auto)
                (ContentTranslator.targetLanguage (languagePreferences s))
                (backend s)) as Hkinds.
  destruct (sendTranslateText selectedText (Some auto)
              (ContentTranslator.targetLanguage (languagePreferences s))
              (backend s)) as [reply b].
  cbn [fst] in Hkinds.
  destruct Hkinds as [(t & -> & Ht) | (e & -> & Hin & Hfits)];
    cbn [createTranslationPopup fst snd].
  - do 2 (split; [reflexivity|]).
    split; [apply updateTranslationPopup_loading|].
    split; [reflexivity|]. left. exists t.
    unfold updateTranslationPopup.
    cbn [succeeded shownResult shownError]. rewrite Ht.
    now repeat split.
  - do 2 (split; [reflexivity|]).
    split; [apply updateTranslationPopup_loading|].
    split; [reflexivity|]. right. exists e.
    unfold updateTranslationPopup.
    cbn [succeeded shownResult shownError translatedText errorText].
    rewrite (popupErrorFor_refusal e Hin).
    split; [reflexivity|]. split; [reflexivity|].
    split; [exact Hin | exact Hfits].
Qed.

End WithHost.

Lemma sweep_same_language_witness :
  let s := sessionOn (workerBackground (host := exampleHost))
             (freshWorker freshCore) (paragraphs 2) in
  let src := Some (JS.lit "zh_TW") in
  tag_eqb (orTag src (ContentTranslator.sourceLanguage
                        (languagePreferences s))) (Some auto) = false
  /\ getVisibleTextNodes (document s) <> []
  /\ fst (handleTranslatePage (fun _ => false) src None s)
     = mkPageResult false (Some 0) None.
Proof.
  split; [reflexivity|]. split; [vm_compute; discriminate|].
  apply (sweep_same_language (host := exampleHost) (fun _ => false)
           (Some (JS.lit "zh_TW")) None
           (sessionOn (workerBackground (host := exampleHost))
              (freshWorker freshCore) (paragraphs 2))).
  - reflexivity.
  - reflexivity.
  - vm_compute. discriminate.
Defined.

Lemma showTranslationPopup_over_worker_witness :
  let s := attachSession (bg := workerBackground (host := exampleHost))
             (mkPrefs (Some auto) (Some en)) None (pageOf nestedPage)
             (freshWorker freshCore) in
  JS.trim (JS.lit "bad") <> []
  /\ JS.length (JS.lit "bad") <= maxTextLength
  /\ exists e,
       errorText (fst (showTranslationPopup (JS.lit "bad") (anchor box) s))
       = Some (failedPrefix ++ e)
       /\ e <> emptyTextMessage /\ e <> tooLongMessage.
Proof.
  assert (Htrim : JS.trim (JS.lit "bad") <> []) by (vm_compute; discriminate).
  assert (Hlen : JS.length (JS.lit "bad") <= maxTextLength)
    by (unfold maxTextLength; cbn; lia).
  split; [exact Htrim|]. split; [exact Hlen|].
  destruct (showTranslationPopup_over_worker (host := exampleHost)
              (JS.lit "bad") (anchor box)
              (attachSession (bg := workerBackground (host := exampleHost))
                 (mkPrefs (Some auto) (Some en)) None (pageOf nestedPage)
                 (freshWorker freshCore)))
    as (_ & _ & _ & _ & [(t & Ht & _) | (e & _ & He & _ & Hfits)]).
  - vm_compute in Ht. discriminate.
  - exists e. split; [exact He|]. exact (Hfits Htrim Hlen).
Defined.

End ExtensionProps.

(** * Properties of the streaming handler *)

Module StreamProps.
Import Normalizer TranslationCore CoreCalls JSText BackgroundService Streaming.
Import JSProps NormalizerProps CoreProps CoreFacts WorkerProps.

(** The segments of a split, glued with the separator, give the string
    back. *)
Lemma split_join (sep : N) (s : jsstring) :
  exists c rest,
    JS.split sep s = c :: rest
    /\ c ++ List.concat (map (cons sep) rest) = s
    /\ List.length rest = count_occ N.eq_dec s sep.
Proof.
  induction s as [|a s (c & rest & Hsplit & Hjoin & Hcount)].
  - exists [], []. now repeat split.
  - cbn [JS.split count_occ]. rewrite Hsplit.
    destruct (N.eqb_spec a sep) as [->|Hne].
    + exists [], (c :: rest). cbn [map List.concat app List.length].
      destruct (N.eq_dec sep sep) as [_|H]; [|now elim H].
      rewrite Hjoin, Hcount. now repeat split.
    + exists (a :: c), rest. cbn [app].
      destruct (N.eq_dec a sep) as [H|_]; [now elim Hne|].
      rewrite Hjoin. now repeat split.
Qed.

(** The local normalizer of the streaming handler is the normalizer of the
    core. *)
Lemma norm_normalizeLanguage (language : tag) :
  norm language = normalizeLanguage language.
Proof.
  destruct language as [[|c l]|]; reflexivity.
Qed.

Lemma Streamed_chunks (requestId : nat) (acc final : jsstring)
  (msgs : list tabMessage) :
  Streamed requestId acc msgs final ->
  final = acc ++ List.concat (map chunkOf msgs) /\ msgs <> [].
Proof.
  induction 1 as [acc chunk | acc chunk rest final Hne _ [IH _]].
  - cbn. rewrite app_nil_r. split; [reflexivity | discriminate].
  - cbn [map List.concat chunkOf]. rewrite IH, <- app_assoc.
    split; [reflexivity | discriminate].
Qed.

Section WithHost.
Context {host : Host}.

(** One iteration of the loop over the chunks. *)
Lemma streamChunks_cons (senderTab : option nat) (requestId total i : nat)
  (c : jsstring) (rest : list jsstring) (acc : jsstring) (w : worker) :
  streamChunks senderTab requestId total i (c :: rest) acc w
  = streamChunks senderTab requestId total (S i) rest
      (acc ++ (if i =? 0 then [] else [space]) ++ c)
      (mkWorker
         (if i <? total - 1
          then mkState (translator (core w)) (detector (core w))
                 (world (core w)) (trace (core w) ++ [Sleep 50])
          else core w)
         (responses w)
         (match senderTab with
          | Some tabId =>
              sent w
              ++ [(tabId,
                   STREAMING_CHUNK requestId
                     ((if i =? 0 then [] else [space]) ++ c)
                     (acc ++ (if i =? 0 then [] else [space]) ++ c)
                     (i =? total - 1))]
          | None => sent w
          end)).
Proof.
  destruct w as [st answers outbox]. cbn [streamChunks].
  unfold andThen, toSender, tabsSendMessage, await, sleep, done.
  destruct senderTab as [tabId|]; destruct (i <? total - 1); reflexivity.
Qed.

(** The loop streams its chunks in order and returns them glued. *)
Lemma streamChunks_run (senderTab : option nat) (requestId total : nat)
  (rest : list jsstring) :
  forall c i acc w,
    i + S (List.length rest) = total ->
    exists msgs st,
      streamChunks senderTab requestId total i (c :: rest) acc w
      = (Ok (acc ++ (if i =? 0 then [] else [space]) ++ c
               ++ List.concat (map (cons space) rest)),
         mkWorker st (responses w)
           (match senderTab with
            | Some tabId => sent w ++ map (pair tabId) msgs
            | None => sent w
            end))
      /\ Streamed requestId acc msgs
           (acc ++ (if i =? 0 then [] else [space]) ++ c
              ++ List.concat (map (cons space) rest))
      /\ List.length msgs = S (List.length rest)
      /\ trace st = trace (core w) ++ repeat (Sleep 50) (List.length rest)
      /\ translator st = translator (core w)
      /\ detector st = detector (core w)
      /\ world st = world (core w).
Proof.
  induction rest as [|c2 rest IH]; intros c i acc w Htotal;
    rewrite streamChunks_cons.
  - assert (Hlast : (i =? total - 1) = true)
      by (apply Nat.eqb_eq; cbn in Htotal; lia).
    assert (Hpace : (i <? total - 1) = false)
      by (apply Nat.ltb_ge; cbn in Htotal; lia).
    rewrite Hlast, Hpace. cbn [map List.concat List.length repeat].
    rewrite !app_nil_r.
    exists [STREAMING_CHUNK requestId ((if i =? 0 then [] else [space]) ++ c)
              (acc ++ (if i =? 0 then [] else [space]) ++ c) true], (core w).
    split; [reflexivity|]. split; [apply StreamedLast|].
    now repeat split.
  - assert (Hlast : (i =? total - 1) = false)
      by (apply Nat.eqb_neq; cbn in Htotal; lia).
    assert (Hpace : (i <? total - 1) = true)
      by (apply Nat.ltb_lt; cbn in Htotal; lia).
    rewrite Hlast, Hpace.
    set (chunk := (if i =? 0 then [] else [space]) ++ c).
    set (w1 := mkWorker _ _ _).
    destruct (IH c2 (S i) (acc ++ chunk) w1)
      as (msgs & st & Hrun & Hstream & Hlen & Htrace & Htr & Hdet & Hworld).
    { cbn [List.length] in Htotal. lia. }
    cbn [Nat.eqb] in Hrun, Hstream.
    assert (Hfinal : (acc ++ chunk) ++ [space] ++ c2
                       ++ List.concat (map (cons space) rest)
                     = acc ++ (if i =? 0 then [] else [space]) ++ c
                         ++ List.concat (map (cons space) (c2 :: rest))).
    { subst chunk. cbn [map List.concat app]. now rewrite <- !app_assoc. }
    rewrite Hfinal in Hrun, Hstream.
    exists (STREAMING_CHUNK requestId chunk (acc ++ chunk) false :: msgs), st.
    rewrite Hrun. subst w1. cbn [responses sent core] in *.
    split.
    { destruct senderTab as [tabId|]; [|reflexivity].
      cbn [map]. now rewrite <- app_assoc. }
    split.
    { apply StreamedMore; [|exact Hstream].
      intros ->. cbn in Hlen. discriminate. }
    split; [cbn [List.length]; now rewrite Hlen|].
    cbn [trace translator detector world] in *.
    split; [|now repeat split].
    rewrite Htrace, <- app_assoc. reflexivity.
Qed.

(** The inner [try] block when the translation returns: the chunks are
    streamed, then the completion message carries the whole translation. *)
Lemma streamTranslation_ok (text : jsstring) (actual tgt : tag)
  (requestId : nat) (senderTab : option nat) (w : worker)
  (res : TranslationResult) (st0 : state) :
  smartTranslate text actual tgt (core w) = (Ok res, st0) ->
  exists msgs st,
    streamTranslation text actual tgt requestId senderTab w
    = (Ok tt,
       mkWorker st (responses w)
         (match senderTab with
          | Some tabId =>
              sent w
              ++ map (pair tabId)
                   (msgs ++ [STREAMING_COMPLETE requestId (result res)])
          | None => sent w
          end))
    /\ Streamed requestId [] msgs (result res)
    /\ List.length msgs = S (count_occ N.eq_dec (result res) space)
    /\ trace st
       = trace st0
         ++ repeat (Sleep 50) (count_occ N.eq_dec (result res) space)
    /\ translator st = translator st0
    /\ detector st = detector st0
    /\ world st = world st0.
Proof.
  intros Hrun. destruct w as [st1 answers outbox]. cbn [core] in Hrun.
  unfold streamTranslation, attempt, andThen at 1, await.
  cbn [core responses sent]. rewrite Hrun.
  destruct (split_join space (result res))
    as (c & rest & Hsplit & Hjoin & Hcount).
  rewrite Hsplit. unfold andThen.
  destruct (streamChunks_run senderTab requestId (List.length (c :: rest))
              rest c 0 [] (mkWorker st0 answers outbox) eq_refl)
    as (msgs & st & Hchunks & Hstream & Hlen & Htrace & Hkeep).
  cbn [Nat.eqb app] in Hchunks, Hstream. rewrite Hjoin in Hchunks, Hstream.
  rewrite Hchunks. cbn [core responses sent] in *.
  exists msgs, st. rewrite <- Hcount.
  split; [|now repeat split].
  destruct senderTab as [tabId|]; cbn [toSender]; [|reflexivity].
  unfold tabsSendMessage. cbn [core responses sent].
  now rewrite map_app, app_assoc.
Qed.

(** The inner [try] block when the translation throws: its [catch] block
    sends the error message to the tab, if there is one. *)
Lemma streamTranslation_throw (text : jsstring) (actual tgt : tag)
  (requestId : nat) (senderTab : option nat) (w : worker)
  (e : error) (st0 : state) :
  smartTranslate text actual tgt (core w) = (Throw e, st0) ->
  streamTranslation text actual tgt requestId senderTab w
  = (Ok tt,
     mkWorker st0 (responses w)
       (match senderTab with
        | Some tabId => sent w ++ [(tabId, STREAMING_ERROR requestId retryMessage)]
        | None => sent w
        end)).
Proof.
  intros Hrun. destruct w as [st1 answers outbox]. cbn [core] in Hrun.
  unfold streamTranslation, attempt, andThen, await.
  cbn [core responses sent]. rewrite Hrun.
  now destruct senderTab.
Qed.

(** The inner [try] block never throws, answers nothing and, without a
    tab, sends nothing. *)
Lemma streamTranslation_quiet (text : jsstring) (actual tgt : tag)
  (requestId : nat) (senderTab : option nat) (w : worker) :
  exists w',
    streamTranslation text actual tgt requestId senderTab w = (Ok tt, w')
    /\ responses w' = responses w
    /\ (senderTab = None -> sent w' = sent w).
Proof.
  destruct (smartTranslate text actual tgt (core w)) as [[res|e] st0] eqn:Hrun.
  - destruct (streamTranslation_ok text actual tgt requestId senderTab w
                res st0 Hrun) as (msgs & st & -> & _).
    eexists. split; [reflexivity|]. split; [reflexivity|].
    now intros ->.
  - rewrite (streamTranslation_throw text actual tgt requestId senderTab w
               e st0 Hrun).
    eexists. split; [reflexivity|]. split; [reflexivity|].
    now intros ->.
Qed.

(** The handler from the comparison of the languages on. *)
Lemma respondOrStream_run (text : jsstring) (actual tgt : tag)
  (requestId : nat) (senderTab : option nat) (w : worker) :
  hasTranslator = true ->
  exists r w',
    respondOrStream text actual tgt requestId senderTab w = (Ok tt, w')
    /\ responses w' = responses w ++ [r]
    /\ (senderTab = None -> sent w' = sent w)
    /\ ((normalizeLanguage actual = normalizeLanguage tgt
         /\ r = Direct text actual tgt
         /\ core w' = core w /\ sent w' = sent w)
        \/ (normalizeLanguage actual <> normalizeLanguage tgt
            /\ r = Started requestId
            /\ streamTranslation text actual tgt requestId senderTab
                 (mkWorker (core w) (responses w ++ [Started requestId])
                    (sent w))
               = (Ok tt, w'))).
Proof.
  intros Hhas. unfold respondOrStream.
  rewrite !norm_normalizeLanguage, Hhas. cbn [negb].
  destruct (JS.eqb (normalizeLanguage actual) (normalizeLanguage tgt)) eqn:Heq.
  - apply eqb_eq in Heq.
    exists (Direct text actual tgt),
      (mkWorker (core w) (responses w ++ [Direct text actual tgt]) (sent w)).
    split; [reflexivity|]. split; [reflexivity|]. split; [reflexivity|].
    left. now repeat split.
  - apply eqb_neq in Heq. unfold andThen, sendResponse.
    destruct (streamTranslation_quiet text actual tgt requestId senderTab
                (mkWorker (core w) (responses w ++ [Started requestId])
                   (sent w))) as (w' & Hrun & Hanswers & Hsent).
    exists (Started requestId), w'.
    split; [exact Hrun|]. split; [exact Hanswers|]. split; [exact Hsent|].
    right. now repeat split.
Qed.

(** What the streaming handler answers, case by case. *)
Lemma handleStreamingTranslateRequest_run (text : option jsstring)
  (src tgt : tag) (requestId : nat) (senderTab : option nat) (w : worker) :
  exists r w',
    handleStreamingTranslateRequest text src tgt requestId senderTab w
    = (Ok tt, w')
    /\ responses w' = responses w ++ [r]
    /\ (senderTab = None -> sent w' = sent w)
    /\ ((exists error,
           r = Failure error
           /\ In error [emptyTextMessage; tooLongMessage; unsupportedMessage;
                        detectorUnavailableMessage]
           /\ core w' = core w /\ sent w' = sent w)
        \/ (exists actual,
              r = Direct (textOf text) actual tgt
              /\ normalizeLanguage actual = normalizeLanguage tgt
              /\ sent w' = sent w
              /\ engineCalls (trace (core w')) = engineCalls (trace (core w)))
        \/ r = Started requestId).
Proof.
  unfold handleStreamingTranslateRequest, attempt.
  destruct (isBlank text) eqn:Hblank.
  { eexists; eexists. split; [reflexivity|]. split; [reflexivity|].
    split; [reflexivity|]. left. exists emptyTextMessage.
    cbn. tauto. }
  destruct (maxTextLength <? JS.length (textOf text)).
  { eexists; eexists. split; [reflexivity|]. split; [reflexivity|].
    split; [reflexivity|]. left. exists tooLongMessage.
    cbn. tauto. }
  destruct hasTranslator eqn:Hhas; cbn [negb].
  2:{ eexists; eexists. split; [reflexivity|]. split; [reflexivity|].
      split; [reflexivity|]. left. exists unsupportedMessage.
      cbn. tauto. }
  destruct (tag_eqb src (Some auto)) eqn:Hauto; cbn [andb].
  - destruct hasLanguageDetector; cbn [negb].
    2:{ eexists; eexists. split; [reflexivity|]. split; [reflexivity|].
        split; [reflexivity|]. left. exists detectorUnavailableMessage.
        cbn. tauto. }
    destruct (detectLanguage_run (textOf text) (core w))
      as (d & st & calls & Hrun & Hd & _ & Htrace & Hcalls & _).
    unfold andThen at 1, detectLanguage, attempt, andThen, await, done.
    rewrite Hrun, Hd.
    set (w1 := mkWorker st (responses w) (sent w)).
    destruct (respondOrStream_run (textOf text) (Some d) tgt requestId
                senderTab w1 Hhas)
      as (r & w' & -> & Hanswers & Hsent & Hcases).
    exists r, w'. split; [reflexivity|]. split; [exact Hanswers|].
    split; [exact Hsent|].
    destruct Hcases as [(Hsame & -> & Hcore & Hkeep) | (_ & -> & _)].
    + right; left. exists (Some d). split; [reflexivity|].
      split; [exact Hsame|]. split; [exact Hkeep|].
      rewrite Hcore. cbn [w1 core]. rewrite Htrace.
      unfold engineCalls. rewrite filter_app.
      assert (Hnone : filter isTranslatorCall calls = []).
      { clear - Hcalls. induction calls as [|c calls IH]; [reflexivity|].
        cbn [forallb] in Hcalls. apply andb_true_iff in Hcalls as [Hc Hrest].
        cbn [filter]. destruct c; try discriminate; now apply IH. }
      now rewrite Hnone, app_nil_r.
    + right; right. reflexivity.
  - destruct (respondOrStream_run (textOf text) src tgt requestId senderTab
                w Hhas)
      as (r & w' & -> & Hanswers & Hsent & Hcases).
    exists r, w'. split; [reflexivity|]. split; [exact Hanswers|].
    split; [exact Hsent|].
    destruct Hcases as [(Hsame & -> & Hcore & Hkeep) | (_ & -> & _)].
    + right; left. exists src. split; [reflexivity|].
      split; [exact Hsame|]. split; [exact Hkeep|]. now rewrite Hcore.
    + right; right. reflexivity.
Qed.

(** X17: the streaming handler never throws and answers exactly once.  Its
    answer is a refusal before anything is asked of the core (empty text,
    text too long, no Translator API, no detector for 'auto'), or the text
    itself when source and target are the same language, and then the
    engine is not called and no message is sent, or the announcement that
    streaming starts.  So the answers "detection failed" and "translator
    unavailable" that the handler has are never given, and a failure of the
    translation is never in the answer.  A sender without a tab is sent
    nothing. *)
Theorem handleStreamingTranslateRequest_answers (text : option jsstring)
  (src tgt : tag) (requestId : nat) (senderTab : option nat) (w : worker) :
  exists r w',
    handleStreamingTranslateRequest text src tgt requestId senderTab w
    = (Ok tt, w')
    /\ responses w' = responses w ++ [r]
    /\ (senderTab = None -> sent w' = sent w)
    /\ ((exists error,
           r = Failure error
           /\ In error [emptyTextMessage; tooLongMessage; unsupportedMessage;
                        detectorUnavailableMessage]
           /\ core w' = core w /\ sent w' = sent w)
        \/ (exists actual,
              r = Direct (textOf text) actual tgt
              /\ normalizeLanguage actual = normalizeLanguage tgt
              /\ sent w' = sent w
              /\ engineCalls (trace (core w')) = engineCalls (trace (core w)))
        \/ r = Started requestId).
Proof.
  exact (handleStreamingTranslateRequest_run text src tgt requestId senderTab w).
Qed.

(** X18: what the tab receives.  For a request with a given source that
    passes the guards and whose languages differ, the handler announces the
    streaming and translates.  When the translation returns, the tab gets
    one chunk message per word (one more than there are spaces in the
    translation), then the completion message with the whole translation:
    the chunks put together are the translation, each chunk message carries
    the text streamed so far, only the last is flagged complete, and the
    handler pauses 50ms between two chunks.  When the translation throws,
    the tab gets the error message and the answer still says that streaming
    started. *)
Theorem handleStreamingTranslateRequest_chunks (text : jsstring)
  (src tgt : tag) (requestId tabId : nat) (w : worker) :
  isBlank (Some text) = false ->
  JS.length text <= maxTextLength ->
  hasTranslator = true ->
  tag_eqb src (Some auto) = false ->
  normalizeLanguage src <> normalizeLanguage tgt ->
  exists w',
    handleStreamingTranslateRequest (Some text) src tgt requestId (Some tabId) w
    = (Ok tt, w')
    /\ responses w' = responses w ++ [Started requestId]
    /\ match smartTranslate text src tgt (core w) with
       | (Ok res, st0) =>
           exists msgs,
             sent w'
             = sent w
               ++ map (pair tabId)
                    (msgs ++ [STREAMING_COMPLETE requestId (result res)])
             /\ Streamed requestId [] msgs (result res)
             /\ List.concat (map chunkOf msgs) = result res
             /\ List.length msgs = S (count_occ N.eq_dec (result res) space)
             /\ trace (core w')
                = trace st0
                  ++ repeat (Sleep 50) (count_occ N.eq_dec (result res) space)
       | (Throw e, st0) =>
           sent w' = sent w ++ [(tabId, STREAMING_ERROR requestId retryMessage)]
           /\ core w' = st0
       end.
Proof.
  intros Hblank Hlen Hhas Hgiven Hdiffer.
  unfold handleStreamingTranslateRequest, attempt.
  rewrite Hblank, Hhas, Hgiven. cbn [textOf negb andb].
  assert (Hfits : (maxTextLength <? JS.length text) = false)
    by (apply Nat.ltb_ge; exact Hlen).
  rewrite Hfits. unfold respondOrStream.
  rewrite !norm_normalizeLanguage, Hhas. cbn [negb].
  apply eqb_neq in Hdiffer. rewrite Hdiffer.
  unfold andThen, sendResponse.
  set (w1 := mkWorker (core w) (responses w ++ [Started requestId]) (sent w)).
  destruct (smartTranslate text src tgt (core w)) as [[res|e] st0] eqn:Hrun.
  - destruct (streamTranslation_ok text src tgt requestId (Some tabId) w1
                res st0 Hrun)
      as (msgs & st & -> & Hstream & Hcount & Htrace & _).
    eexists. split; [reflexivity|]. split; [reflexivity|].
    exists msgs. cbn [sent core w1].
    split; [reflexivity|]. split; [exact Hstream|].
    split; [|split; [exact Hcount | exact Htrace]].
    now destruct (Streamed_chunks requestId [] (result res) msgs Hstream).
  - rewrite (streamTranslation_throw text src tgt requestId (Some tabId) w1
               e st0 Hrun).
    eexists. split; [reflexivity|]. split; [reflexivity|].
    now split.
Qed.

End WithHost.

Lemma handleStreamingTranslateRequest_answers_witness :
  exists r w',
    handleStreamingTranslateRequest (host := exampleHost)
      (Some (JS.lit "hello world")) (Some auto) (Some (JS.lit "zh-CN")) 7
      None (freshWorker freshCore) = (Ok tt, w')
    /\ responses w' = [r]
    /\ sent w' = [].
Proof.
  destruct (handleStreamingTranslateRequest_answers (host := exampleHost)
              (Some (JS.lit "hello world")) (Some auto)
              (Some (JS.lit "zh-CN")) 7 None (freshWorker freshCore))
    as (r & w' & Hrun & Hanswers & Hsent & _).
  exists r, w'. split; [exact Hrun|]. split; [exact Hanswers|].
  apply Hsent. reflexivity.
Defined.

Lemma handleStreamingTranslateRequest_chunks_witness :
  isBlank (Some (JS.lit "a b")) = false
  /\ JS.length (JS.lit "a b") <= maxTextLength
  /\ @hasTranslator exampleHost = true
  /\ tag_eqb (Some en) (Some auto) = false
  /\ normalizeLanguage (Some en) <> normalizeLanguage (Some (JS.lit "zh"))
  /\ exists w',
       handleStreamingTranslateRequest (host := exampleHost)
         (Some (JS.lit "a b")) (Some en) (Some (JS.lit "zh")) 7 (Some 3)
         (freshWorker freshCore) = (Ok tt, w')
       /\ responses w' = [Started 7].
Proof.
  assert (Hblank : isBlank (Some (JS.lit "a b")) = false) by reflexivity.
  assert (Hlen : JS.length (JS.lit "a b") <= maxTextLength)
    by (unfold maxTextLength; cbn; lia).
  assert (Hdiffer : normalizeLanguage (Some en)
                    <> normalizeLanguage (Some (JS.lit "zh")))
    by (vm_compute; discriminate).
  split; [exact Hblank|]. split; [exact Hlen|]. split; [reflexivity|].
  split; [reflexivity|]. split; [exact Hdiffer|].
  destruct (handleStreamingTranslateRequest_chunks (host := exampleHost)
              (JS.lit "a b") (Some en) (Some (JS.lit "zh")) 7 3
              (freshWorker freshCore) Hblank Hlen eq_refl eq_refl Hdiffer)
    as (w' & Hrun & Hanswers & _).
  exists w'. split; [exact Hrun | exact Hanswers].
Defined.

End StreamProps.

(** * Properties of the translation history *)

Module HistoryProps.
Import TranslationCore History.

Section Items.
Variable Item : Type.

(** [slice(-100)] keeps the last hundred. *)
Lemma slice_last (l : list Item) :
  slice Item (-100) l = skipn (List.length l - 100) l.
Proof.
  unfold slice. cbn [Z.ltb Z.compare]. f_equal. lia.
Qed.

(** A successful ADD_HISTORY puts the item first and keeps at most 999 of
    the entries there were. *)
Lemma handleAddHistory_store (item : Item) (s : store Item) :
  handleAddHistory Item None None item s
  = (Done Item, Some (item :: firstn 999 (orEmpty Item s))).
Proof.
  unfold handleAddHistory, splice. cbn [List.length].
  destruct (Nat.ltb_spec 1000 (S (List.length (orEmpty Item s)))) as [H|H].
  - change 1000 with (S 999). reflexivity.
  - now rewrite firstn_all2 by lia.
Qed.

Lemma handle_bounded (r : request Item) (s : store Item) :
  List.length (orEmpty Item s) <= 1000 ->
  List.length (orEmpty Item (snd (handle Item r s))) <= 1000.
Proof.
  intros Hs. destruct r as [g | g f item | f]; cbn [handle].
  - unfold handleGetHistory. now destruct g.
  - destruct g as [m|]; [exact Hs|]. destruct f as [m|].
    + unfold handleAddHistory. exact Hs.
    + rewrite handleAddHistory_store. cbn [snd orEmpty List.length].
      rewrite length_firstn. lia.
  - unfold handleClearHistory. destruct f; [exact Hs | cbn; lia].
Qed.

(** X19: the history is bounded.  Whatever the history messages and the
    failures of the storage area, a store of at most 1000 entries stays one,
    and a store that is not set is as good as empty; GET_HISTORY returns at
    most 100 entries, the last ones of the stored list; a successful
    ADD_HISTORY leaves the new entry first. *)
Theorem history_bounded (requests : list (request Item)) (s : store Item) :
  (List.length (orEmpty Item s) <= 1000 ->
   List.length (orEmpty Item (after Item requests s)) <= 1000)
  /\ (forall g data,
        fst (handleGetHistory Item g s) = Data Item data ->
        List.length data <= 100
        /\ exists older, orEmpty Item s = older ++ data)
  /\ (forall item,
        exists rest,
          snd (handleAddHistory Item None None item s) = Some (item :: rest)
          /\ List.length (item :: rest) <= 1000).
Proof.
  split; [|split].
  - revert s. induction requests as [|r requests IH]; intros s Hs;
      [exact Hs|].
    cbn [after fold_left]. apply IH. now apply handle_bounded.
  - intros [m|] data; cbn [handleGetHistory fst]; [discriminate|].
    intros Hdata. inversion Hdata as [Hslice]. rewrite slice_last.
    split.
    + rewrite length_skipn. lia.
    + exists (firstn (List.length (orEmpty Item s) - 100) (orEmpty Item s)).
      now rewrite firstn_skipn.
  - intros item. rewrite handleAddHistory_store. cbn [snd].
    exists (firstn 999 (orEmpty Item s)). split; [reflexivity|].
    cbn [List.length]. rewrite length_firstn. lia.
Qed.

(** X20: GET_HISTORY returns the oldest entries.  New entries are put
    first and GET_HISTORY returns the last hundred of the stored list: a new
    entry is returned only while fewer than 100 entries are stored before
    it; from then on what is returned after a successful ADD_HISTORY is a
    hundred entries from before it. *)
Theorem handleGetHistory_after_add (item : Item) (s : store Item) :
  let s' := snd (handleAddHistory Item None None item s) in
  (List.length (orEmpty Item s) < 100 ->
   fst (handleGetHistory Item None s') = Data Item (item :: orEmpty Item s))
  /\ (100 <= List.length (orEmpty Item s) ->
      exists older data,
        fst (handleGetHistory Item None s') = Data Item data
        /\ List.length data = 100
        /\ firstn 999 (orEmpty Item s) = older ++ data).
Proof.
  cbv zeta. rewrite handleAddHistory_store.
  cbn [snd handleGetHistory fst orEmpty]. rewrite slice_last.
  cbn [List.length]. rewrite length_firstn. split.
  - intros Hfew.
    replace (S (Nat.min 999 (List.length (orEmpty Item s))) - 100) with 0
      by lia.
    cbn [skipn]. now rewrite firstn_all2 by lia.
  - intros Hmany.
    set (h0 := firstn 999 (orEmpty Item s)).
    assert (Hlen : List.length h0 = Nat.min 999 (List.length (orEmpty Item s)))
      by apply length_firstn.
    replace (S (Nat.min 999 (List.length (orEmpty Item s))) - 100)
      with (S (List.length h0 - 100)) by lia.
    cbn [skipn].
    exists (firstn (List.length h0 - 100) h0), (skipn (List.length h0 - 100) h0).
    split; [reflexivity|]. split.
    + rewrite length_skipn. lia.
    + now rewrite firstn_skipn.
Qed.

End Items.

Lemma history_bounded_witness :
  List.length (orEmpty nat None) <= 1000
  /\ List.length
       (orEmpty nat
          (after nat [ADD_HISTORY nat None None 1;
                      CLEAR_HISTORY nat (Some (JS.lit "quota"));
                      ADD_HISTORY nat None None 2] None)) <= 1000.
Proof.
  assert (Hempty : List.length (orEmpty nat None) <= 1000) by (cbn; lia).
  split; [exact Hempty|].
  apply (history_bounded nat
           [ADD_HISTORY nat None None 1;
            CLEAR_HISTORY nat (Some (JS.lit "quota"));
            ADD_HISTORY nat None None 2] None).
  exact Hempty.
Defined.

Lemma handleGetHistory_after_add_witness :
  100 <= List.length (orEmpty nat (Some (seq 0 150)))
  /\ exists older data,
       fst (handleGetHistory nat None
              (snd (handleAddHistory nat None None 1000 (Some (seq 0 150)))))
       = Data nat data
       /\ List.length data = 100
       /\ firstn 999 (orEmpty nat (Some (seq 0 150))) = older ++ data.
Proof.
  assert (Hmany : 100 <= List.length (orEmpty nat (Some (seq 0 150))))
    by (cbn [orEmpty]; rewrite length_seq; lia).
  split; [exact Hmany|].
  apply (handleGetHistory_after_add nat 1000 (Some (seq 0 150))).
  exact Hmany.
Defined.

End HistoryProps.

(** * What a page sweep costs the translation engine *)

Module SweepCost.
Import Normalizer TranslationCore CoreCalls EngineCalls JSText BackgroundService.
Import Dom ContentTranslator Extension.
Import JSProps JSFacts CoreProps CoreFacts WorkerProps PageProps SweepFacts.
Import ExtensionProps.

Section WithBackground.
Context {bg : Background}.

(** The background after a sweep is the background after the requests for
    the fragments, one after the other. *)
Lemma sweepLoop_backend (cancelDuring : nat -> bool) (src tgt : tag)
  (total : nat) (nodes : list TextRef) :
  forall i count s,
    (forall node, In node nodes -> outsideMarkers (document s) node = true) ->
    backend (snd (sweepLoop cancelDuring src tgt total i nodes count s))
    = fold_left
        (fun b n => snd (sendTranslateText (JS.trim (textContent n)) src tgt b))
        (filter (fun n => qualifies (JS.trim (textContent n))) nodes)
        (backend s).
Proof.
  induction nodes as [|node rest IH]; intros i count s Hout; [reflexivity|].
  rewrite sweepLoop_cons. cbn [filter].
  assert (Hrest : forall n, In n rest -> outsideMarkers (document s) n = true)
    by (intros n Hn; apply Hout; now right).
  destruct (qualifies (JS.trim (textContent node))); [|now apply IH].
  cbv zeta.
  destruct (sweep_step (cancelDuring i) (i <? total - 1) src tgt
              (SweepAt (i + 1) total) node (JS.trim (textContent node)) s
              (Hout node (or_introl eq_refl)))
    as (_ & Heff & Hout4).
  cbv zeta in Heff, Hout4.
  set (s4 := if i <? total - 1 then _ else _) in *.
  apply effects_inv in Heff as (Hb & _).
  rewrite IH.
  - cbn [fold_left]. now rewrite Hb.
  - intros n Hn. rewrite Hout4. now apply Hrest.
Qed.

End WithBackground.

Section WithHost.
Context {host : Host}.

(** Over the worker, a request for a fragment whose given source is not the
    language of the target goes to [translate]. *)
Lemma worker_translates (src tgt : tag) (x : jsstring) (w : worker) :
  hasTranslator = true ->
  tag_eqb src (Some auto) = false ->
  normalizeLanguage src <> normalizeLanguage tgt ->
  qualifies (JS.trim x) = true ->
  core (snd (sendTranslateText (Background := workerBackground)
               (JS.trim x) src tgt w))
  = snd (translate (JS.trim x) src tgt (core w)).
Proof.
  intros Hhas Hgiven Hdiffer Hq.
  apply andb_true_iff in Hq as [Hpos Hmax].
  apply Nat.ltb_lt in Hpos. apply Nat.leb_le in Hmax.
  assert (Htrim : JS.trim (JS.trim x) <> []).
  { rewrite trim_idempotent. intros Hnil. rewrite Hnil in Hpos.
    cbn in Hpos. lia. }
  assert (Hblank : isBlank (Some (JS.trim x)) = false).
  { cbn [isBlank]. rewrite (trim_nil_truthy _ Htrim). cbn [negb orb].
    apply Nat.eqb_neq. intros H0. apply Htrim.
    now apply length_zero_iff_nil. }
  assert (Hlen : JS.length (JS.trim x) <= maxTextLength)
    by (unfold maxTextLength; lia).
  destruct (worker_reply (JS.trim x) src tgt w)
    as (r & st & -> & _ & _ & _ & Hengine).
  cbn [snd core].
  destruct (Hengine Hblank Hlen Hhas) as [-> _].
  destruct (smartTranslate_run (JS.trim x) src tgt (core w) Htrim)
    as (actual & s1 & calls & _ & _ & _ & _ & Hsrc & _ & Hrun).
  destruct (Hsrc Hgiven) as [-> ->].
  apply eqb_neq in Hdiffer. rewrite Hdiffer in Hrun. rewrite Hrun.
  now destruct (translate (JS.trim x) src tgt (core w)) as [[t|e] s2].
Qed.

Lemma requests_create (src tgt : tag) (nodes : list TextRef) :
  hasTranslator = true ->
  tag_eqb src (Some auto) = false ->
  normalizeLanguage src <> normalizeLanguage tgt ->
  forall w,
    (forall n, In n nodes -> qualifies (JS.trim (textContent n)) = true) ->
    exists calls,
      trace (core (fold_left
                     (fun b n =>
                        snd (sendTranslateText (Background := workerBackground)
                               (JS.trim (textContent n)) src tgt b))
                     nodes w))
      = trace (core w) ++ calls
      /\ forallb isTranslatorCall calls = true
      /\ List.length (filter isTranslatorCreate calls) = List.length nodes
      /\ detector (core (fold_left
                           (fun b n =>
                              snd (sendTranslateText
                                     (Background := workerBackground)
                                     (JS.trim (textContent n)) src tgt b))
                           nodes w))
         = detector (core w).
Proof.
  intros Hhas Hgiven Hdiffer.
  induction nodes as [|node rest IH]; intros w Hq.
  - exists []. cbn. now rewrite app_nil_r.
  - cbn [fold_left].
    set (w1 := snd (sendTranslateText (Background := workerBackground)
                      (JS.trim (textContent node)) src tgt w)).
    destruct (IH w1) as (calls & Htrace & Hcalls & Hcount & Hdet).
    { intros n Hn. apply Hq. now right. }
    pose proof (worker_translates src tgt (textContent node) w Hhas Hgiven
                  Hdiffer (Hq node (or_introl eq_refl))) as Hcore.
    fold w1 in Hcore.
    destruct (translate_run (JS.trim (textContent node)) src tgt (core w))
      as (Hdet1 & _ & Hstep & _).
    destruct (Hstep Hhas) as (calls1 & Htrace1 & Hkinds).
    rewrite <- Hcore in Hdet1, Htrace1.
    exists (calls1 ++ calls).
    rewrite Htrace, Htrace1, <- app_assoc, Hdet, Hdet1.
    split; [reflexivity|]. rewrite forallb_app, filter_app, length_app, Hcalls,
      Hcount.
    destruct Hkinds as [-> | ->]; now repeat split.
Qed.

(** X21: a translator for every fragment.  When a page is swept through the
    worker with a given source that is not the language of the target, the
    core asks the host for a new translator for every visible fragment: as
    many translators are created as there are visible fragments, none is
    reused from one fragment to the next, and nothing is asked of the
    language detector. *)
Theorem sweep_creates_translators (cancelDuring : nat -> bool)
  (src tgt : tag) (s : session (bg := workerBackground)) :
  let src' := orTag src (ContentTranslator.sourceLanguage
                           (languagePreferences s)) in
  let tgt' := orTag tgt (ContentTranslator.targetLanguage
                           (languagePreferences s)) in
  let s' := snd (handleTranslatePage cancelDuring src tgt s) in
  hasTranslator = true ->
  tag_eqb src' (Some auto) = false ->
  normalizeLanguage src' <> normalizeLanguage tgt' ->
  exists calls,
    trace (core (backend s')) = trace (core (backend s)) ++ calls
    /\ forallb isTranslatorCall calls = true
    /\ List.length (filter isTranslatorCreate calls)
       = List.length (getVisibleTextNodes (document s))
    /\ detector (core (backend s')) = detector (core (backend s)).
Proof.
  cbv zeta. intros Hhas Hgiven Hdiffer.
  destruct (getVisibleTextNodes (document s)) as [|n l] eqn:Hvis.
  - rewrite handleTranslatePage_empty by exact Hvis.
    exists []. cbn. now rewrite app_nil_r.
  - assert (Hne : getVisibleTextNodes (document s) <> [])
      by (rewrite Hvis; discriminate).
    destruct (handleTranslatePage_sweep cancelDuring src tgt s Hne)
      as (_ & _ & Heff).
    cbv zeta in Heff. apply effects_inv in Heff as (Hb & _).
    rewrite <- Hvis, Hb, sweepLoop_backend, visible_all_qualify.
    + apply requests_create; try assumption.
      intros node Hin. exact (getVisibleTextNodes_qualify _ node Hin).
    + intros node Hin. exact (getVisibleTextNodes_outside _ node Hin).
Qed.

End WithHost.

Lemma sweep_creates_translators_witness :
  let s := attachSession (bg := workerBackground (host := exampleHost))
             (mkPrefs (Some en) (Some (JS.lit "zh"))) None
             (pageOf (paragraphs 3)) (freshWorker freshCore) in
  @hasTranslator exampleHost = true
  /\ normalizeLanguage (Some en) <> normalizeLanguage (Some (JS.lit "zh"))
  /\ exists calls,
       trace (core (backend (snd (handleTranslatePage (fun _ => false)
                                    None None s))))
       = calls
       /\ List.length (filter isTranslatorCreate calls)
          = List.length (getVisibleTextNodes (document s)).
Proof.
  assert (Hdiffer : normalizeLanguage (Some en)
                    <> normalizeLanguage (Some (JS.lit "zh")))
    by (vm_compute; discriminate).
  split; [reflexivity|]. split; [exact Hdiffer|].
  destruct (sweep_creates_translators (host := exampleHost) (fun _ => false)
              None None
              (attachSession (bg := workerBackground (host := exampleHost))
                 (mkPrefs (Some en) (Some (JS.lit "zh"))) None
                 (pageOf (paragraphs 3)) (freshWorker freshCore))
              eq_refl eq_refl Hdiffer)
    as (calls & Htrace & _ & Hcount & _).
  exists calls. split; [exact Htrace | exact Hcount].
Defined.

End SweepCost.

(** * Where a marker is put, and what it does to later scans *)

Module MarkerProps.
Import Normalizer Dom ContentTranslator JSProps DomProps PageProps.






End MarkerProps.

(** * Every fragment gets the answer to its own text *)

Module Alignment.
Import Normalizer Dom ContentTranslator Replies.
Import JSProps DomProps PageProps.

Section WithBackground.
Context {bg : Background}.

Lemma repliesTo_length (src tgt : tag) (texts : list jsstring) :
  forall b, List.length (repliesTo src tgt texts b) = List.length texts.
Proof.
  induction texts as [|text rest IH]; intros b; [reflexivity|].
  cbn [repliesTo]. destruct (sendTranslateText text src tgt b) as [reply b'].
  cbn [List.length]. now rewrite IH.
Qed.

(** The loop of the full sweep pairs the fragments with the replies. *)
Lemma sweepLoop_aligned (cancelDuring : nat -> bool) (src tgt : tag)
  (total : nat) (nodes : list TextRef) :
  forall i count s,
    (forall node, In node nodes -> outsideMarkers (document s) node = true) ->
    (forall node, In node nodes -> qualifies (textOf node) = true) ->
    attached (log (snd (sweepLoop cancelDuring src tgt total i nodes count s)))
    = attached (log s)
      ++ map sweepMark
           (combine nodes (repliesTo src tgt (map textOf nodes) (backend s))).
Proof.
  induction nodes as [|node rest IH]; intros i count s Hout Hq.
  - cbn. now rewrite app_nil_r.
  - rewrite sweepLoop_cons.
    fold (textOf node). rewrite (Hq node (or_introl eq_refl)). cbv zeta.
    destruct (sweep_step (cancelDuring i) (i <? total - 1) src tgt
                (SweepAt (i + 1) total) node (textOf node) s
                (Hout node (or_introl eq_refl)))
      as (Hreply & Heff & Hout4).
    cbv zeta in Hreply, Heff, Hout4.
    set (s4 := if i <? total - 1 then _ else _) in *.
    apply effects_inv in Heff as (Hb & _ & Ha & _).
    rewrite IH.
    + rewrite Ha, Hb, Hreply, <- app_assoc. cbn [map repliesTo].
      destruct (sendTranslateText (textOf node) src tgt (backend s))
        as [reply b'].
      reflexivity.
    + intros n Hn. rewrite Hout4. apply Hout. now right.
    + intros n Hn. apply Hq. now right.
Qed.

(** The first loop of the scroll pass: one request per text, and the
    results pair the texts with what the replies give. *)
Lemma translateAll_aligned (src tgt : tag) (texts : list jsstring) :
  forall results s,
    fst (translateAll src tgt texts results s)
    = results
      ++ map (fun p => (fst p,
                        match snd p with
                        | Resolved (Some r) =>
                            if JS.truthy r then r else fst p
                        | _ => fst p
                        end))
           (combine texts (repliesTo src tgt texts (backend s)))
    /\ requests (log (snd (translateAll src tgt texts results s)))
       = requests (log s) ++ map (fun t => mkRequest t src tgt) texts
    /\ attached (log (snd (translateAll src tgt texts results s)))
       = attached (log s)
    /\ document (snd (translateAll src tgt texts results s)) = document s.
Proof.
  induction texts as [|text rest IH]; intros results s.
  - cbn. now rewrite !app_nil_r.
  - cbn [translateAll repliesTo map]. cbv zeta.
    destruct (translateText_effects text src tgt s) as (Hreply & Heff & Hdoc).
    apply effects_inv in Heff as (Hb & Hreq & Hatt & _).
    destruct (translateText text src tgt s) as [reply s1].
    cbn [fst snd] in *.
    destruct (sendTranslateText text src tgt (backend s)) as [reply' b'].
    cbn [fst snd] in *. subst reply' b'.
    destruct (IH (results
                    ++ [(text,
                         match reply with
                         | Resolved (Some r) => if JS.truthy r then r else text
                         | Resolved None => text
                         | Rejected _ => text
                         end)]) s1) as (Hres & Hreqs & Hattached & Hdocument).
    rewrite Hres, Hreqs, Hattached, Hdocument, Hreq, Hatt, Hdoc.
    rewrite <- !app_assoc. cbn [combine map fst snd app].
    repeat split.
Qed.

(** The second loop of the scroll pass, on nodes that all qualify and
    results that start at the index of the first node. *)
Lemma applyResults_aligned (nodes : list TextRef) :
  forall (replies : list response) (before : list (jsstring * jsstring))
         (after : list (jsstring * jsstring)) s,
    List.length replies = List.length nodes ->
    (forall node, In node nodes -> outsideMarkers (document s) node = true) ->
    (forall node, In node nodes -> qualifies (textOf node) = true) ->
    attached
      (log (applyResults nodes
              (before
                 ++ map (fun p => (fst p,
                                   match snd p with
                                   | Resolved (Some r) =>
                                       if JS.truthy r then r else fst p
                                   | _ => fst p
                                   end))
                      (combine (map textOf nodes) replies)
                 ++ after)
              (List.length before) s))
    = attached (log s) ++ flat_map scrollMark (combine nodes replies).
Proof.
  induction nodes as [|node rest IH];
    intros replies before after s Hlen Hout Hq.
  - cbn. now rewrite app_nil_r.
  - destruct replies as [|reply replies]; [discriminate|].
    cbn [applyResults]. fold (textOf node).
    rewrite (Hq node (or_introl eq_refl)). cbv zeta.
    cbn [map combine fst snd].
    rewrite nth_error_app2, Nat.sub_diag by lia. cbn [app nth_error].
    set (translated := match reply with
                       | Resolved (Some r) =>
                           if JS.truthy r then r else textOf node
                       | _ => textOf node
                       end).
    set (s1 := if negb (JS.eqb translated (textOf node))
               then appendTranslationToNode node (Translated translated) s
               else s).
    assert (Hs1 : attached (log s1)
                  = attached (log s) ++ scrollMark (node, reply)
                  /\ forall m, outsideMarkers (document s1) m
                               = outsideMarkers (document s) m).
    { subst s1 translated. unfold scrollMark. cbn [fst snd].
      destruct reply as [[r|]|m];
        try (rewrite eqb_refl; cbn [negb]; rewrite app_nil_r; now split).
      destruct (JS.truthy r); cbn [andb];
        [|rewrite eqb_refl; cbn [negb]; rewrite app_nil_r; now split].
      destruct (negb (JS.eqb r (textOf node)));
        [|rewrite app_nil_r; now split].
      split; [|intros m; apply appendTranslationToNode_outside].
      pose proof (appendTranslationToNode_effects node (Translated r) s
                    (Hout node (or_introl eq_refl))) as Heff.
      now apply effects_inv in Heff as (_ & _ & Ha & _). }
    destruct Hs1 as [Ha Hout1].
    change (before
              ++ (textOf node, translated)
                 :: map (fun p => (fst p,
                                   match snd p with
                                   | Resolved (Some r) =>
                                       if JS.truthy r then r else fst p
                                   | _ => fst p
                                   end))
                      (combine (map textOf rest) replies) ++ after)
      with (before
              ++ [(textOf node, translated)]
              ++ map (fun p => (fst p,
                                match snd p with
                                | Resolved (Some r) =>
                                    if JS.truthy r then r else fst p
                                | _ => fst p
                                end))
                   (combine (map textOf rest) replies) ++ after).
    rewrite app_assoc.
    replace (S (List.length before))
      with (List.length (before ++ [(textOf node, translated)]))
      by (rewrite length_app; cbn; lia).
    rewrite IH.
    + rewrite Ha, <- app_assoc. reflexivity.
    + cbn [List.length] in Hlen. lia.
    + intros n Hn. rewrite Hout1. apply Hout. now right.
    + intros n Hn. apply Hq. now right.
Qed.

(** The scroll pass pairs the newly visible fragments with the replies. *)
Lemma translateNewlyVisibleContent_aligned (src tgt : tag) (s : session) :
  isPageTranslated s = true ->
  let nodes := newlyVisibleNodes (document s) in
  requests (log (translateNewlyVisibleContent src tgt s))
  = requests (log s) ++ map (fun n => mkRequest (textOf n) src tgt) nodes
  /\ attached (log (translateNewlyVisibleContent src tgt s))
     = attached (log s)
       ++ flat_map scrollMark
            (combine nodes
               (repliesTo src tgt (map textOf nodes) (backend s))).
Proof.
  intros Hflag. cbv zeta. unfold translateNewlyVisibleContent.
  rewrite Hflag. cbn [negb]. cbv zeta.
  fold (newlyVisibleNodes (document s)).
  assert (Hin : forall node, In node (newlyVisibleNodes (document s)) ->
                             In node (getPageTextNodes (document s)))
    by (intros node H; now apply filter_In in H).
  assert (Htexts : filter qualifies
                     (map (fun n => JS.trim (textContent n))
                        (newlyVisibleNodes (document s)))
                   = map textOf (newlyVisibleNodes (document s))).
  { apply forallb_filter_id, forallb_forall. intros text Htext.
    apply in_map_iff in Htext as (node & <- & Hnode).
    exact (getPageTextNodes_qualify _ node (Hin node Hnode)). }
  rewrite Htexts.
  destruct (newlyVisibleNodes (document s)) as [|n l] eqn:Hnodes.
  + cbn. now rewrite !app_nil_r.
  + rewrite <- Hnodes in *. rewrite length_map.
    assert (Hlen : (List.length (newlyVisibleNodes (document s)) =? 0)
                   = false) by (rewrite Hnodes; reflexivity).
    rewrite Hlen.
    destruct (translateAll_aligned src tgt
                (map textOf (newlyVisibleNodes (document s))) [] s)
      as (Hres & Hreq & Hatt & Hdoc).
    destruct (translateAll src tgt
                (map textOf (newlyVisibleNodes (document s))) [] s)
      as [results s1].
    cbn [fst snd app] in Hres, Hreq, Hatt, Hdoc.
    destruct (SessionProps.applyResults_frame
                (newlyVisibleNodes (document s)) results 0 s1)
      as (_ & _ & _ & _ & Hsame & _).
    cbv zeta in Hsame. rewrite Hsame, Hreq, map_map. split; [reflexivity|].
    rewrite Hres, <- (app_nil_r (map _ (combine _ _))).
    change 0 with (List.length (@nil (jsstring * jsstring))).
    rewrite <- (app_nil_l
                  (map _ (combine (map textOf _) _) ++ [])).
    rewrite applyResults_aligned.
    * now rewrite Hatt.
    * now rewrite repliesTo_length, length_map.
    * intros node H. rewrite Hdoc.
      exact (getPageTextNodes_outside _ node (Hin node H)).
    * intros node H.
      exact (getPageTextNodes_qualify _ node (Hin node H)).
Qed.

(** X23: every fragment gets the answer to its own text.  In the full sweep
    the marker attached to the i-th visible fragment is made from the reply
    to the i-th request, which carries the text of that fragment; in the
    scroll pass the i-th newly visible fragment gets the translation that
    the reply to its own text carries, or nothing.  No pass attaches to a
    fragment the answer to the text of another one. *)
Theorem passes_aligned (cancelDuring : nat -> bool) (src tgt : tag)
  (s : session) :
  (let src' := orTag src (sourceLanguage (languagePreferences s)) in
   let tgt' := orTag tgt (targetLanguage (languagePreferences s)) in
   let visible := getVisibleTextNodes (document s) in
   attached (log (snd (handleTranslatePage cancelDuring src tgt s)))
   = attached (log s)
     ++ map sweepMark
          (combine visible
             (repliesTo src' tgt' (map textOf visible) (backend s))))
  /\ (isPageTranslated s = true ->
      let nodes := newlyVisibleNodes (document s) in
      requests (log (translateNewlyVisibleContent src tgt s))
      = requests (log s) ++ map (fun n => mkRequest (textOf n) src tgt) nodes
      /\ attached (log (translateNewlyVisibleContent src tgt s))
         = attached (log s)
           ++ flat_map scrollMark
                (combine nodes
                   (repliesTo src tgt (map textOf nodes) (backend s)))).
Proof.
  split.
  - cbv zeta.
    destruct (getVisibleTextNodes (document s)) as [|n l] eqn:Hvis.
    + rewrite handleTranslatePage_empty by exact Hvis. cbn.
      now rewrite app_nil_r.
    + assert (Hne : getVisibleTextNodes (document s) <> [])
        by (rewrite Hvis; discriminate).
      destruct (handleTranslatePage_sweep cancelDuring src tgt s Hne)
        as (_ & _ & Heff).
      cbv zeta in Heff. apply effects_inv in Heff as (_ & _ & Ha & _).
      rewrite <- Hvis, Ha. rewrite sweepLoop_aligned.
      * reflexivity.
      * intros node Hin. exact (getVisibleTextNodes_outside _ node Hin).
      * intros node Hin. exact (getVisibleTextNodes_qualify _ node Hin).
  - exact (translateNewlyVisibleContent_aligned src tgt s).
Qed.

End WithBackground.

Lemma passes_aligned_witness :
  let s := snd (handleTranslatePage (fun _ => false) None None
                  (sessionOn echoBackground tt (paragraphs 2))) in
  isPageTranslated s = true
  /\ requests (log (translateNewlyVisibleContent None None s))
     = requests (log s)
       ++ map (fun n => mkRequest (textOf n) None None)
            (newlyVisibleNodes (document s)).
Proof.
  assert (Hflag : isPageTranslated
                    (snd (handleTranslatePage (fun _ => false) None None
                            (sessionOn echoBackground tt (paragraphs 2))))
                  = true) by (vm_compute; reflexivity).
  split; [exact Hflag|].
  destruct (passes_aligned (fun _ => false) None None
              (snd (handleTranslatePage (fun _ => false) None None
                      (sessionOn echoBackground tt (paragraphs 2)))))
    as [_ Hscroll].
  destruct (Hscroll Hflag) as [Hrequests _]. exact Hrequests.
Defined.

End Alignment.

(** * The languages of the scroll pass *)

Module ScrollLanguages.
Import Normalizer Dom ContentTranslator PageEvents Replies Preferences.
Import JSProps DomProps PageProps Alignment.

Section WithBackground.
Context {bg : Background}.

(** A sweep that leaves the page flagged translated has installed the
    scroll listener with its own languages. *)
Lemma handleTranslatePage_handler (cancelDuring : nat -> bool)
  (src tgt : tag) (s : session) :
  getVisibleTextNodes (document s) <> [] ->
  isPageTranslated (snd (handleTranslatePage cancelDuring src tgt s)) = true ->
  scrollTranslationHandler (snd (handleTranslatePage cancelDuring src tgt s))
  = Some (orTag src (sourceLanguage (languagePreferences s)),
          orTag tgt (targetLanguage (languagePreferences s))).
Proof.
  intros Hne. unfold handleTranslatePage. cbv zeta.
  assert (Hlen : (List.length (getVisibleTextNodes (document s)) =? 0) = false).
  { apply Nat.eqb_neq. intros H0. apply Hne. now apply length_zero_iff_nil. }
  rewrite Hlen, visible_texts_length, Hlen.
  destruct (sweepLoop cancelDuring _ _ _ 0 _ 0 _) as [count s1].
  cbn [snd]. destruct (0 <? count); [reflexivity | discriminate].
Qed.

(** X24: the scroll pass keeps the languages of the sweep.  After a sweep
    that left the page translated, newly visible fragments are requested
    with the languages that sweep used, whatever language preferences have
    been pushed to the content script since: the update changes the
    preferences of the session, which the next sweep uses, but not the
    languages of the scroll listener. *)
Theorem scroll_pass_keeps_languages (cancelDuring : nat -> bool)
  (src tgt : tag) (preferences : option PrefsUpdate) (s : session) :
  let src' := orTag src (sourceLanguage (languagePreferences s)) in
  let tgt' := orTag tgt (targetLanguage (languagePreferences s)) in
  let s1 := snd (handleTranslatePage cancelDuring src tgt s) in
  let s2 := handleLanguagePreferencesUpdate preferences s1 in
  getVisibleTextNodes (document s) <> [] ->
  isPageTranslated s1 = true ->
  requests (log (onScrollSettled s2))
  = requests (log s1)
    ++ map (fun n => mkRequest (textOf n) src' tgt')
         (newlyVisibleNodes (document s1))
  /\ forall u,
       preferences = Some u ->
       languagePreferences s2
       = mkPrefs
           (match newSourceLanguage u with
            | Some v => v
            | None => sourceLanguage (languagePreferences s1)
            end)
           (match newTargetLanguage u with
            | Some v => v
            | None => targetLanguage (languagePreferences s1)
            end).
Proof.
  cbv zeta. intros Hne Hflag.
  pose proof (handleTranslatePage_handler cancelDuring src tgt s Hne Hflag)
    as Hhandler.
  set (s1 := snd (handleTranslatePage cancelDuring src tgt s)) in *.
  split.
  - unfold onScrollSettled.
    assert (Hkeep : scrollTranslationHandler
                      (handleLanguagePreferencesUpdate preferences s1)
                    = scrollTranslationHandler s1)
      by (now destruct preferences).
    rewrite Hkeep, Hhandler.
    assert (Hflag2 : isPageTranslated
                       (handleLanguagePreferencesUpdate preferences s1) = true)
      by (destruct preferences; exact Hflag).
    destruct (translateNewlyVisibleContent_aligned
                (orTag src (sourceLanguage (languagePreferences s)))
                (orTag tgt (targetLanguage (languagePreferences s)))
                (handleLanguagePreferencesUpdate preferences s1) Hflag2)
      as [Hrequests _].
    cbv zeta in Hrequests. rewrite Hrequests. now destruct preferences.
  - intros u ->. reflexivity.
Qed.

End WithBackground.

Lemma scroll_pass_keeps_languages_witness :
  let s := sessionOn echoBackground tt (paragraphs 2) in
  let update := Some (mkPrefsUpdate None (Some (Some (JS.lit "fr")))) in
  let s1 := snd (handleTranslatePage (fun _ => false) None None s) in
  getVisibleTextNodes (document s) <> []
  /\ isPageTranslated s1 = true
  /\ requests (log (onScrollSettled
                      (handleLanguagePreferencesUpdate update s1)))
     = requests (log s1)
       ++ map (fun n => mkRequest (textOf n) (Some auto)
                          (Some (JS.lit "zh-CN")))
            (newlyVisibleNodes (document s1)).
Proof.
  assert (Hne : getVisibleTextNodes
                  (document (sessionOn echoBackground tt (paragraphs 2))) <> [])
    by (vm_compute; discriminate).
  assert (Hflag : isPageTranslated
                    (snd (handleTranslatePage (fun _ => false) None None
                            (sessionOn echoBackground tt (paragraphs 2))))
                  = true) by (vm_compute; reflexivity).
  split; [exact Hne|]. split; [exact Hflag|].
  destruct (scroll_pass_keeps_languages (fun _ => false) None None
              (Some (mkPrefsUpdate None (Some (Some (JS.lit "fr")))))
              (sessionOn echoBackground tt (paragraphs 2)) Hne Hflag)
    as [Hrequests _].
  exact Hrequests.
Defined.

End ScrollLanguages.

(** * The extension's own elements during page translation *)

Module BannerProps.
Import Normalizer Dom ContentTranslator PageEvents.
Import JSProps DomProps PageProps SessionProps.

Section WithBackground.
Context {bg : Background}.

(** The icon and the popup of a session. *)
Lemma appendTranslationToNode_overlay (n : TextRef) (a : annotation)
  (s : session) :
  overlay (document (appendTranslationToNode n a s)) = overlay (document s).
Proof.
  unfold appendTranslationToNode. cbv zeta.
  now destruct (updateParent (ref_id n) _ (body (document s))).
Qed.

Lemma sweepLoop_overlay (cancelDuring : nat -> bool) (src tgt : tag)
  (total : nat) (nodes : list TextRef) :
  forall i count s,
    icon (overlay (document
            (snd (sweepLoop cancelDuring src tgt total i nodes count s))))
    = icon (overlay (document s))
    /\ popup (overlay (document
                (snd (sweepLoop cancelDuring src tgt total i nodes count s))))
       = popup (overlay (document s)).
Proof.
  induction nodes as [|node rest IH]; intros i count s; [now split|].
  rewrite sweepLoop_cons.
  destruct (qualifies (JS.trim (textContent node))); [|apply IH].
  cbv zeta.
  destruct (translateText_effects (JS.trim (textContent node)) src tgt
              (updateTranslationProgress (SweepAt (i + 1) total) s))
    as (_ & _ & Hdoc).
  set (sent := translateText _ _ _ _) in *.
  set (a := annotationFor _ _).
  set (s2 := if cancelDuring i then _ else _).
  assert (H2 : icon (overlay (document s2)) = icon (overlay (document s))
               /\ popup (overlay (document s2))
                  = popup (overlay (document s))).
  { subst s2. destruct (cancelDuring i).
    - unfold handleCancelTranslatePage. cbn. rewrite Hdoc. now split.
    - rewrite Hdoc. now split. }
  set (s4 := if i <? total - 1 then _ else _).
  assert (H4 : overlay (document s4) = overlay (document s2)).
  { subst s4. destruct (i <? total - 1);
      [cbn [delay setLog document]|]; apply appendTranslationToNode_overlay. }
  destruct (IH (S i) (if isTranslatedCall (ref_id node, a)
                      then count + 1 else count) s4) as [Hi Hp].
  rewrite Hi, Hp, H4. exact H2.
Qed.

Lemma handleTranslatePage_overlay (cancelDuring : nat -> bool)
  (src tgt : tag) (s : session) :
  icon (overlay (document (snd (handleTranslatePage cancelDuring src tgt s))))
  = icon (overlay (document s))
  /\ popup (overlay (document
              (snd (handleTranslatePage cancelDuring src tgt s))))
     = popup (overlay (document s))
  /\ (progress (overlay (document s)) = None ->
      progress (overlay (document
                  (snd (handleTranslatePage cancelDuring src tgt s)))) = None).
Proof.
  unfold handleTranslatePage. cbv zeta.
  destruct (List.length (getVisibleTextNodes (document s)) =? 0);
    [now repeat split|].
  destruct (List.length (filter qualifies _) =? 0); [now repeat split|].
  destruct (sweepLoop_overlay cancelDuring
              (orTag src (sourceLanguage (languagePreferences s)))
              (orTag tgt (targetLanguage (languagePreferences s)))
              (List.length (getVisibleTextNodes (document s)))
              (getVisibleTextNodes (document s)) 0 0
              (showTranslationProgress
                 (SweepStarting
                    (orTag src (sourceLanguage (languagePreferences s)))
                    (orTag tgt (targetLanguage (languagePreferences s)))) s))
    as [Hi Hp].
  destruct (sweepLoop cancelDuring _ _ _ 0 _ 0 _) as [count s1].
  cbn [snd] in *. destruct (0 <? count); now repeat split.
Qed.

Lemma applyResults_overlay (nodes : list TextRef)
  (results : list (jsstring * jsstring)) :
  forall k s,
    overlay (document (applyResults nodes results k s)) = overlay (document s).
Proof.
  induction nodes as [|node rest IH]; intros k s; [reflexivity|].
  cbn [applyResults]. cbv zeta.
  destruct (qualifies (JS.trim (textContent node))); [|apply IH].
  rewrite IH.
  destruct (nth_error results k) as [[original translated]|]; [|reflexivity].
  destruct (negb (JS.eqb translated original)); [|reflexivity].
  apply appendTranslationToNode_overlay.
Qed.

Lemma translateNewlyVisibleContent_overlay (src tgt : tag) (s : session) :
  overlay (document (translateNewlyVisibleContent src tgt s))
  = overlay (document s).
Proof.
  unfold translateNewlyVisibleContent. cbv zeta.
  destruct (negb (isPageTranslated s)); [reflexivity|].
  destruct (List.length (filter _ (getPageTextNodes (document s))) =? 0);
    [reflexivity|].
  destruct (List.length (filter qualifies _) =? 0); [reflexivity|].
  set (nodes := filter _ (getPageTextNodes (document s))).
  set (texts := filter qualifies _).
  destruct (translateAll_frame src tgt texts [] s) as (Hdoc & _).
  destruct (translateAll src tgt texts [] s) as [results s1].
  cbn [snd] in Hdoc. now rewrite applyResults_overlay, Hdoc.
Qed.

Lemma step_overlay (e : pageEvent) (s : session) :
  icon (overlay (document (step e s))) = icon (overlay (document s))
  /\ popup (overlay (document (step e s))) = popup (overlay (document s))
  /\ (progress (overlay (document s)) = None ->
      progress (overlay (document (step e s))) = None).
Proof.
  destruct e as [cancelDuring src tgt | |]; cbn [step].
  - apply handleTranslatePage_overlay.
  - now repeat split.
  - unfold onScrollSettled.
    destruct (scrollTranslationHandler s) as [[src tgt]|]; [|now repeat split].
    rewrite translateNewlyVisibleContent_overlay. now repeat split.
Qed.

(** X25: no banner is left behind.  Sweeps (cancelled on the way or not),
    scroll passes and cancels, in any order, leave the selection icon and
    the selection popup as they were, and when they are over no progress
    banner is on the page, provided none was there before them. *)
Theorem page_events_keep_overlay (events : list pageEvent) (s : session) :
  icon (overlay (document (run events s))) = icon (overlay (document s))
  /\ popup (overlay (document (run events s))) = popup (overlay (document s))
  /\ (progress (overlay (document s)) = None ->
      progress (overlay (document (run events s))) = None).
Proof.
  revert s. induction events as [|e events IH]; intros s; [now repeat split|].
  cbn [run fold_left]. fold (run events (step e s)).
  destruct (IH (step e s)) as (Hi & Hp & Hb).
  destruct (step_overlay e s) as (Hi1 & Hp1 & Hb1).
  rewrite Hi, Hp, Hi1, Hp1. repeat split. intros H. now apply Hb, Hb1.
Qed.

End WithBackground.

Lemma page_events_keep_overlay_witness :
  let s := sessionOn echoBackground tt (paragraphs 3) in
  let events := [TranslatePage (fun i => i =? 1) None None; ScrollSettled;
                 CancelTranslatePage] in
  progress (overlay (document s)) = None
  /\ progress (overlay (document (run events s))) = None.
Proof.
  split; [reflexivity|].
  apply (page_events_keep_overlay
           [TranslatePage (fun i => i =? 1) None None; ScrollSettled;
            CancelTranslatePage]
           (sessionOn echoBackground tt (paragraphs 3))).
  reflexivity.
Defined.

End BannerProps.

(** * One detector, many translators *)

Module DetectorOnce.
Import Normalizer TranslationCore CoreCalls EngineCalls DetectorCalls.
Import JSProps CoreProps CoreFacts.

Section WithHost.
Context {host : Host}.

(** The host can always create a detector. *)
Hypothesis create_succeeds :
  forall w, exists d w', LanguageDetector_create w = (Ok d, w').

Ltac count_calls Hd :=
  eexists; (split; [cbn [trace]; rewrite <- ?app_assoc; reflexivity|]);
  unfold detectorsMissing; cbn [detector translator]; rewrite ?Hd;
  cbn; repeat split; lia.

Lemma detectLanguage_creates (text : jsstring) (s : state) :
  exists calls,
    trace (snd (detectLanguage text s)) = trace s ++ calls
    /\ List.length (filter isDetectorCreate calls)
       + detectorsMissing (snd (detectLanguage text s))
       <= detectorsMissing s
    /\ List.length (filter isTranslatorCreate calls) = 0
    /\ translator (snd (detectLanguage text s)) = translator s.
Proof.
  unfold detectLanguage, try_catch.
  destruct hasLanguageDetector; cbn [negb].
  2:{ exists []. cbn. rewrite app_nil_r. repeat split; lia. }
  unfold bind, getDetector, hostCall, setDetector, ret.
  destruct (detector s) as [d|] eqn:Hd; cbn [world trace translator detector].
  - destruct (detector_detect d text (world s)) as [[results|e] w].
    + destruct results as [|[l|] results]; [|destruct (JS.truthy l)|];
        cbn [snd]; count_calls Hd.
    + cbn [snd]. count_calls Hd.
  - destruct (create_succeeds (world s)) as (d & w & Hcreate).
    rewrite Hcreate. cbn [world trace translator detector].
    destruct (detector_detect d text w) as [[results|e] w'].
    + destruct results as [|[l|] results]; [|destruct (JS.truthy l)|];
        cbn [snd]; count_calls Hd.
    + cbn [snd]. count_calls Hd.
Qed.

Lemma translate_creates (text : jsstring) (src tgt : tag) (s : state) :
  exists calls,
    trace (snd (translate text src tgt s)) = trace s ++ calls
    /\ List.length (filter isDetectorCreate calls) = 0
    /\ detectorsMissing (snd (translate text src tgt s)) = detectorsMissing s
    /\ List.length (filter isTranslatorCreate calls) <= 1.
Proof.
  destruct (translate_run text src tgt s) as (Hdet & Hmiss & Hcalls & _).
  unfold detectorsMissing. rewrite Hdet.
  destruct hasTranslator.
  - destruct (Hcalls eq_refl) as (calls & Htrace & [-> | ->]);
      eexists; (split; [exact Htrace|]); cbn; repeat split; lia.
  - rewrite (Hmiss eq_refl). exists []. cbn. rewrite app_nil_r.
    repeat split; lia.
Qed.

Lemma smartTranslate_creates (text : jsstring) (src tgt : tag) (s : state) :
  exists calls,
    trace (snd (smartTranslate text src tgt s)) = trace s ++ calls
    /\ List.length (filter isDetectorCreate calls)
       + detectorsMissing (snd (smartTranslate text src tgt s))
       <= detectorsMissing s
    /\ List.length (filter isTranslatorCreate calls) <= 1.
Proof.
  destruct (JS.trim text) as [|c trimmed] eqn:Htrim.
  { assert (Hthrow : smartTranslate text src tgt s = (Throw EmptyText, s)).
    { unfold smartTranslate. rewrite Htrim. cbn [JS.truthy negb].
      now rewrite orb_true_r. }
    rewrite Hthrow. exists []. cbn. rewrite app_nil_r. repeat split; lia. }
  assert (Htext : JS.trim text <> []) by (rewrite Htrim; discriminate).
  destruct (smartTranslate_run text src tgt s Htext)
    as (actual & s1 & calls0 & Hres & _ & _ & _ & _ & _ & Hrun).
  rewrite Hrun.
  assert (Hbefore : exists calls1,
            trace s1 = trace s ++ calls1
            /\ List.length (filter isDetectorCreate calls1)
               + detectorsMissing s1 <= detectorsMissing s
            /\ List.length (filter isTranslatorCreate calls1) = 0).
  { unfold resolveSource in Hres. destruct (tag_eqb src (Some auto)).
    - unfold bind, ret in Hres.
      destruct (detectLanguage_creates text s) as (calls1 & Ht1 & Hd1 & Hc1 & _).
      destruct (detectLanguage text s) as [[d|e] sd]; [|discriminate].
      inversion Hres; subst. now exists calls1.
    - unfold ret in Hres. inversion Hres; subst.
      exists []. cbn. rewrite app_nil_r. repeat split; lia. }
  destruct Hbefore as (calls1 & Htrace1 & Hd1 & Ht1).
  destruct (JS.eqb (normalizeLanguage actual) (normalizeLanguage tgt)).
  - exists calls1. cbn [snd]. repeat split; [exact Htrace1 | exact Hd1 | lia].
  - destruct (translate_creates text actual tgt s1)
      as (calls2 & Htrace2 & Hd2 & Hm2 & Ht2).
    exists (calls1 ++ calls2).
    destruct (translate text actual tgt s1) as [[t|e] s2];
      cbn [snd] in *;
      rewrite Htrace2, Htrace1, <- app_assoc, Hm2, !filter_app, !length_app;
      repeat split; lia.
Qed.

Lemma afterItem_creates (onProgress : option callback) (i total : nat)
  (r : TranslationResult) (s : state) :
  exists calls,
    trace (snd (afterItem onProgress i total r s)) = trace s ++ calls
    /\ List.length (filter isDetectorCreate calls) = 0
    /\ detectorsMissing (snd (afterItem onProgress i total r s))
       = detectorsMissing s
    /\ List.length (filter isTranslatorCreate calls) = 0.
Proof.
  unfold afterItem, notify, bind, hostCall, sleep, ret, detectorsMissing.
  destruct onProgress as [cb|].
  - destruct (cb (i + 1) total r (world s)) as [[u|e] w];
      [destruct (i <? total - 1)|];
      eexists;
      (split; [cbn [snd trace]; rewrite <- ?app_assoc; reflexivity|]);
      now repeat split.
  - destruct (i <? total - 1).
    + eexists. split; [cbn [snd trace]; reflexivity|]. now repeat split.
    + exists []. cbn. rewrite app_nil_r. now repeat split.
Qed.

Lemma batchLoop_creates (src tgt : tag) (onProgress : option callback)
  (total : nat) (texts : list jsstring) :
  forall i acc s,
  exists calls,
    trace (snd (batchLoop src tgt onProgress total i texts acc s))
    = trace s ++ calls
    /\ List.length (filter isDetectorCreate calls)
       + detectorsMissing
           (snd (batchLoop src tgt onProgress total i texts acc s))
       <= detectorsMissing s
    /\ List.length (filter isTranslatorCreate calls) <= List.length texts.
Proof.
  induction texts as [|text rest IH]; intros i acc s.
  - exists []. cbn. rewrite app_nil_r. repeat split; lia.
  - cbn [batchLoop List.length].
    destruct (smartTranslate_creates text src tgt s)
      as (calls1 & Htrace1 & Hd1 & Ht1).
    destruct (smartTranslate text src tgt s) as [[r|e] s1];
      cbn [snd] in Htrace1, Hd1.
    + destruct (afterItem_creates onProgress i total r s1)
        as (calls2 & Htrace2 & Hd2 & Hm2 & Ht2).
      destruct (afterItem onProgress i total r s1) as [[u|e] s2];
        cbn [snd] in Htrace2, Hm2;
        match goal with
        | |- context [batchLoop _ _ _ _ _ _ ?acc' s2] =>
            destruct (IH (S i) acc' s2) as (calls3 & Htrace3 & Hd3 & Ht3)
        end;
        exists (calls1 ++ calls2 ++ calls3);
        (split; [rewrite Htrace3, Htrace2, Htrace1, <- !app_assoc;
                 reflexivity|]);
        rewrite !filter_app, !length_app; split; lia.
    + destruct (IH (S i) (acc ++ [fallback text src]) s1)
        as (calls3 & Htrace3 & Hd3 & Ht3).
      exists (calls1 ++ calls3).
      split; [rewrite Htrace3, Htrace1, <- !app_assoc; reflexivity|].
      rewrite !filter_app, !length_app. split; lia.
Qed.

(** X26: one detector, many translators.  On a host that can create a
    detector, [batchTranslate] asks for a detector at most once, whatever
    the number of texts, and not at all when the core has one cached: the
    detector is reused from text to text.  It asks for at most one
    translator per text. *)
Theorem batchTranslate_detector_once (texts : list jsstring) (src tgt : tag)
  (onProgress : option callback) (s : state) :
  exists calls,
    trace (snd (batchTranslate texts src tgt onProgress s)) = trace s ++ calls
    /\ List.length (filter isDetectorCreate calls) <= 1
    /\ (detector s <> None -> filter isDetectorCreate calls = [])
    /\ List.length (filter isTranslatorCreate calls) <= List.length texts.
Proof.
  unfold batchTranslate.
  destruct (batchLoop_creates src tgt onProgress (List.length texts) texts
              0 [] s) as (calls & Htrace & Hd & Ht).
  exists calls. split; [exact Htrace|].
  unfold detectorsMissing in Hd at 2.
  split; [destruct (detector s); lia|]. split; [|exact Ht].
  intros Hcached. destruct (detector s); [|now elim Hcached].
  apply length_zero_iff_nil. lia.
Qed.

End WithHost.

Lemma batchTranslate_detector_once_witness :
  (forall w, exists d w',
       @LanguageDetector_create exampleHost w = (Ok d, w'))
  /\ exists calls,
       trace (snd (batchTranslate (host := exampleHost)
                     [JS.lit "one"; JS.lit "two"; JS.lit "three"]
                     (Some auto) (Some en) None freshCore))
       = trace freshCore ++ calls
       /\ List.length (filter isDetectorCreate calls) <= 1.
Proof.
  assert (Hcreate : forall w, exists d w',
             @LanguageDetector_create exampleHost w = (Ok d, w'))
    by (intros w; now exists tt, w).
  split; [exact Hcreate|].
  destruct (batchTranslate_detector_once (host := exampleHost) Hcreate
              [JS.lit "one"; JS.lit "two"; JS.lit "three"]
              (Some auto) (Some en) None freshCore)
    as (calls & Htrace & Hcount & _).
  exists calls. split; [exact Htrace | exact Hcount].
Defined.

End DetectorOnce.
